(** * go-i18n: a shallow embedding of the language engine

    The repository holds three revisions of one Go package [i18n]:

    - [src/unnamed/part_000]: the first revision; switch callbacks are kept
      in a slice ([SwitchCallbacks []func()]).
    - [src/i18n/i18n.go]: the second revision; callbacks are kept in
      [callbackDataMap map[uint32]*CallbackData], initialisation goes
      through [InitI18nWithConfig] and [initI18n].
    - [src/i18n/i18n_test.go] (with [structs.go] and [enums.go]): the third
      revision; initialisation is option driven ([InitI18nWithOptions]),
      loading is split into [LoadLanguage] and [UseLanguage], discovery is
      [PackageListByPatternFunc].

    Package-level variables become the fields of one record [State]; every
    function becomes a computation in a small monad [M] that threads the
    state, collects what the function emits (log records, callback
    invocations) and ends in one of the three ways a Go call can end:
    a normal return, a panic, or [os.Exit] (as [log.Fatalf] does).

    The libraries the package calls (go-i18n's bundle and localizer,
    [golang.org/x/text/language], [filepath.Glob], the log sinks and the
    callbacks that callers register) are external collaborators: they are
    the fields of the classes [Locale], [Catalog] and [Host].

    [GetI18nFormatted] and [GTF] format with [fmt.Sprintf], which is a
    collaborator of its own, the class [Fmt].

    Left out: the wrappers [InitI18nWithLogFunc] and
    [InitI18nWithAllFunc], whose options carry closures of the package
    around the functions of the caller, and [AddSwitchCallbackDo], which
    registers on another goroutine. *)

From Stdlib Require Import String Ascii ZArith NArith List Lia Bool.
From stdpp Require Import base option list gmap strings.

Open Scope string_scope.
Open Scope list_scope.

(** * Strings, as the Go standard library treats them *)

Module GoStrings.

Definition newline : ascii := "010"%char.
Definition carriage_return : ascii := "013"%char.
Definition slash : ascii := "/"%char.

(** The one-character string holding a double quote (used by the
    messages that quote a file name). *)
Definition dquote : string := String "034"%char EmptyString.

(** [strings.HasPrefix] that also hands back the remainder. *)
Fixpoint strip_prefix (p s : string) : option string :=
  match p with
  | EmptyString => Some s
  | String a p' =>
      match s with
      | EmptyString => None
      | String b s' => if Ascii.eqb a b then strip_prefix p' s' else None
      end
  end.

(** [strings.Contains]. *)
Fixpoint contains (sub s : string) : bool :=
  match strip_prefix sub s with
  | Some _ => true
  | None =>
      match s with
      | EmptyString => false
      | String _ s' => contains sub s'
      end
  end.

(** [strings.Split(s, sep)] for a one-character separator. *)
Fixpoint split_on (sep : ascii) (s : string) : list string :=
  match s with
  | EmptyString => [EmptyString]
  | String c s' =>
      if Ascii.eqb c sep then EmptyString :: split_on sep s'
      else match split_on sep s' with
           | [] => [String c EmptyString]
           | w :: ws => String c w :: ws
           end
  end.

(** [strings.Join(elems, sep)]. *)
Fixpoint join (sep : string) (elems : list string) : string :=
  match elems with
  | [] => EmptyString
  | [e] => e
  | e :: rest => e +:+ sep +:+ join sep rest
  end.

(** [bufio.Reader.ReadString('\n')] on a reader positioned at the start
    of [content]: the text up to and including the first newline; the
    flag is [true] when the input ended before a newline was seen (the
    call then returns what it read together with [io.EOF]). *)
Fixpoint ReadString_newline (content : string) : string * bool :=
  match content with
  | EmptyString => (EmptyString, true)
  | String c rest =>
      if Ascii.eqb c newline then (String c EmptyString, false)
      else let '(line, eof) := ReadString_newline rest in (String c line, eof)
  end.

(** The loop of [ReadLangFromBytes]: the bytes before the first carriage
    return or newline. *)
Fixpoint first_line (content : string) : string :=
  match content with
  | EmptyString => EmptyString
  | String c rest =>
      if Ascii.eqb c carriage_return || Ascii.eqb c newline then EmptyString
      else String c (first_line rest)
  end.

End GoStrings.

(** * The label pattern

    [init] compiles the pattern  # \[i18n\] <G> <G>  where G is the capturing group
    dot-star.  Go's [regexp] finds the
    leftmost match and, among the matches starting there, the one a
    backtracking matcher with greedy stars finds first; [.] matches every
    character but a newline.  The pattern only needs literals and the group G, so that is what the matcher knows. *)

Module Regexp.
Import GoStrings.

Inductive Item :=
| Lit (s : string)      (* a literal run *)
| CaptureAny.           (* the capturing group dot-star *)

(** The greedy group followed by the continuation [k]: take one more
    character when the rest can still match, give it back otherwise.
    The result lists the captures, this group's first. *)
Fixpoint capture_greedy (k : string -> option (list string)) (s : string)
  : option (list string) :=
  let stop := (fun _ : unit => cons EmptyString <$> k s) in
  match s with
  | EmptyString => stop tt
  | String c s' =>
      if Ascii.eqb c newline then stop tt
      else match capture_greedy k s' with
           | Some (g :: gs) => Some (String c g :: gs)
           | _ => stop tt
           end
  end.

(** Match the items at the very start of [s]. *)
Fixpoint match_here (items : list Item) (s : string) : option (list string) :=
  match items with
  | [] => Some []
  | Lit l :: rest =>
      match strip_prefix l s with
      | Some s' => match_here rest s'
      | None => None
      end
  | CaptureAny :: rest => capture_greedy (match_here rest) s
  end.

(** Leftmost match anywhere in [s]: the submatches of the groups. *)
Fixpoint find (items : list Item) (s : string) : option (list string) :=
  match match_here items s with
  | Some gs => Some gs
  | None =>
      match s with
      | EmptyString => None
      | String _ s' => find items s'
      end
  end.

Definition MatchString (items : list Item) (s : string) : bool :=
  bool_decide (is_Some (find items s)).

End Regexp.

(** [i18nLabelRegexp], as [init] compiles it. *)
Definition i18nLabelRegexp : list Regexp.Item :=
  [Regexp.Lit "# [i18n] <"; Regexp.CaptureAny; Regexp.Lit "> <";
   Regexp.CaptureAny; Regexp.Lit ">"].

(** [ReadLangLabel] (i18n_test.go:565): the two submatches when the line
    matches, the empty slice otherwise. *)
Definition ReadLangLabel (topLine : string) : list string :=
  if Regexp.MatchString i18nLabelRegexp topLine then
    match Regexp.find i18nLabelRegexp topLine with
    | Some gs => take 2 gs
    | None => []
    end
  else [].

(** * [path/filepath] on a slash-separated system *)

Module Filepath.
Import GoStrings.

Definition clean_step (rooted : bool) (stack : list string) (c : string)
  : list string :=
  if bool_decide (c = "") || bool_decide (c = ".") then stack
  else if bool_decide (c = "..") then
    match stack with
    | top :: below => if bool_decide (top = "..") then c :: stack else below
    | [] => if rooted then [] else [c]
    end
  else c :: stack.

(** [filepath.Clean]: one separator between elements, no [.] element,
    an inner [..] swallows the element before it, a rooted path does not
    climb above the root, and the empty result is [.]. *)
Definition Clean (p : string) : string :=
  let rooted := bool_decide (is_Some (strip_prefix "/" p)) in
  let stack := fold_left (clean_step rooted) (split_on slash p) [] in
  let body := join "/" (rev stack) in
  if rooted then "/" +:+ body
  else if bool_decide (body = "") then "." else body.

Fixpoint drop_empty (elem : list string) : list string :=
  match elem with
  | [] => []
  | e :: rest => if bool_decide (e = "") then drop_empty rest else elem
  end.

(** [filepath.Join]: the elements from the first non-empty one on,
    joined by the separator and cleaned; the empty string when every
    element is empty. *)
Definition Join (elem : list string) : string :=
  match drop_empty elem with
  | [] => ""
  | rest => Clean (join "/" rest)
  end.

End Filepath.

(** * External collaborators and the data model *)

(** A Go [error], by its message; [None] is the nil error. *)
Definition error : Type := string.

(** The identity of a function value handed in by the caller (a log sink,
    a switch callback, a decoder, a discoverer).  What it does when called
    is given by the [Host]. *)
Definition Fn : Type := N.

(** [golang.org/x/text/language]: tags are opaque and comparable. *)
Class Locale := {
  language_Tag : Type;
  language_Tag_eq_dec :: EqDecision language_Tag;
  (** [Tag.String] *)
  Tag_String : language_Tag -> string;
  language_English : language_Tag;
  language_SimplifiedChinese : language_Tag;
  language_TraditionalChinese : language_Tag;
  (** [language.ParseAcceptLanguage]: the tags and the error (the quality
      values are dropped by the only caller, [parseTags]) *)
  ParseAcceptLanguage : string -> list language_Tag * option error;
}.

(** [Lang] (structs.go).  The second revision has no [Data] field and
    spells [FileName] [fileName]; there [Lang_Data] is always [None]. *)
Record Lang `{Locale} := mkLang {
  Lang_Name : string;
  Lang_Tag : language_Tag;
  Lang_FileName : string;
  Lang_Data : option string;          (* *[]byte *)
}.

(** A value of type [interface{}], as far as the package looks into it. *)
#[local] Set Warnings "-register-all".
Inductive Value `{Locale} : Type :=
| VNil
| VString (s : string)
| VBool (b : bool)
| VInt (z : Z)
| VBytes (b : string)
| VError (e : error)
| VLangs (ls : list (option Lang))                     (* []*Lang *)
| VOption (optionType : Z) (data : option Value) (callback : option Fn)
| VSlice (vs : list Value)                             (* []interface{} *)
| VOther (description : string).

(** [Data] (structs.go): template variables and plural count. *)
Record Data `{Locale} := mkData {
  Data_Data : option (gmap string Value);   (* map[string]interface{}, nil or not *)
  Data_PluralCount : Z;
}.

(** [Option] and [OptionType] (structs.go, enums.go). *)
Definition OptionType : Type := Z.       (* int8 *)
Definition LogInfoFunc : OptionType := 1%Z.
Definition LogErrorFunc : OptionType := 2%Z.
Definition UnmarshalFunc : OptionType := 3%Z.
Definition PackageSuffix : OptionType := 4%Z.
Definition PackagePath : OptionType := 5%Z.
Definition PackagePattern : OptionType := 6%Z.
Definition PackageListFunc : OptionType := 7%Z.
Definition DefaultUseSystemLanguage : OptionType := 8%Z.

Record Option `{Locale} := mkOption {
  Option_OptionType : OptionType;
  Option_Data : option Value;              (* *interface{} *)
  Option_Callback : option Fn;             (* func(v interface{}) interface{} *)
}.

Definition NewOptionWithCallback `{Locale} (optionType : OptionType)
    (callback : option Fn) : Option :=
  {| Option_OptionType := optionType; Option_Data := None;
     Option_Callback := callback |}.

Definition NewOptionWithData `{Locale} (optionType : OptionType) (data : Value)
    : Option :=
  {| Option_OptionType := optionType; Option_Data := Some data;
     Option_Callback := None |}.

Definition Value_of_Option `{Locale} (o : Option) : Value :=
  VOption (Option_OptionType o) (Option_Data o) (Option_Callback o).

(** The function stored in [CallbackData.Callback]: either a function of
    the caller, or the closure [TCDataCallback] builds around its own
    arguments (i18n.go:248, i18n_test.go:505). *)
Inductive CallbackFn `{Locale} :=
| CbFunc (f : Fn)
| CbLocalized (defaultLocalized id : string) (data : option Data)
              (callback : option Fn).

(** [CallbackData] (structs.go); [notOrigin] is [NotOrigin] in i18n.go. *)
Record CallbackData `{Locale} := mkCallbackData {
  Callback : option CallbackFn;
  CallbackId : N;                          (* uint32 *)
  notOrigin : bool;
}.

(** [goI18n.LocalizeConfig] as [Localize] fills it. *)
Record LocalizeConfig `{Locale} := mkLocalizeConfig {
  DefaultMessage_ID : string;
  TemplateData : option (gmap string Value);
  PluralCount : Z;
}.

(** The decoder registered with the bundle. *)
Inductive Unmarshaler :=
| toml_Unmarshal
| UnmarshalFn (f : Fn)                     (* second revision: the argument *)
| UnmarshalOption (callback : option Fn).  (* third revision: option.Callback *)

(** go-i18n's message catalog.  A [Bundle] is the content of one
    [*goI18n.Bundle] object; the methods that change the object return its
    new content. *)
Class Catalog `{Locale} := {
  Bundle : Type;
  NewBundle : language_Tag -> Bundle;
  RegisterUnmarshalFunc : string -> Unmarshaler -> Bundle -> Bundle;
  (** [Bundle.LoadMessageFile], reading the file system given first *)
  LoadMessageFile : gmap string string -> string -> Bundle -> Bundle * option error;
  (** [Bundle.ParseMessageFileBytes] *)
  ParseMessageFileBytes : string -> string -> Bundle -> Bundle * option error;
  (** [Localizer.Localize] of a localizer made for these languages on a
      bundle with this content *)
  Localizer_Localize : Bundle -> list string -> LocalizeConfig -> string * option error;
}.

(** A [*goI18n.Localizer]: the bundle object it was made for (a pointer
    into [bundles] below, so that later loads into that object are seen)
    and the languages it was given. *)
Record LocalizerT := mkLocalizer {
  localizer_bundle : option nat;
  localizer_langs : list string;
}.

(** A log sink variable holds one of these. *)
Inductive Sink :=
| log_Printf
| log_Fatalf
| SinkFn (f : Fn)                          (* second revision: the argument *)
| SinkOption (callback : option Fn).       (* third revision: closure over option.Callback *)

(** [packageListFunc], the closure [InitI18nWithOptions] stores. *)
Inductive PackageLister :=
| ListByPattern (langFilesPattern : string)
| ListByCallback (callback : option Fn) (langFilesPattern : string).

(** The package-level variables of the three revisions, the bundle
    objects allocated so far and the files the process can open. *)
Record State `{Catalog} := mkState {
  callbackDataMap : gmap N CallbackData;
  currentCallbackDataId : N;
  SwitchCallbacks : list (option Fn);      (* part_000 only *)
  Localizer : option LocalizerT;
  Languages : list (option Lang);
  Language : option Lang;
  DefaultLang : option Lang;
  logInfoFunc : option Sink;               (* LogInfoFunc in i18n.go *)
  logErrorFunc : option Sink;              (* LogErrorFunc in i18n.go *)
  unmarshalFunc : option Unmarshaler;
  packageListFunc : option PackageLister;
  bundle : option nat;
  bundles : list Bundle;
  files : gmap string string;
}.

Inductive Severity := SevInfo | SevError.

(** What a call lets the outside see while it runs. *)
Inductive Event `{Locale} :=
| EvLog (severity : Severity) (format : string) (args : list Value)
| EvCall (slot : N) (callback : CallbackFn).

(** * How a Go call ends *)

Inductive Fault :=
| NilDereference
| IndexOutOfRange
| NilFuncCall
| TypeAssertion
| PanicValue (message : string).

Inductive Outcome (A : Type) :=
| Ret (a : A)
| Panic (f : Fault)
| Exit (code : Z).
Arguments Ret {A} a.
Arguments Panic {A} f.
Arguments Exit {A} code.

Inductive SinkResult :=
| SinkReturns
| SinkPanics (f : Fault)
| SinkExits (code : Z).

(** The functions of the caller.  A log sink is known by how a call to it
    ends; it does not touch the package's variables.  Every other function
    value may do to the state whatever it likes. *)
Class Host `{Catalog} := {
  (** [filepath.Glob] *)
  Glob : gmap string string -> string -> list string * option error;
  sink_behaviour : Fn -> string -> list Value -> SinkResult;
  call_func : Fn -> list Value -> State -> Outcome Value * State;
}.

Section monad.
Context `{Catalog}.

Record Run (A : Type) := mkRun {
  outcome : Outcome A;
  final : State;
  emitted : list Event;
}.
Global Arguments mkRun {A} _ _ _.
Global Arguments outcome {A} _.
Global Arguments final {A} _.
Global Arguments emitted {A} _.

Definition M (A : Type) : Type := State -> Run A.

Definition ret {A} (a : A) : M A := fun s => mkRun (Ret a) s [].

Definition bind {A B} (m : M A) (k : A -> M B) : M B := fun s =>
  let r := m s in
  match outcome r with
  | Ret a =>
      let r' := k a (final r) in
      mkRun (outcome r') (final r') (emitted r ++ emitted r')
  | Panic f => mkRun (Panic f) (final r) (emitted r)
  | Exit c => mkRun (Exit c) (final r) (emitted r)
  end.

Definition get : M State := fun s => mkRun (Ret s) s [].
Definition gets {A} (f : State -> A) : M A := fun s => mkRun (Ret (f s)) s [].
Definition modify (f : State -> State) : M unit := fun s => mkRun (Ret tt) (f s) [].
Definition panic {A} (f : Fault) : M A := fun s => mkRun (Panic f) s [].
Definition exit {A} (code : Z) : M A := fun s => mkRun (Exit code) s [].
Definition emit (e : Event) : M unit := fun s => mkRun (Ret tt) s [e].

(** The callback invocations among the emitted events. *)
Definition calls (evs : list Event) : list (N * CallbackFn) :=
  omap (fun e => match e with EvCall k c => Some (k, c) | _ => None end) evs.

(** The error-severity log records among the emitted events. *)
Definition error_logs (evs : list Event) : list string :=
  omap (fun e => match e with EvLog SevError f _ => Some f | _ => None end) evs.

(** Assignments to the package variables. *)
Definition set_callbackDataMap v (s : State) : State :=
  mkState _ _ v (currentCallbackDataId s) (SwitchCallbacks s) (Localizer s)
    (Languages s) (Language s) (DefaultLang s) (logInfoFunc s) (logErrorFunc s)
    (unmarshalFunc s) (packageListFunc s) (bundle s) (bundles s) (files s).
Definition set_currentCallbackDataId v (s : State) : State :=
  mkState _ _ (callbackDataMap s) v (SwitchCallbacks s) (Localizer s)
    (Languages s) (Language s) (DefaultLang s) (logInfoFunc s) (logErrorFunc s)
    (unmarshalFunc s) (packageListFunc s) (bundle s) (bundles s) (files s).
Definition set_SwitchCallbacks v (s : State) : State :=
  mkState _ _ (callbackDataMap s) (currentCallbackDataId s) v (Localizer s)
    (Languages s) (Language s) (DefaultLang s) (logInfoFunc s) (logErrorFunc s)
    (unmarshalFunc s) (packageListFunc s) (bundle s) (bundles s) (files s).
Definition set_Localizer v (s : State) : State :=
  mkState _ _ (callbackDataMap s) (currentCallbackDataId s) (SwitchCallbacks s) v
    (Languages s) (Language s) (DefaultLang s) (logInfoFunc s) (logErrorFunc s)
    (unmarshalFunc s) (packageListFunc s) (bundle s) (bundles s) (files s).
Definition set_Languages v (s : State) : State :=
  mkState _ _ (callbackDataMap s) (currentCallbackDataId s) (SwitchCallbacks s)
    (Localizer s) v (Language s) (DefaultLang s) (logInfoFunc s) (logErrorFunc s)
    (unmarshalFunc s) (packageListFunc s) (bundle s) (bundles s) (files s).
Definition set_Language v (s : State) : State :=
  mkState _ _ (callbackDataMap s) (currentCallbackDataId s) (SwitchCallbacks s)
    (Localizer s) (Languages s) v (DefaultLang s) (logInfoFunc s) (logErrorFunc s)
    (unmarshalFunc s) (packageListFunc s) (bundle s) (bundles s) (files s).
Definition set_DefaultLang v (s : State) : State :=
  mkState _ _ (callbackDataMap s) (currentCallbackDataId s) (SwitchCallbacks s)
    (Localizer s) (Languages s) (Language s) v (logInfoFunc s) (logErrorFunc s)
    (unmarshalFunc s) (packageListFunc s) (bundle s) (bundles s) (files s).
Definition set_logInfoFunc v (s : State) : State :=
  mkState _ _ (callbackDataMap s) (currentCallbackDataId s) (SwitchCallbacks s)
    (Localizer s) (Languages s) (Language s) (DefaultLang s) v (logErrorFunc s)
    (unmarshalFunc s) (packageListFunc s) (bundle s) (bundles s) (files s).
Definition set_logErrorFunc v (s : State) : State :=
  mkState _ _ (callbackDataMap s) (currentCallbackDataId s) (SwitchCallbacks s)
    (Localizer s) (Languages s) (Language s) (DefaultLang s) (logInfoFunc s) v
    (unmarshalFunc s) (packageListFunc s) (bundle s) (bundles s) (files s).
Definition set_unmarshalFunc v (s : State) : State :=
  mkState _ _ (callbackDataMap s) (currentCallbackDataId s) (SwitchCallbacks s)
    (Localizer s) (Languages s) (Language s) (DefaultLang s) (logInfoFunc s)
    (logErrorFunc s) v (packageListFunc s) (bundle s) (bundles s) (files s).
Definition set_packageListFunc v (s : State) : State :=
  mkState _ _ (callbackDataMap s) (currentCallbackDataId s) (SwitchCallbacks s)
    (Localizer s) (Languages s) (Language s) (DefaultLang s) (logInfoFunc s)
    (logErrorFunc s) (unmarshalFunc s) v (bundle s) (bundles s) (files s).
Definition set_bundle v (s : State) : State :=
  mkState _ _ (callbackDataMap s) (currentCallbackDataId s) (SwitchCallbacks s)
    (Localizer s) (Languages s) (Language s) (DefaultLang s) (logInfoFunc s)
    (logErrorFunc s) (unmarshalFunc s) (packageListFunc s) v (bundles s) (files s).
Definition set_bundles v (s : State) : State :=
  mkState _ _ (callbackDataMap s) (currentCallbackDataId s) (SwitchCallbacks s)
    (Localizer s) (Languages s) (Language s) (DefaultLang s) (logInfoFunc s)
    (logErrorFunc s) (unmarshalFunc s) (packageListFunc s) (bundle s) v (files s).

(** The variables as the package's [init] leaves them, for a process
    that sees the files [fs]. *)
Definition initial_state (fs : gmap string string) : State :=
  mkState _ _ ∅ 0%N [] None [] None None None None None None None [] fs.

End monad.

Arguments calls : simpl never.
Arguments error_logs : simpl never.

Declare Scope go_scope.
Delimit Scope go_scope with go.
Notation "x <- m ;; k" := (bind m (fun x => k))
  (at level 100, m at next level, right associativity) : go_scope.
Notation "m ;;; k" := (bind m (fun _ => k))
  (at level 100, right associativity) : go_scope.
Open Scope go_scope.

(** * What the second and third revision share

    The functions of this section read the same in [src/i18n/i18n.go] and
    in [src/i18n/i18n_test.go], up to the capital letter of
    [LogInfoFunc]/[logInfoFunc], [LogErrorFunc]/[logErrorFunc] and
    [NotOrigin]/[notOrigin]. *)

Section shared.
Context `{Host}.
Import GoStrings.

(** A call of the function value [f]; calling a nil function panics. *)
Definition call_fn (f : option Fn) (args : list Value) : M Value :=
  match f with
  | None => panic NilFuncCall
  | Some f => fun s => let '(o, s') := call_func f args s in mkRun o s' []
  end.

(** How a call of the sink [sk] ends. [log.Printf] writes and returns,
    [log.Fatalf] writes and calls [os.Exit(1)]. *)
Definition sink_outcome (sk : Sink) (format : string) (args : list Value)
  : SinkResult :=
  match sk with
  | log_Printf => SinkReturns
  | log_Fatalf => SinkExits 1
  | SinkFn f => sink_behaviour f format args
  | SinkOption None => SinkPanics NilFuncCall
  | SinkOption (Some f) => sink_behaviour f format args
  end.

(** The sink variable is set, and every call of the sink it holds
    returns. *)
Definition sink_returns (sk : option Sink) : Prop :=
  exists k, sk = Some k /\ forall format args, sink_outcome k format args = SinkReturns.

(** A call through the sink variable [var]: the record reaches the sink
    unless the variable is nil (a nil function call panics), and the call
    ends as the sink does. *)
Definition call_sink (severity : Severity) (var : State -> option Sink)
    (format : string) (args : list Value) : M unit :=
  sk <- gets var ;;
  match sk with
  | None => panic NilFuncCall
  | Some sk =>
      emit (EvLog severity format args) ;;;
      match sink_outcome sk format args with
      | SinkReturns => ret tt
      | SinkPanics f => panic f
      | SinkExits code => exit code
      end
  end.

(** [logInfoFunc(format, args...)] and [logErrorFunc(format, args...)]. *)
Definition logInfo := call_sink SevInfo logInfoFunc.
Definition logError := call_sink SevError logErrorFunc.

(** [parseTags] (i18n.go:325, i18n_test.go:622). *)
Definition parseTags (lang : string) : list language_Tag :=
  match ParseAcceptLanguage lang with
  | (t, None) => t
  | (_, Some _) => []
  end.

(** The index expression [tags[0]]. *)
Definition index0 {A} (xs : list A) : M A :=
  match xs with
  | [] => panic IndexOutOfRange
  | x :: _ => ret x
  end.

(** [fmt.Sprintf("%s (%s)", lang.Name, lang.Tag.String())]. *)
Definition langName (lang : Lang) : string :=
  Lang_Name lang +:+ " (" +:+ Tag_String (Lang_Tag lang) +:+ ")".

(** [SetDefaultLang] (i18n.go:91, i18n_test.go:175). *)
Definition SetDefaultLang (lang : Lang) : M Lang :=
  modify (set_DefaultLang (Some lang)) ;;; ret lang.

(** A method of [*goI18n.Bundle] that changes the object, called on the
    package's [bundle].  On a nil [bundle] the call faults. *)
Definition on_bundle (method : Bundle -> Bundle * option error) : M (option error) :=
  p <- gets bundle ;;
  bs <- gets bundles ;;
  match p with
  | None => panic NilDereference
  | Some p =>
      match bs !! p with
      | None => panic NilDereference
      | Some b =>
          let '(b', err) := method b in
          modify (set_bundles (<[p := b']> bs)) ;;; ret err
      end
  end.

(** [goI18n.NewBundle]: a fresh bundle object. *)
Definition new_bundle (tag : language_Tag) : M unit :=
  bs <- gets bundles ;;
  modify (set_bundles (bs ++ [NewBundle tag])) ;;;
  modify (set_bundle (Some (length bs))).

(** [goI18n.NewLocalizer(bundle, lang.Tag.String())]. *)
Definition NewLocalizer (lang : Lang) : M LocalizerT :=
  p <- gets bundle ;;
  ret (mkLocalizer p [Tag_String (Lang_Tag lang)]).

(** [Localize] (i18n.go:254, i18n_test.go:511).  [Localizer.Localize]
    on a nil localizer, or on one made for a nil bundle, faults inside
    go-i18n when it reaches for the bundle. *)
Definition Localize (defaultLocalized id : string)
    (data : option (gmap string Value)) (pluralCount : Z) : M string :=
  l <- gets Localizer ;;
  bs <- gets bundles ;;
  match l with
  | None => panic NilDereference
  | Some l =>
      match localizer_bundle l ≫= (fun p => bs !! p) with
      | None => panic NilDereference
      | Some b =>
          match Localizer_Localize b (localizer_langs l)
                  (mkLocalizeConfig _ id data pluralCount) with
          | (localized, None) => ret localized
          | (_, Some err) =>
              logError "[i18n] i18n error: %v" [VError err] ;;;
              ret defaultLocalized
          end
      end
  end.

(** [TC], [T], [TCData], [TData] (i18n.go:194-219, i18n_test.go:451-476). *)
Definition TC (defaultLocalized id : string) : M string :=
  Localize defaultLocalized id None 0.

Definition T (id : string) : M string := TC "" id.

Definition TCData (defaultLocalized id : string) (data : option Data) : M string :=
  let localizeData := match data with Some d => Data_Data d | None => None end in
  let pluralCount := match data with Some d => Data_PluralCount d | None => 0%Z end in
  Localize defaultLocalized id localizeData pluralCount.

Definition TData (id : string) (data : option Data) : M string :=
  TCData "" id data.

(** [getNewCallbackDataId]: [atomic.AddUint32(&currentCallbackDataId, 1)]. *)
Definition getNewCallbackDataId : M N :=
  n <- gets currentCallbackDataId ;;
  let n' := ((n + 1) mod 2 ^ 32)%N in
  modify (set_currentCallbackDataId n') ;;; ret n'.

(** [AddSwitchCallback] (i18n.go:294, i18n_test.go:550).  The [data]
    bound by the [if] is the entry found in the map, so it is the
    found entry's flag that decides about the log record; the new entry
    is stored under the counter's new value, and its [CallbackId] field
    is left as the caller set it. *)
Definition AddSwitchCallback (data : option CallbackData) : M unit :=
  match data with
  | None => panic NilDereference
  | Some data =>
      m <- gets callbackDataMap ;;
      match m !! CallbackId data with
      | Some found =>
          if negb (notOrigin found)
          then logError "[i18n] cannot add duplicated callback" []
          else ret tt
      | None =>
          getNewCallbackDataId ;;;
          n <- gets currentCallbackDataId ;;
          modify (set_callbackDataMap (<[n := data]> m))
      end
  end.

(** [TCDataCallback] (i18n.go:237, i18n_test.go:494). *)
Definition TCDataCallback (defaultLocalized id : string) (data : option Data)
    (callback : option Fn) : M unit :=
  let localizeData := match data with Some d => Data_Data d | None => None end in
  let pluralCount := match data with Some d => Data_PluralCount d | None => 0%Z end in
  localized <- Localize defaultLocalized id localizeData pluralCount ;;
  call_fn callback [VString localized] ;;;
  AddSwitchCallback
    (Some {| Callback := Some (CbLocalized defaultLocalized id data callback);
             CallbackId := 0; notOrigin := true |}).

Definition TDataCallback (id : string) (data : option Data) (callback : option Fn)
  : M unit := TCDataCallback "" id data callback.

Definition TCCallback (defaultLocalized id : string) (callback : option Fn)
  : M unit := TCDataCallback defaultLocalized id None callback.

Definition TCallback (id : string) (callback : option Fn) : M unit :=
  TDataCallback id None callback.

(** [callbackData.Callback()]. *)
Definition invoke (c : CallbackFn) : M unit :=
  match c with
  | CbFunc f => call_fn (Some f) [] ;;; ret tt
  | CbLocalized defaultLocalized id data callback =>
      TCDataCallback defaultLocalized id data callback
  end.

(** One round of [for _, callbackData := range callbackDataMap]: the
    entry under [k], if the map (as it is now) has one.  The map only
    ever receives non-nil entries, so [callbackData != nil] holds. *)
Definition visit (k : N) : M unit :=
  m <- gets callbackDataMap ;;
  match m !! k with
  | None => ret tt
  | Some callbackData =>
      match Callback callbackData with
      | None => ret tt
      | Some c => emit (EvCall k c) ;;; invoke c
      end
  end.

(** The loop over [callbackDataMap] (i18n.go:280, i18n_test.go:535).
    Go leaves the order of a map iteration unspecified; [order] is the
    order the runtime picks for this loop.  An entry that is gone when
    its turn comes is not produced; a key that [order] lists without
    the map having it stands for an entry created during the loop that
    the runtime chose to skip. *)
Fixpoint range_callbackDataMap (order : list N) : M unit :=
  match order with
  | [] => ret tt
  | k :: rest => visit k ;;; range_callbackDataMap rest
  end.


End shared.

Arguments call_sink : simpl never.
Arguments logInfo : simpl never.
Arguments logError : simpl never.
Arguments call_fn : simpl never.
Arguments Localize : simpl never.
Arguments AddSwitchCallback : simpl never.
Arguments TCDataCallback : simpl never.
Arguments on_bundle : simpl never.
Arguments invoke : simpl never.
Arguments visit : simpl never.
Arguments SetDefaultLang : simpl never.
Arguments new_bundle : simpl never.
Arguments NewLocalizer : simpl never.
Arguments getNewCallbackDataId : simpl never.
Arguments index0 : simpl never.

(** * The third revision: [src/i18n/i18n_test.go] *)

Module Options.
Section defs.
Context `{Host}.
Import GoStrings.

(** [Lang.FullName] (i18n_test.go:166). *)
Definition FullName (l : Lang) : string :=
  if bool_decide (Lang_Name l = "") then Tag_String (Lang_Tag l)
  else langName l.

(** [LoadLanguage] (i18n_test.go:403). *)
Definition LoadLanguage (lang : option Lang) : M (option error) :=
  match lang with
  | None => panic NilDereference
  | Some l =>
      let langFile := Lang_FileName l in
      fs <- gets files ;;
      err <- on_bundle (match Lang_Data l with
                        | Some bytes => ParseMessageFileBytes bytes langFile
                        | None => LoadMessageFile fs langFile
                        end) ;;
      match err with
      | Some e =>
          let err := "[i18n] Load language file " +:+ dquote +:+ FullName l
                     +:+ dquote +:+ " error: " +:+ e in
          logError err [] ;;;
          ret (Some err)
      | None => ret None
      end
  end.

(** [UseLanguage] (i18n_test.go:418). *)
Definition UseLanguage (lang : option Lang) : M (option error) :=
  modify (set_Language lang) ;;;
  err <- LoadLanguage lang ;;
  match err, lang with
  | Some e, _ => ret (Some e)
  | None, None => panic NilDereference
  | None, Some l =>
      loc <- NewLocalizer l ;;
      modify (set_Localizer (Some loc)) ;;;
      logInfo "[i18n] Used language %s" [VString (FullName l)] ;;;
      ret None
  end.

(** [SwitchLanguage] (i18n_test.go:527); [order] is the order of the
    map iteration (see [range_callbackDataMap]). *)
Definition SwitchLanguage (order : list N) (lang : option Lang) : M (option error) :=
  err <- LoadLanguage lang ;;
  match err, lang with
  | Some e, _ => ret (Some e)
  | None, None => panic NilDereference
  | None, Some l =>
      loc <- NewLocalizer l ;;
      modify (set_Localizer (Some loc)) ;;;
      modify (set_Language lang) ;;;
      logInfo "[i18n] switched to new language: %s" [VString (FullName l)] ;;;
      range_callbackDataMap order ;;;
      ret None
  end.

(** [ReadLangFromFileName] (i18n_test.go:572). *)
Definition ReadLangFromFileName (fileName : string) : M (option Lang) :=
  fs <- gets files ;;
  match fs !! fileName with
  | None =>
      logError "[i18n] ReadLangFromFileName error: %v" [VError "open"] ;;;
      panic (PanicValue "open")
  | Some content =>
      let '(topLine, eof) := ReadString_newline content in
      if eof then
        logError "[i18n] ReadLangFromFileName error: %v" [VError "EOF"] ;;;
        ret None
      else
        let labels := ReadLangLabel topLine in
        if (length labels <? 2)%nat then
          logError "[i18n] ReadLangFromFileName file is invalid: %s"
                   [VString fileName] ;;;
          ret None
        else
          tag <- index0 (parseTags (nth 0 labels "")) ;;
          ret (Some {| Lang_Name := nth 1 labels ""; Lang_Tag := tag;
                       Lang_FileName := fileName; Lang_Data := None |})
  end.

(** [ReadLangFromBytes] (i18n_test.go:601); a nil [data] faults. *)
Definition ReadLangFromBytes (data : option string) (fileName : string)
  : M (option Lang) :=
  match data with
  | None => panic NilDereference
  | Some bytes =>
      let labels := ReadLangLabel (first_line bytes) in
      if (length labels <? 2)%nat then
        logError "[i18n] PackageList ReadLangLabel file from %d bytes is invalid"
                 [VInt (Z.of_nat (String.length bytes))] ;;;
        ret None
      else
        tag <- index0 (parseTags (nth 0 labels "")) ;;
        ret (Some {| Lang_Name := nth 1 labels ""; Lang_Tag := tag;
                     Lang_FileName := fileName; Lang_Data := None |})
  end.

(** The type assertion [( *option.Data).(string)]. *)
Definition option_string (option : Option) : M string :=
  match Option_Data option with
  | None => panic NilDereference
  | Some (VString s) => ret s
  | Some _ => panic TypeAssertion
  end.

(** The first loop of [PackageListByPatternFunc]: the pattern the
    options carry. *)
Fixpoint pattern_of_options (options : list Option) (langFilesPattern : string)
  : M string :=
  match options with
  | [] => ret langFilesPattern
  | option :: rest =>
      if (Option_OptionType option =? PackagePattern)%Z then
        p <- option_string option ;; pattern_of_options rest p
      else pattern_of_options rest langFilesPattern
  end.

(** The second loop of [PackageListByPatternFunc] (i18n_test.go:390). *)
Fixpoint range_packages (packages : list string) (languages : list (option Lang))
  : M (list (option Lang)) :=
  match packages with
  | [] => ret languages
  | langFile :: rest =>
      lang <- ReadLangFromFileName langFile ;;
      match lang with
      | None => range_packages rest languages
      | Some l =>
          logInfo "[i18n] Found language: %s" [VString (langName l)] ;;;
          range_packages rest (languages ++ [Some l])
      end
  end.

(** [PackageListByPatternFunc] (i18n_test.go:367). *)
Definition PackageListByPatternFunc (options : list Option)
  : M (list (option Lang) * option error) :=
  langFilesPattern <- pattern_of_options options "" ;;
  if bool_decide (langFilesPattern = "") then
    let err := "[i18n] PackageList cannot find pattern" in
    logError err [] ;;; ret ([], Some err)
  else
    fs <- gets files ;;
    match Glob fs langFilesPattern with
    | (_, Some e) =>
        let err := "[i18n] PackageList Glob error: " +:+ e in
        logError err [] ;;; ret ([], Some err)
    | (packages, None) =>
        languages <- range_packages packages [] ;;
        logInfo "[i18n] Found %d language(s)"
                [VInt (Z.of_nat (length languages))] ;;;
        ret (languages, None)
    end.

(** The local variables of [InitI18nWithOptions] that the option loop
    assigns.  [pListFunc] is nil ([None]) or the closure over the
    option's [Callback]. *)
Record Locals := mkLocals {
  pListFunc : option (option Fn);
  format : string;
  langFilesPattern : string;
  existPackagePath : bool;
}.

(** One round of the option loop (i18n_test.go:271-325). *)
Definition apply_option (loc : Locals) (option : Option) : M Locals :=
  let t := Option_OptionType option in
  if (t =? LogInfoFunc)%Z then
    modify (set_logInfoFunc (Some (SinkOption (Option_Callback option)))) ;;;
    ret loc
  else if (t =? LogErrorFunc)%Z then
    modify (set_logErrorFunc (Some (SinkOption (Option_Callback option)))) ;;;
    ret loc
  else if (t =? UnmarshalFunc)%Z then
    modify (set_unmarshalFunc (Some (UnmarshalOption (Option_Callback option)))) ;;;
    ret loc
  else if (t =? PackageSuffix)%Z then
    format' <- option_string option ;;
    if existPackagePath loc then
      dir <- option_string option ;;
      ret (mkLocals (pListFunc loc) format'
                    (Filepath.Join [dir; "*." +:+ format']) true)
    else
      ret (mkLocals (pListFunc loc) format' (langFilesPattern loc) false)
  else if (t =? PackagePath)%Z then
    dir <- option_string option ;;
    ret (mkLocals (pListFunc loc) (format loc)
                  (Filepath.Join [dir; "*." +:+ format loc]) true)
  else if (t =? PackagePattern)%Z then
    p <- option_string option ;;
    ret (mkLocals (pListFunc loc) (format loc) p (existPackagePath loc))
  else if (t =? PackageListFunc)%Z then
    ret (mkLocals (Some (Option_Callback option)) (format loc)
                  (langFilesPattern loc) (existPackagePath loc))
  else ret loc.

Fixpoint apply_options (loc : Locals) (options : list Option) : M Locals :=
  match options with
  | [] => ret loc
  | option :: rest => loc' <- apply_option loc option ;; apply_options loc' rest
  end.

(** The closure [pListFunc] (i18n_test.go:310): the callback's result is
    asserted to be a two-element slice of a language list and an error. *)
Definition call_pListFunc (callback : option Fn) (options : list Option)
  : M (list (option Lang) * option error) :=
  result <- call_fn callback [VSlice [VSlice (Value_of_Option <$> options)]] ;;
  match result with
  | VSlice vs =>
      r0 <- index0 vs ;;
      l <- match r0 with
           | VNil => ret []
           | VLangs ls => ret ls
           | _ => panic TypeAssertion
           end ;;
      r1 <- index0 (drop 1 vs) ;;
      e <- match r1 with
           | VNil => ret None
           | VError e => ret (Some e)
           | _ => panic TypeAssertion
           end ;;
      ret (l, e)
  | _ => panic TypeAssertion
  end.

(** A call of the package variable [packageListFunc]. *)
Definition call_packageListFunc : M (list (option Lang) * option error) :=
  f <- gets packageListFunc ;;
  match f with
  | None => panic NilFuncCall
  | Some (ListByPattern p) =>
      PackageListByPatternFunc [NewOptionWithData PackagePattern (VString p)]
  | Some (ListByCallback callback p) =>
      call_pListFunc callback [NewOptionWithData PackagePattern (VString p)]
  end.

(** [English] (i18n_test.go:153). *)
Definition English : Lang :=
  {| Lang_Name := "en"; Lang_Tag := language_English;
     Lang_FileName := ""; Lang_Data := None |}.

(** The last loop of [InitI18nWithOptions] (i18n_test.go:353): use the
    first language with the requested tag. *)
Fixpoint use_first_match (lang : Lang) (languages : list (option Lang))
  : M (option error) :=
  match languages with
  | [] => ret None
  | None :: _ => panic NilDereference
  | Some l :: rest =>
      if bool_decide (Lang_Tag lang = Lang_Tag l) then UseLanguage (Some l)
      else use_first_match lang rest
  end.

(** [InitI18nWithOptions] from the result of [packageListFunc()] on
    (i18n_test.go:345-364). *)
Definition after_discovery (lang : Lang)
    (found : list (option Lang) * option error) : M (option error) :=
  let '(packageList, err) := found in
  match err with
  | Some e => panic (PanicValue ("[i18n] PackageList error: " +:+ e))
  | None =>
      modify (set_Languages packageList) ;;;
      if bool_decide (packageList = []) then
        logError "[i18n] Cannot load any language" [] ;;;
        panic (PanicValue "[i18n] Cannot load any language")
      else
        err <- use_first_match lang packageList ;;
        match err with
        | Some e => ret (Some e)
        | None => logInfo "[i18n] InitI18n finished" [] ;;; ret None
        end
  end.

(** [InitI18nWithOptions] up to the call of [packageListFunc()]
    (i18n_test.go:263-343): the language asked for, or [English]. *)
Definition before_discovery (lang : option Lang) (options : list Option) : M Lang :=
  modify (set_logInfoFunc (Some log_Printf)) ;;;
  modify (set_logErrorFunc (Some log_Fatalf)) ;;;
  modify (set_unmarshalFunc (Some toml_Unmarshal)) ;;;
  let format0 := "lang" in
  loc <- apply_options
           (mkLocals None format0 (Filepath.Join ["./lang/*." +:+ format0]) false)
           options ;;
  modify (set_packageListFunc (Some
    match pListFunc loc with
    | None => ListByPattern (langFilesPattern loc)
    | Some callback => ListByCallback callback (langFilesPattern loc)
    end)) ;;;
  lang <- match lang with
          | Some l => ret l
          | None =>
              logInfo "[i18n] Not special language, default using %s (%s)"
                [VString (Lang_Name English);
                 VString (Tag_String (Lang_Tag English))] ;;;
              ret English
          end ;;
  SetDefaultLang lang ;;;
  logInfo "[i18n] InitI18n started" [] ;;;
  new_bundle (Lang_Tag lang) ;;;
  u <- gets unmarshalFunc ;;
  on_bundle (fun b => (RegisterUnmarshalFunc (format loc)
                         (default toml_Unmarshal u) b, None)) ;;;
  logInfo "[i18n] Registered unmarshal func for %s" [VString (format loc)] ;;;
  ret lang.

(** [InitI18nWithOptions] (i18n_test.go:262). *)
Definition InitI18nWithOptions (lang : option Lang) (options : list Option)
  : M (option error) :=
  lang <- before_discovery lang options ;;
  found <- call_packageListFunc ;;
  after_discovery lang found.

End defs.
End Options.

Arguments Options.LoadLanguage : simpl never.
Arguments Options.UseLanguage : simpl never.
Arguments Options.SwitchLanguage : simpl never.
Arguments Options.ReadLangFromFileName : simpl never.
Arguments Options.ReadLangFromBytes : simpl never.
Arguments Options.option_string : simpl never.
Arguments Options.PackageListByPatternFunc : simpl never.
Arguments Options.apply_option : simpl never.
Arguments Options.call_pListFunc : simpl never.
Arguments Options.call_packageListFunc : simpl never.
Arguments Options.after_discovery : simpl never.
Arguments Options.before_discovery : simpl never.
Arguments Options.InitI18nWithOptions : simpl never.

(** * The second revision: [src/i18n/i18n.go] *)

Module I18n.
Section defs.
Context `{Host}.
Import GoStrings.

(** [SimplifiedChinese] and [English] (i18n.go:76). *)
Definition SimplifiedChinese : Lang :=
  {| Lang_Name := "zh-Hans"; Lang_Tag := language_SimplifiedChinese;
     Lang_FileName := ""; Lang_Data := None |}.
Definition English : Lang :=
  {| Lang_Name := "en"; Lang_Tag := language_English;
     Lang_FileName := ""; Lang_Data := None |}.

(** [readLangLabel] (i18n.go:309); the error of [ReadString] is dropped. *)
Definition readLangLabel (fileName : string) : M (list string) :=
  fs <- gets files ;;
  match fs !! fileName with
  | None =>
      logError "[i18n] readLangLabel error: %v" [VError "open"] ;;;
      panic (PanicValue "open")
  | Some content => ret (ReadLangLabel (fst (ReadString_newline content)))
  end.

Definition load_error_format (who : string) : string :=
  "[i18n] " +:+ who +:+ " load language file " +:+ dquote +:+ "%s" +:+ dquote
  +:+ " error: %v".

(** The test [Language == nil && DefaultLang != nil &&
    DefaultLang.Tag == lang.Tag] (i18n.go:152). *)
Definition is_default (current def : option Lang) (tag : language_Tag) : bool :=
  match current, def with
  | None, Some d => bool_decide (Lang_Tag d = tag)
  | _, _ => false
  end.

(** The loop of [initI18n] (i18n.go:139-166).  The result is [true]
    when the function returned from inside the loop. *)
Fixpoint range_languages (languages : list string) : M bool :=
  match languages with
  | [] => ret false
  | langFile :: rest =>
      labels <- readLangLabel langFile ;;
      if (length labels <? 2)%nat then
        logError "[i18n] InitI18n readLangLabel file is invalid: %s"
                 [VString langFile] ;;;
        range_languages rest
      else
        tag <- index0 (parseTags (nth 0 labels "")) ;;
        let lang := {| Lang_Name := nth 1 labels ""; Lang_Tag := tag;
                       Lang_FileName := langFile; Lang_Data := None |} in
        logInfo "[i18n] Found language: %s" [VString (langName lang)] ;;;
        current <- gets Language ;;
        def <- gets DefaultLang ;;
        if is_default current def tag then
          modify (set_Language (Some lang)) ;;;
          fs <- gets files ;;
          err <- on_bundle (LoadMessageFile fs langFile) ;;
          match err with
          | Some e =>
              logError (load_error_format "initI18n")
                       [VString (langName lang); VError e] ;;;
              ret true
          | None =>
              loc <- NewLocalizer lang ;;
              modify (set_Localizer (Some loc)) ;;;
              ls <- gets Languages ;;
              modify (set_Languages (Some lang :: ls)) ;;;
              logInfo "[i18n] Loaded default language %s"
                      [VString (langName lang)] ;;;
              range_languages rest
          end
        else
          ls <- gets Languages ;;
          modify (set_Languages (ls ++ [Some lang])) ;;;
          range_languages rest
  end.

(** [initI18n] (i18n.go:131). *)
Definition initI18n (lang : Lang) (format : string) (unmarshal : Unmarshaler)
    (langFilesPattern : string) : M unit :=
  logInfo "[i18n] InitI18n started" [] ;;;
  new_bundle (Lang_Tag lang) ;;;
  on_bundle (fun b => (RegisterUnmarshalFunc format unmarshal b, None)) ;;;
  fs <- gets files ;;
  languages <- match Glob fs langFilesPattern with
               | (_, Some e) =>
                   logError "[i18n] InitI18n Glob error: %v" [VError e] ;;;
                   ret []
               | (languages, None) => ret languages
               end ;;
  returned <- range_languages languages ;;
  if returned : bool then ret tt
  else
    ls <- gets Languages ;;
    logInfo "[i18n] Loaded %d language(s)" [VInt (Z.of_nat (length ls))] ;;;
    current <- gets Language ;;
    match current with
    | None =>
        logError "[i18n] Cannot load any language" [] ;;;
        panic (PanicValue "[i18n] Cannot load any language")
    | Some _ => logInfo "[i18n] InitI18n finished" []
    end.

(** [InitI18nWithConfig] (i18n.go:102).  With a nil [lang] the
    arguments of the log call read [DefaultLang.Name] and
    [DefaultLang.Tag] before [SetDefaultLang] has run. *)
Definition InitI18nWithConfig (lang : option Lang)
    (logInfoFunc' logErrorFunc' : option Fn) (format : string)
    (unmarshalFunc' : option Fn) (langFilesPattern : string) : M unit :=
  modify (set_logInfoFunc (Some match logInfoFunc' with
                                | None => log_Printf
                                | Some f => SinkFn f
                                end)) ;;;
  modify (set_logErrorFunc (Some match logErrorFunc' with
                                 | None => log_Fatalf
                                 | Some f => SinkFn f
                                 end)) ;;;
  let format := if bool_decide (format = "") then "lang" else format in
  let unmarshal := match unmarshalFunc' with
                   | None => toml_Unmarshal
                   | Some f => UnmarshalFn f
                   end in
  let langFilesPattern :=
    if bool_decide (langFilesPattern = "") then "./lang/*.lang"
    else langFilesPattern in
  lang <- match lang with
          | Some l => ret l
          | None =>
              def <- gets DefaultLang ;;
              match def with
              | None => panic NilDereference
              | Some d =>
                  logInfo "[i18n] Not special language, default using %s (%s)"
                    [VString (Lang_Name d); VString (Tag_String (Lang_Tag d))] ;;;
                  ret SimplifiedChinese
              end
          end ;;
  SetDefaultLang lang ;;;
  initI18n lang format unmarshal langFilesPattern.

(** [InitI18n] (i18n.go:97). *)
Definition InitI18n (lang : option Lang) (logInfoFunc' logErrorFunc' : option Fn)
  : M unit :=
  InitI18nWithConfig lang logInfoFunc' logErrorFunc' "" None "".

(** [SwitchLanguage] (i18n.go:270); [order] is the order of the map
    iteration (see [range_callbackDataMap]). *)
Definition SwitchLanguage (order : list N) (lang : option Lang) : M unit :=
  match lang with
  | None => panic NilDereference
  | Some l =>
      fs <- gets files ;;
      err <- on_bundle (LoadMessageFile fs (Lang_FileName l)) ;;
      match err with
      | Some e =>
          logError (load_error_format "SwitchLanguage")
                   [VString (langName l); VError e]
      | None =>
          loc <- NewLocalizer l ;;
          modify (set_Localizer (Some loc)) ;;;
          modify (set_Language lang) ;;;
          logInfo "[i18n] switched to new language: %s" [VString (langName l)] ;;;
          range_callbackDataMap order
      end
  end.

End defs.
End I18n.

Arguments I18n.readLangLabel : simpl never.
Arguments I18n.initI18n : simpl never.
Arguments I18n.InitI18nWithConfig : simpl never.
Arguments I18n.InitI18n : simpl never.
Arguments I18n.SwitchLanguage : simpl never.

(** * The first revision: [src/unnamed/part_000]

    Only the callback registry differs from the second revision: a slice
    of functions that [AddSwitchCallback] appends to. *)

Module Part000.
Section defs.
Context `{Host}.

(** [AddSwitchCallback] (part_000:190). *)
Definition AddSwitchCallback (callback : option Fn) : M unit :=
  cbs <- gets SwitchCallbacks ;;
  modify (set_SwitchCallbacks (cbs ++ [callback])).

(** The loop [for _, callback := range SwitchCallbacks] (part_000:183)
    over the slice as it is when the loop starts; [i] is the index of
    the head of [callbacks]. *)
Fixpoint range_SwitchCallbacks (i : N) (callbacks : list (option Fn)) : M unit :=
  match callbacks with
  | [] => ret tt
  | callback :: rest =>
      match callback with
      | None => ret tt
      | Some f => emit (EvCall i (CbFunc f)) ;;; call_fn (Some f) [] ;;; ret tt
      end ;;;
      range_SwitchCallbacks (i + 1) rest
  end.

(** [SwitchLanguage] (part_000:173). *)
Definition SwitchLanguage (lang : option Lang) : M unit :=
  match lang with
  | None => panic NilDereference
  | Some l =>
      fs <- gets files ;;
      err <- on_bundle (LoadMessageFile fs (Lang_FileName l)) ;;
      match err with
      | Some e =>
          logError (I18n.load_error_format "SwitchLanguage")
                   [VString (langName l); VError e]
      | None =>
          loc <- NewLocalizer l ;;
          modify (set_Localizer (Some loc)) ;;;
          modify (set_Language lang) ;;;
          logInfo "[i18n] switched to new language: %s" [VString (langName l)] ;;;
          callbacks <- gets SwitchCallbacks ;;
          range_SwitchCallbacks 0 callbacks
      end
  end.

End defs.
End Part000.

Arguments Part000.AddSwitchCallback : simpl never.
Arguments Part000.SwitchLanguage : simpl never.

(** * A small concrete host

    Tags are their own strings, a catalog is a list of [id=text] lines,
    and the functions of the caller leave the package's variables alone.
    It serves to run the definitions above on concrete inputs. *)

Module Demo.
Import GoStrings.

(** A stand-in for [language.ParseAcceptLanguage]: the comma-separated
    entries; no tag at all for the empty string (as the real parser), an
    error for a string with a blank in it. *)
Definition parse_accept_language (s : string) : list string * option error :=
  if bool_decide (s = "") then ([], None)
  else if contains " " s then ([], Some "language: tag is not well-formed")
  else (split_on ","%char s, None).

#[export] Instance locale : Locale := {|
  language_Tag := string;
  Tag_String := id;
  language_English := "en";
  language_SimplifiedChinese := "zh-Hans";
  language_TraditionalChinese := "zh-Hant";
  ParseAcceptLanguage := parse_accept_language;
|}.

(** [id=text] at the first [=] of a line. *)
Fixpoint split_eq (line : string) : option (string * string) :=
  match line with
  | EmptyString => None
  | String c rest =>
      if Ascii.eqb c "="%char then Some (EmptyString, rest)
      else '(k, v) ← split_eq rest; Some (String c k, v)
  end.

(** The messages of a package body; a line that is neither empty, nor a
    comment, nor [id=text] makes the decoding fail. *)
Fixpoint decode (lines : list string) : option (list (string * string)) :=
  match lines with
  | [] => Some []
  | line :: rest =>
      if bool_decide (line = "") || bool_decide (is_Some (strip_prefix "#" line))
      then decode rest
      else kv ← split_eq line; (cons kv) <$> decode rest
  end.

Definition parse_message_file_bytes (bytes path : string)
    (b : list (string * string)) : list (string * string) * option error :=
  match decode (split_on newline bytes) with
  | Some messages => (messages ++ b, None)
  | None => (b, Some ("cannot decode " +:+ path))
  end.

Definition load_message_file (fs : gmap string string) (path : string)
    (b : list (string * string)) : list (string * string) * option error :=
  match fs !! path with
  | Some bytes => parse_message_file_bytes bytes path b
  | None => (b, Some ("open " +:+ path +:+ ": no such file or directory"))
  end.

Fixpoint lookup_message (id : string) (b : list (string * string)) : option string :=
  match b with
  | [] => None
  | (k, v) :: rest => if bool_decide (k = id) then Some v else lookup_message id rest
  end.

#[export] Instance catalog : Catalog := {|
  Bundle := list (string * string);
  NewBundle := fun _ => [];
  RegisterUnmarshalFunc := fun _ _ b => b;
  LoadMessageFile := load_message_file;
  ParseMessageFileBytes := parse_message_file_bytes;
  Localizer_Localize := fun b _ config =>
    match lookup_message (DefaultMessage_ID config) b with
    | Some text => (text, None)
    | None => ("", Some ("message " +:+ DefaultMessage_ID config +:+ " not found"))
    end;
|}.

Fixpoint has_suffix (suffix s : string) : bool :=
  bool_decide (s = suffix) ||
  match s with
  | EmptyString => false
  | String _ s' => has_suffix suffix s'
  end.

(** A stand-in for [filepath.Glob] for patterns [dir/*.suffix]: the
    files whose name starts with what stands before the star of the
    cleaned pattern and ends with what stands after it. *)
Definition glob (fs : gmap string string) (pattern : string)
  : list string * option error :=
  match split_on "*"%char (Filepath.Clean pattern) with
  | [before; after] =>
      (filter (fun name => is_Some (strip_prefix before name)
                           /\ has_suffix after name = true)
              (map_to_list fs).*1, None)
  | _ => ([], Some "syntax error in pattern")
  end.

(** Sinks 0 to 9 return, every other sink ends the process; function
    100 answers like a discoverer that found nothing, every other
    function returns nil; none changes the state. *)
#[export] Instance host : Host := {|
  Glob := glob;
  sink_behaviour := fun f _ _ => if (f <? 10)%N then SinkReturns else SinkExits 2;
  call_func := fun f _ s =>
    (Ret (if (f =? 100)%N then VSlice [VNil; VNil] else VNil), s);
|}.

Definition header (tag name : string) : string :=
  "# [i18n] <" +:+ tag +:+ "> <" +:+ name +:+ ">" +:+ String newline "".

Definition en_lang : string :=
  header "en" "English" +:+ "greeting=Hello" +:+ String newline "".
Definition zh_lang : string :=
  header "zh-Hans" "Chinese" +:+ "greeting=Ni hao" +:+ String newline "".

(** Two good packages. *)
Definition two_packages : gmap string string :=
  {[ "lang/en.lang" := en_lang; "lang/zh.lang" := zh_lang ]}.

(** The same with a file whose first line is no label. *)
Definition with_unlabelled : gmap string string :=
  <["lang/a.lang" := "greeting=Hi" +:+ String newline ""]> two_packages.

(** The same with a file whose label carries no tag. *)
Definition with_untagged : gmap string string :=
  <["lang/a.lang" := header "" "Broken" +:+ "greeting=Hi"]> two_packages.

Definition en : Lang := mkLang _ "English" "en" "lang/en.lang" None.
Definition zh : Lang := mkLang _ "Chinese" "zh-Hans" "lang/zh.lang" None.
Definition missing : Lang := mkLang _ "Klingon" "tlh" "lang/tlh.lang" None.

(** The error of loading [missing]. *)
Definition no_such_file : error := "open lang/tlh.lang: no such file or directory".

(** The option [PackageListByPatternFunc] is called with. *)
Definition lang_pattern : Option :=
  NewOptionWithData PackagePattern (VString "lang/*.lang").

(** The option that installs sink 1, which returns, as the error sink. *)
Definition quiet_errors : Option := NewOptionWithCallback LogErrorFunc (Some 1%N).

(** The state after [InitI18nWithOptions(&en, quiet_errors)] on the two
    good packages. *)
Definition booted : State :=
  final (Options.InitI18nWithOptions (Some en) [quiet_errors]
           (initial_state two_packages)).

(** The state after [InitI18nWithOptions(nil)] on the two good
    packages: the sinks are the defaults. *)
Definition booted_default : State :=
  final (Options.InitI18nWithOptions None [] (initial_state two_packages)).

(** The state in which [InitI18nWithOptions] calls the discovery, for
    the given options and files. *)
Definition discovering (options : list Option) (fs : gmap string string) : State :=
  final (Options.before_discovery None options (initial_state fs)).

(** Two entries as a caller builds them, with the zero [CallbackId]. *)
Definition first : CallbackData :=
  {| Callback := Some (CbFunc 7%N); CallbackId := 0; notOrigin := false |}.



End Demo.

(** * The conditions the properties speak about *)

Section conditions.
Context `{Host}.
Import GoStrings.

(** The adapter fails on this request: the localizer is set, its
    bundle exists, and [Localizer.Localize] answers with an error. *)
Definition adapter_error (s : State) (id : string)
    (data : option (gmap string Value)) (pluralCount : Z) : Prop :=
  exists l b partial err,
    Localizer s = Some l
    /\ (localizer_bundle l ≫= fun p => bundles s !! p) = Some b
    /\ Localizer_Localize b (localizer_langs l)
         (mkLocalizeConfig _ id data pluralCount) = (partial, Some err).

(** The template variables and the plural count that [TCData] and
    [TData] hand to [Localize] for a [*Data], nil or not. *)
Definition Data_vars (data : option Data) : option (gmap string Value) :=
  match data with Some d => Data_Data d | None => None end.
Definition Data_count (data : option Data) : Z :=
  match data with Some d => Data_PluralCount d | None => 0%Z end.

(** The load that [Options.LoadLanguage] performs for [l] in state [s]
    ends with the error [e]. *)
Definition load_fails (s : State) (l : Lang) (e : error) : Prop :=
  exists p b b',
    bundle s = Some p /\ bundles s !! p = Some b
    /\ match Lang_Data l with
       | Some bytes => ParseMessageFileBytes bytes (Lang_FileName l) b
       | None => LoadMessageFile (files s) (Lang_FileName l) b
       end = (b', Some e).

(** The load that [I18n.SwitchLanguage] performs for [l] in state [s]
    ends with the error [e]. *)
Definition file_load_fails (s : State) (l : Lang) (e : error) : Prop :=
  exists p b b',
    bundle s = Some p /\ bundles s !! p = Some b
    /\ LoadMessageFile (files s) (Lang_FileName l) b = (b', Some e).

(** The error [Options.LoadLanguage] makes of the adapter's error. *)
Definition load_error (l : Lang) (e : error) : error :=
  "[i18n] Load language file " +:+ GoStrings.dquote +:+ Options.FullName l
  +:+ GoStrings.dquote +:+ " error: " +:+ e.





(** The entries of the registry that have a function. *)
Definition registered (m : gmap N CallbackData) : list (N * CallbackFn) :=
  omap (fun kd => c ← Callback kd.2; Some (kd.1, c)) (map_to_list m).

(** No function of the caller changes the registry. *)
Definition callbacks_keep_registry : Prop :=
  forall f args (s : State),
    callbackDataMap (call_func f args s).2 = callbackDataMap s.


(** The value [getNewCallbackDataId] moves the counter to. *)
Definition next_id (n : N) : N := ((n + 1) mod 2 ^ 32)%N.

(** The file exists and the line [ReadString] reads from it does not
    match the label pattern. *)
Definition unlabelled (fs : gmap string string) (fileName : string) : Prop :=
  exists content,
    fs !! fileName = Some content
    /\ Regexp.MatchString i18nLabelRegexp (ReadString_newline content).1 = false.

(** The file exists and starts with a line that matches the label
    pattern, but the tag string of the label yields no tag. *)
Definition untagged (fs : gmap string string) (fileName : string) : Prop :=
  exists content topLine tagRaw name,
    fs !! fileName = Some content
    /\ ReadString_newline content = (topLine, false)
    /\ ReadLangLabel topLine = [tagRaw; name]
    /\ parseTags tagRaw = [].

(** The callback invocations the computation emits have their keys from
    [keys], in the order of [keys], no key more often than [keys] has it. *)
Definition invokes_within {A} (keys : list N) (m : M A) : Prop :=
  forall s : State, (calls (emitted (m s))).*1 `sublist_of` keys.


End conditions.

(** * Formatting, and more conditions *)

(** [fmt.Sprintf(format, operand)] with one operand, a string: the one
    use [GetI18nFormatted] makes of it. *)
Class Fmt := {
  Sprintf : string -> string -> string;
}.

(** [I18nConfig] (structs.go:43, i18n.go:45). *)
Record I18nConfig `{Locale} := mkI18nConfig {
  I18nConfig_Id : string;
  I18nConfig_Format : string;
  I18nConfig_Data : option Data;
}.

Section formatting.
Context `{Host} `{Fmt}.
Import GoStrings.

(** [GetI18nFormatted] (i18n.go:181, i18n_test.go:438); a nil
    [i18nConfig] faults on the first field access. *)
Definition GetI18nFormatted (i18nConfig : option I18nConfig) : M string :=
  match i18nConfig with
  | None => panic NilDereference
  | Some c =>
      formatted <- TData (I18nConfig_Id c) (I18nConfig_Data c) ;;
      if (0 <? String.length (I18nConfig_Format c))%nat then
        if contains "%s" (I18nConfig_Format c)
        then ret (Sprintf (I18nConfig_Format c) formatted)
        else ret (formatted +:+ I18nConfig_Format c)
      else ret formatted
  end.

(** [GTF] (i18n.go:176, i18n_test.go:433). *)
Definition GTF (i18nConfig : option I18nConfig) : M string :=
  GetI18nFormatted i18nConfig.

End formatting.

Section more_conditions.
Context `{Host}.
Import GoStrings.

(** From [s] to [s'] the language in use and its localizer are the
    same, and [Languages] has only been appended to. *)
Definition grows (s s' : State) : Prop :=
  Language s' = Language s /\ Localizer s' = Localizer s
  /\ Languages s `prefix_of` Languages s'.

(** [DefaultLang] is [L], and the language in use, if any, has the tag
    of [L]. *)
Definition default_in_use (L : Lang) (s : State) : Prop :=
  DefaultLang s = Some L
  /\ (Language s = None
      \/ exists l, Language s = Some l /\ Lang_Tag l = Lang_Tag L).

(** The character [c] occurs in [s]. *)
Fixpoint has_char (c : ascii) (s : string) : bool :=
  match s with
  | EmptyString => false
  | String a s' => Ascii.eqb a c || has_char c s'
  end.

(** Every key of the registry was handed out by the counter: it lies
    between 1 and the counter's value. *)
Definition keys_allocated (s : State) : Prop :=
  forall k, is_Some (callbackDataMap s !! k) ->
    (1 <= k <= currentCallbackDataId s)%N.

(** No function of the caller changes the counter of the registry. *)
Definition callbacks_keep_counter : Prop :=
  forall f args (s : State),
    currentCallbackDataId (call_func f args s).2 = currentCallbackDataId s.


(** The computation does not change what [f] reads off the package
    variables, however it ends. *)
Definition keeps {A B} (f : State -> B) (m : M A) : Prop :=
  forall s : State, f (final (m s)) = f s.

(** The language [InitI18nWithOptions] works with: the one asked for,
    or [English]. *)
Definition requested (lang : option Lang) : Lang := default Options.English lang.

(** A discovered language with a tag other than that of [lang]. *)
Definition other_tag (lang : Lang) (x : option Lang) : Prop :=
  exists l, x = Some l /\ Lang_Tag l <> Lang_Tag lang.

End more_conditions.

(** * More concrete inputs *)

Module Samples.
Import GoStrings Demo.

(** A stand-in for [fmt.Sprintf] with one string operand: the first
    [%s] of the format is replaced by the operand. *)
Fixpoint sprintf (format operand : string) : string :=
  match strip_prefix "%s" format with
  | Some rest => operand +:+ rest
  | None =>
      match format with
      | EmptyString => EmptyString
      | String c rest => String c (sprintf rest operand)
      end
  end.

#[export] Instance fmt : Fmt := {| Sprintf := sprintf |}.


(** One package whose only line is a label, with no newline after it. *)
Definition one_line : gmap string string :=
  {[ "lang/en.lang" := "# [i18n] <en> <English>" ]}.

(** The two good packages and one with a label and a body that the
    decoder rejects. *)
Definition with_undecodable : gmap string string :=
  <["lang/fr.lang" := header "fr" "French" +:+ "no message here"
                      +:+ String newline ""]> two_packages.

Definition fr : Lang := mkLang _ "French" "fr" "lang/fr.lang" None.


(** The descriptor [ReadLangFromBytes] makes of the bytes of the English
    package under the name [memory.lang]. *)
Definition en_from_bytes : Lang := mkLang _ "English" "en" "memory.lang" None.

(** The state in which the discovery runs after
    [InitI18nWithOptions(&en, quiet_errors)] on the given files. *)
Definition listing (fs : gmap string string) : State :=
  final (Options.before_discovery (Some en) [quiet_errors] (initial_state fs)).

(** Options that ask for packages with the suffix [toml] and name no
    path. *)
Definition suffix_only : list Option :=
  [quiet_errors; NewOptionWithData PackageSuffix (VString "toml")].

(** Options that end in an empty pattern. *)
Definition empty_pattern : list Option :=
  [quiet_errors; NewOptionWithData PackagePattern (VString "")].

(** A decoration without a verb, for the text and for a text the
    catalog does not have. *)
Definition shout : I18nConfig := mkI18nConfig _ "greeting" "!" None.
Definition shout_missing : I18nConfig := mkI18nConfig _ "missing.key" "!" None.



End Samples.

(** * The helpers of the Go library on small inputs *)

Section base_examples.
Import GoStrings.

Example label_en :
  ReadLangLabel ("# [i18n] <en> <English>" +:+ String newline "")
  = ["en"; "English"].
Proof. vm_compute. reflexivity. Qed.

Example label_greedy :
  ReadLangLabel "x # [i18n] <a> <b> <c> <d> tail" = ["a> <b> <c"; "d"].
Proof. vm_compute. reflexivity. Qed.

Example label_missing : ReadLangLabel "greeting = hello" = [].
Proof. vm_compute. reflexivity. Qed.

Example label_empty_tag : ReadLangLabel "# [i18n] <> <Broken>" = [""; "Broken"].
Proof. vm_compute. reflexivity. Qed.

Example join_default : Filepath.Join ["./lang/*.lang"] = "lang/*.lang".
Proof. vm_compute. reflexivity. Qed.

Example join_path : Filepath.Join ["/opt/lang/"; "*.toml"] = "/opt/lang/*.toml".
Proof. vm_compute. reflexivity. Qed.

Example clean_dots : Filepath.Clean "a/../../b/./c//d/.." = "../b/c".
Proof. vm_compute. reflexivity. Qed.

Example read_first_line :
  ReadString_newline ("ab" +:+ String newline "cd") = ("ab" +:+ String newline "", false)
  /\ ReadString_newline "ab" = ("ab", true).
Proof. vm_compute. split; reflexivity. Qed.
End base_examples.

(** * Properties, for every host *)

Ltac run_m :=
  unfold bind, ret, gets, get, modify, panic, exit, emit; cbn.

Section sinks.
Context `{Host}.

Lemma call_sink_returns severity var format args (s : State) :
  sink_returns (var s) ->
  call_sink severity var format args s
  = mkRun (Ret tt) s [EvLog severity format args].
Proof.
  intros (k & Hk & Hret). unfold call_sink. run_m.
  rewrite Hk. cbn. rewrite Hret. reflexivity.
Qed.

(** Whatever the sink does, a log call leaves the variables alone and
    emits no callback invocation. *)
Lemma call_sink_frame severity var format args (s : State) :
  final (call_sink severity var format args s) = s
  /\ calls (emitted (call_sink severity var format args s)) = [].
Proof.
  unfold call_sink. run_m.
  destruct (var s) as [k|]; cbn; [|done].
  destruct (sink_outcome k format args); done.
Qed.

End sinks.

Section resolution.
Context `{Host}.

Lemma Localize_adapter_error defaultLocalized id data pluralCount (s : State) :
  sink_returns (logErrorFunc s) ->
  adapter_error s id data pluralCount ->
  outcome (Localize defaultLocalized id data pluralCount s) = Ret defaultLocalized
  /\ final (Localize defaultLocalized id data pluralCount s) = s
  /\ error_logs (emitted (Localize defaultLocalized id data pluralCount s))
     = ["[i18n] i18n error: %v"].
Proof.
  intros Hsink (l & b & partial & err & Hl & Hb & Herr).
  unfold Localize. run_m. rewrite Hl, Hb, Herr.
  unfold logError. rewrite call_sink_returns by done. done.
Qed.

(** C2, as the code has it.  When [Localizer.Localize] fails and the
    error sink returns from the log call, [Localize] returns the default
    text and leaves the state as it was; so do [TC] and [TCData], and
    [T] and [TData] return the empty string, the default they pass. *)
Theorem Localize_returns_default_when_sink_returns (s : State) :
  sink_returns (logErrorFunc s) ->
  (forall defaultLocalized id data pluralCount,
      adapter_error s id data pluralCount ->
      outcome (Localize defaultLocalized id data pluralCount s) = Ret defaultLocalized
      /\ final (Localize defaultLocalized id data pluralCount s) = s)
  /\ (forall defaultLocalized id,
      adapter_error s id None 0 ->
      outcome (TC defaultLocalized id s) = Ret defaultLocalized)
  /\ (forall id,
      adapter_error s id None 0 -> outcome (T id s) = Ret "")
  /\ (forall defaultLocalized id data,
      adapter_error s id (Data_vars data) (Data_count data) ->
      outcome (TCData defaultLocalized id data s) = Ret defaultLocalized)
  /\ (forall id data,
      adapter_error s id (Data_vars data) (Data_count data) ->
      outcome (TData id data s) = Ret "").
Proof.
  intros Hsink. repeat split; intros.
  - by apply Localize_adapter_error.
  - by apply Localize_adapter_error.
  - unfold TC. by apply Localize_adapter_error.
  - unfold T, TC. by apply Localize_adapter_error.
  - unfold TCData. by apply (Localize_adapter_error _ _ (Data_vars data) (Data_count data)).
  - unfold TData, TCData.
    by apply (Localize_adapter_error _ _ (Data_vars data) (Data_count data)).
Qed.

(** C9.  While [Localizer] is nil, [Localize] and the four functions
    built on it panic with a nil dereference, whatever their
    arguments; nothing is logged and no variable changes. *)
Theorem Localize_before_initialization_panics (s : State) :
  Localizer s = None ->
  (forall defaultLocalized id data pluralCount,
      Localize defaultLocalized id data pluralCount s
      = mkRun (Panic NilDereference) s [])
  /\ (forall defaultLocalized id,
      TC defaultLocalized id s = mkRun (Panic NilDereference) s [])
  /\ (forall id, T id s = mkRun (Panic NilDereference) s [])
  /\ (forall defaultLocalized id data,
      TCData defaultLocalized id data s = mkRun (Panic NilDereference) s [])
  /\ (forall id data, TData id data s = mkRun (Panic NilDereference) s []).
Proof.
  intros Hnil.
  assert (HL : forall d id data n,
             Localize d id data n s = mkRun (Panic NilDereference) s []).
  { intros. unfold Localize. run_m. by rewrite Hnil. }
  repeat split; intros; unfold TData, TCData, T, TC; apply HL.
Qed.

End resolution.

Section switching.
Context `{Host}.

Lemma on_bundle_run method (s : State) p b b' err :
  bundle s = Some p -> bundles s !! p = Some b -> method b = (b', err) ->
  on_bundle method s
  = mkRun (Ret err) (set_bundles (<[p := b']> (bundles s)) s) [].
Proof.
  intros Hp Hb Hm. unfold on_bundle. run_m. rewrite Hp, Hb, Hm. reflexivity.
Qed.

Lemma LoadLanguage_failure (s : State) l e :
  load_fails s l e ->
  let r := Options.LoadLanguage (Some l) s in
  calls (emitted r) = []
  /\ Language (final r) = Language s
  /\ Localizer (final r) = Localizer s
  /\ outcome r <> Ret None
  /\ (forall e', outcome r = Ret (Some e') -> e' = load_error l e)
  /\ (sink_returns (logErrorFunc s) -> outcome r = Ret (Some (load_error l e))).
Proof.
  intros (p & b & b' & Hp & Hb & Hload). unfold Options.LoadLanguage. run_m.
  rewrite (on_bundle_run _ s p b b' (Some e));
    [| done | done | by destruct (Lang_Data l)].
  cbn. fold (load_error l e).
  set (s1 := set_bundles _ s).
  destruct (call_sink_frame SevError logErrorFunc (load_error l e) [] s1)
    as [Hfinal Hcalls].
  unfold logError.
  pose proof (call_sink_returns SevError logErrorFunc (load_error l e) [] s1)
    as Hret.
  destruct (call_sink SevError logErrorFunc (load_error l e) [] s1)
    as [o f ev]; cbn in *. subst f.
  destruct o as [[]| |]; cbn; rewrite ?app_nil_r;
    (repeat split; [done..| |]); try congruence;
    intros Hs; specialize (Hret Hs); congruence.
Qed.

(** C1, as the code has it.  When the load of the catalog fails,
    [SwitchLanguage] invokes no callback and leaves [Language] and
    [Localizer] as they were, in both revisions and whatever the error
    sink does.  It does not complete the switch: in the third revision
    the only value it can return is the load error, and it does return
    it when the error sink returns from the log call; in the second
    revision it then returns early, having logged the error. *)
Theorem SwitchLanguage_failed_load_keeps_state (order : list N) (l : Lang)
    (s : State) (e : error) :
  (load_fails s l e ->
     let r := Options.SwitchLanguage order (Some l) s in
     calls (emitted r) = []
     /\ Language (final r) = Language s
     /\ Localizer (final r) = Localizer s
     /\ (forall x, outcome r = Ret x -> x = Some (load_error l e))
     /\ (sink_returns (logErrorFunc s) ->
         outcome r = Ret (Some (load_error l e))))
  /\ (file_load_fails s l e ->
     let r := I18n.SwitchLanguage order (Some l) s in
     calls (emitted r) = []
     /\ Language (final r) = Language s
     /\ Localizer (final r) = Localizer s
     /\ (sink_returns (logErrorFunc s) ->
         outcome r = Ret tt
         /\ error_logs (emitted r) = [I18n.load_error_format "SwitchLanguage"])).
Proof.
  split.
  - intros Hfail.
    destruct (LoadLanguage_failure s l e Hfail)
      as (Hcalls & Hlang & Hloc & Hne & Hval & Hret).
    unfold Options.SwitchLanguage. run_m.
    destruct (Options.LoadLanguage (Some l) s) as [o f ev]; cbn in *.
    destruct o as [[e'|]| |]; cbn; rewrite ?app_nil_r; try done.
    rewrite (Hval e' eq_refl) in *.
    split; [done|]. split; [done|]. split; [done|]. split; [|done].
    by intros x [= <-].
  - intros (p & b & b' & Hp & Hb & Hload).
    unfold I18n.SwitchLanguage. run_m.
    erewrite on_bundle_run by eauto. cbn.
    set (s1 := set_bundles _ s). set (fmt := I18n.load_error_format _).
    set (args := [_; _]).
    destruct (call_sink_frame SevError logErrorFunc fmt args s1)
      as [Hfinal Hcalls].
    unfold logError.
    pose proof (call_sink_returns SevError logErrorFunc fmt args s1) as Hret.
    destruct (call_sink SevError logErrorFunc fmt args s1) as [o f ev];
      cbn in *. subst f.
    split; [done|]. split; [reflexivity|]. split; [reflexivity|].
    intros Hs. specialize (Hret Hs). injection Hret as -> ->. done.
Qed.

End switching.

Section notification.
Context `{Host}.

Lemma bind_Ret_inv {A B} (m : M A) (k : A -> M B) (s : State) (b : B) :
  outcome (bind m k s) = Ret b ->
  exists a, outcome (m s) = Ret a
    /\ outcome (k a (final (m s))) = Ret b
    /\ final (bind m k s) = final (k a (final (m s)))
    /\ emitted (bind m k s) = emitted (m s) ++ emitted (k a (final (m s))).
Proof.
  unfold bind. destruct (outcome (m s)) as [a| |]; cbn; [|done..].
  intros Hk. by exists a.
Qed.

Lemma bind_Ret {A B} (m : M A) (k : A -> M B) (s s' : State) a evs :
  m s = mkRun (Ret a) s' evs ->
  bind m k s
  = mkRun (outcome (k a s')) (final (k a s')) (evs ++ emitted (k a s')).
Proof. intros Hm. unfold bind. by rewrite Hm. Qed.

Lemma bind_Ret_nil {A B} (m : M A) (k : A -> M B) (s s' : State) a :
  m s = mkRun (Ret a) s' [] -> bind m k s = k a s'.
Proof. intros Hm. unfold bind. rewrite Hm. cbn. by destruct (k a s'). Qed.

Lemma bind_ret {A B} (a : A) (k : A -> M B) (s : State) :
  bind (ret a) k s = k a s.
Proof. by apply bind_Ret_nil. Qed.

Lemma bind_gets {A B} (f : State -> A) (k : A -> M B) (s : State) :
  bind (gets f) k s = k (f s) s.
Proof. by apply bind_Ret_nil. Qed.

Lemma bind_modify {B} (f : State -> State) (k : unit -> M B) (s : State) :
  bind (modify f) k s = k tt (f s).
Proof. by apply bind_Ret_nil. Qed.

Lemma bind_assoc {A B C} (m : M A) (k : A -> M B) (k' : B -> M C) (s : State) :
  bind (bind m k) k' s = bind m (fun a => bind (k a) k') s.
Proof.
  unfold bind. destruct (m s) as [[a| |] s1 ev1]; cbn; [|done..].
  destruct (k a s1) as [[b| |] s2 ev2]; cbn; [|done..].
  by rewrite app_assoc.
Qed.

Lemma NewLocalizer_run l (s : State) :
  NewLocalizer l s
  = mkRun (Ret (mkLocalizer (bundle s) [Tag_String (Lang_Tag l)])) s [].
Proof. done. Qed.

Lemma calls_app evs1 evs2 : calls (evs1 ++ evs2) = calls evs1 ++ calls evs2.
Proof. unfold calls. apply omap_app. Qed.

Lemma call_fn_emits f args (s : State) : emitted (call_fn f args s) = [].
Proof.
  unfold call_fn. destruct f as [f|]; [|done].
  by destruct (call_func f args s).
Qed.

Lemma call_fn_final f args (s : State) :
  final (call_fn (Some f) args s) = (call_func f args s).2.
Proof. unfold call_fn. by destruct (call_func f args s). Qed.

Lemma within_bind {A B} keys1 keys2 (m : M A) (k : A -> M B) :
  invokes_within keys1 m -> (forall a, invokes_within keys2 (k a)) ->
  invokes_within (keys1 ++ keys2) (bind m k).
Proof.
  intros Hm Hk s. unfold bind. specialize (Hm s).
  destruct (m s) as [[a| |] s' ev]; cbn in *.
  - rewrite calls_app, fmap_app. apply sublist_app; [done|apply Hk].
  - by apply sublist_inserts_r.
  - by apply sublist_inserts_r.
Qed.

Lemma within_ret {A} (a : A) : invokes_within [] (ret a).
Proof. intros s. apply sublist_nil_l. Qed.

Lemma within_gets {A} (f : State -> A) : invokes_within [] (gets f).
Proof. intros s. apply sublist_nil_l. Qed.

Lemma within_modify f : invokes_within [] (modify f).
Proof. intros s. apply sublist_nil_l. Qed.

Lemma within_panic {A} f : invokes_within [] (@panic _ _ A f).
Proof. intros s. apply sublist_nil_l. Qed.

Lemma within_log severity var format args :
  invokes_within [] (call_sink severity var format args).
Proof.
  intros s. by destruct (call_sink_frame severity var format args s) as [_ ->].
Qed.

Lemma within_call_fn f args : invokes_within [] (call_fn f args).
Proof. intros s. by rewrite call_fn_emits. Qed.



(** Steps through a computation that is built from the parts above. *)
Ltac silent :=
  repeat first
    [ apply within_ret | apply within_gets | apply within_modify
    | apply within_panic | apply within_log | apply within_call_fn
    | apply (within_bind [] []) | progress lazy beta
    | match goal with
      | |- forall _, _ => intro
      | |- invokes_within _ (match ?x with _ => _ end) => destruct x
      end ].


Lemma within_Localize defaultLocalized id data pluralCount :
  invokes_within [] (Localize defaultLocalized id data pluralCount).
Proof. unfold Localize, logError. silent. Qed.

Lemma within_AddSwitchCallback data : invokes_within [] (AddSwitchCallback data).
Proof. unfold AddSwitchCallback, getNewCallbackDataId, logError. silent. Qed.










End notification.

Section notification_order.
Context `{Host}.



End notification_order.

Section registry.
Context `{Host}.

(** An entry whose [CallbackId] is not a key of the registry is stored
    under the next value of the counter. *)
Lemma AddSwitchCallback_stores (s : State) d :
  callbackDataMap s !! CallbackId d = None ->
  AddSwitchCallback (Some d) s
  = mkRun (Ret tt)
      (set_callbackDataMap
         (<[next_id (currentCallbackDataId s) := d]> (callbackDataMap s))
         (set_currentCallbackDataId (next_id (currentCallbackDataId s)) s))
      [].
Proof.
  intros Hnone. unfold AddSwitchCallback.
  rewrite bind_gets, Hnone. unfold getNewCallbackDataId.
  rewrite bind_assoc, bind_gets, bind_assoc, bind_modify, bind_ret, bind_gets.
  done.
Qed.

(** An entry whose [CallbackId] is a key of the registry is not stored;
    the error is logged when the entry found there is not derived. *)
Lemma AddSwitchCallback_rejects (s : State) d found :
  callbackDataMap s !! CallbackId d = Some found ->
  callbackDataMap (final (AddSwitchCallback (Some d) s)) = callbackDataMap s
  /\ (sink_returns (logErrorFunc s) ->
      error_logs (emitted (AddSwitchCallback (Some d) s))
      = if notOrigin found then [] else ["[i18n] cannot add duplicated callback"]).
Proof.
  intros Hsome. unfold AddSwitchCallback. rewrite bind_gets, Hsome.
  destruct (notOrigin found); cbn; [done|]. unfold logError.
  destruct (call_sink_frame SevError logErrorFunc
              "[i18n] cannot add duplicated callback" [] s) as [-> _].
  split; [done|]. intros Hs. by rewrite call_sink_returns.
Qed.

(** Registering the same entry twice stores it twice, unless its
    [CallbackId] happens to be the key the first call allocates. *)
Lemma AddSwitchCallback_twice (s : State) d :
  callbackDataMap s !! CallbackId d = None ->
  CallbackId d <> next_id (currentCallbackDataId s) ->
  (AddSwitchCallback (Some d) ;;; AddSwitchCallback (Some d)) s
  = mkRun (Ret tt)
      (set_callbackDataMap
         (<[next_id (next_id (currentCallbackDataId s)) := d]>
            (<[next_id (currentCallbackDataId s) := d]> (callbackDataMap s)))
         (set_currentCallbackDataId
            (next_id (next_id (currentCallbackDataId s))) s))
      [].
Proof.
  intros Hnone Hne.
  rewrite (bind_Ret_nil _ _ _ _ _ (AddSwitchCallback_stores s d Hnone)).
  rewrite AddSwitchCallback_stores; [done|].
  cbn. by rewrite lookup_insert_ne.
Qed.

End registry.

Section options.
Context `{Host}.

Lemma option_string_run t v (s : State) :
  Options.option_string (NewOptionWithData t (VString v)) s = mkRun (Ret v) s [].
Proof. done. Qed.

(** [PackagePath dir] followed by [PackageSuffix suffix]: the pattern
    is built from the suffix in the place of the directory. *)
Lemma PackageSuffix_after_PackagePath (s : State) loc dir suffix :
  Options.apply_options loc
    [NewOptionWithData PackagePath (VString dir);
     NewOptionWithData PackageSuffix (VString suffix)] s
  = mkRun (Ret (Options.mkLocals (Options.pListFunc loc) suffix
                  (Filepath.Join [suffix; "*." +:+ suffix]) true)) s [].
Proof.
  cbn [Options.apply_options]. unfold Options.apply_option. cbn.
  rewrite bind_assoc, (bind_Ret_nil _ _ _ _ _ (option_string_run _ _ _)), bind_ret.
  cbn. rewrite !bind_assoc.
  rewrite (bind_Ret_nil _ _ _ _ _ (option_string_run _ _ _)).
  rewrite bind_assoc, (bind_Ret_nil _ _ _ _ _ (option_string_run _ _ _)).
  by rewrite bind_ret.
Qed.

End options.

Section initialization_v2.
Context `{Host}.

(** C10.  [InitI18nWithConfig], and [InitI18n] which calls it, with a
    nil [lang] while [DefaultLang] is nil: the arguments of the
    "Not special language" log call dereference [DefaultLang], the call
    panics before the sink is reached, and [DefaultLang] is still nil. *)
Theorem InitI18nWithConfig_nil_lang_panics (s : State) :
  DefaultLang s = None ->
  (forall logInfoFunc' logErrorFunc' format unmarshalFunc' langFilesPattern,
      let r := I18n.InitI18nWithConfig None logInfoFunc' logErrorFunc' format
                 unmarshalFunc' langFilesPattern s in
      outcome r = Panic NilDereference
      /\ emitted r = []
      /\ DefaultLang (final r) = None)
  /\ (forall logInfoFunc' logErrorFunc',
      let r := I18n.InitI18n None logInfoFunc' logErrorFunc' s in
      outcome r = Panic NilDereference
      /\ emitted r = []
      /\ DefaultLang (final r) = None).
Proof.
  intros Hnil.
  assert (forall logInfoFunc' logErrorFunc' format unmarshalFunc' langFilesPattern,
      let r := I18n.InitI18nWithConfig None logInfoFunc' logErrorFunc' format
                 unmarshalFunc' langFilesPattern s in
      outcome r = Panic NilDereference /\ emitted r = []
      /\ DefaultLang (final r) = None) as Hconfig.
  { intros. subst r. unfold I18n.InitI18nWithConfig.
    rewrite !bind_modify, bind_assoc, bind_gets. cbn. rewrite Hnil. done. }
  split; [done|]. intros. apply Hconfig.
Qed.

End initialization_v2.

Section discovery.
Context `{Host}.
Import GoStrings.

Lemma ReadLangLabel_no_match topLine :
  Regexp.MatchString i18nLabelRegexp topLine = false -> ReadLangLabel topLine = [].
Proof. intros Hno. unfold ReadLangLabel. by rewrite Hno. Qed.

Lemma ReadLangLabel_match topLine :
  ReadLangLabel topLine <> [] -> Regexp.MatchString i18nLabelRegexp topLine = true.
Proof.
  unfold ReadLangLabel.
  by destruct (Regexp.MatchString i18nLabelRegexp topLine).
Qed.

Lemma logError_final format args (s : State) :
  final (logError format args s) = s.
Proof. apply call_sink_frame. Qed.

Lemma logInfo_final format args (s : State) :
  final (logInfo format args s) = s.
Proof. apply call_sink_frame. Qed.

Lemma logError_returns format args (s : State) :
  sink_returns (logErrorFunc s) ->
  logError format args s = mkRun (Ret tt) s [EvLog SevError format args].
Proof. apply call_sink_returns. Qed.

(** A computation made of steps that keep the state keeps the state. *)
Lemma bind_final {A B} (m : M A) (k : A -> M B) (s : State) :
  final (m s) = s -> (forall a, final (k a s) = s) -> final (bind m k s) = s.
Proof.
  intros Hm Hk. unfold bind.
  destruct (m s) as [[a| |] s' ev]; cbn in *; subst; auto.
Qed.

Lemma index0_final {A} (xs : list A) (s : State) : final (index0 xs s) = s.
Proof. by destruct xs. Qed.

(** [ReadLangFromFileName] reads and logs; it assigns no variable. *)
Lemma ReadLangFromFileName_final fileName (s : State) :
  final (Options.ReadLangFromFileName fileName s) = s.
Proof.
  unfold Options.ReadLangFromFileName. rewrite bind_gets.
  destruct (files s !! fileName) as [content|].
  - destruct (ReadString_newline content) as [topLine [|]].
    + apply bind_final; [apply logError_final|done].
    + destruct (length (ReadLangLabel topLine) <? 2)%nat.
      * apply bind_final; [apply logError_final|done].
      * apply bind_final; [apply index0_final|done].
  - apply bind_final; [apply logError_final|done].
Qed.

(** On an unlabelled file it logs one error and returns nil, when the
    error sink returns. *)
Lemma ReadLangFromFileName_unlabelled fileName (s : State) :
  sink_returns (logErrorFunc s) ->
  unlabelled (files s) fileName ->
  exists format args,
    Options.ReadLangFromFileName fileName s
    = mkRun (Ret None) s [EvLog SevError format args].
Proof.
  intros Hsink (content & Hfile & Hno).
  unfold Options.ReadLangFromFileName. rewrite bind_gets, Hfile.
  destruct (ReadString_newline content) as [topLine [|]]; cbn in Hno.
  - eexists _, _. by rewrite (bind_Ret _ _ _ _ _ _ (logError_returns _ _ _ Hsink)).
  - rewrite (ReadLangLabel_no_match _ Hno). cbn.
    eexists _, _. by rewrite (bind_Ret _ _ _ _ _ _ (logError_returns _ _ _ Hsink)).
Qed.

(** A descriptor it returns names the file, and the file is labelled. *)
Lemma ReadLangFromFileName_Some fileName (s : State) l :
  outcome (Options.ReadLangFromFileName fileName s) = Ret (Some l) ->
  Lang_FileName l = fileName /\ ~ unlabelled (files s) fileName.
Proof.
  unfold Options.ReadLangFromFileName. rewrite bind_gets.
  destruct (files s !! fileName) as [content|] eqn:Hfile.
  - destruct (ReadString_newline content) as [topLine [|]] eqn:Hread.
    + intros (? & _ & [=] & _)%bind_Ret_inv.
    + destruct (length (ReadLangLabel topLine) <? 2)%nat eqn:Hlen.
      * intros (? & _ & [=] & _)%bind_Ret_inv.
      * intros (tag & _ & [= <-] & _)%bind_Ret_inv. split; [done|].
        intros (content' & Hfile' & Hno). rewrite Hfile in Hfile'.
        injection Hfile' as <-. rewrite Hread in Hno. cbn in Hno.
        rewrite (ReadLangLabel_no_match _ Hno) in Hlen. done.
  - intros (? & _ & [=] & _)%bind_Ret_inv.
Qed.

(** On an untagged file the index expression [parseTags(labels[0])[0]]
    panics. *)
Lemma ReadLangFromFileName_untagged fileName (s : State) :
  untagged (files s) fileName ->
  Options.ReadLangFromFileName fileName s = mkRun (Panic IndexOutOfRange) s [].
Proof.
  intros (content & topLine & tagRaw & name & Hfile & Hread & Hlabel & Htags).
  unfold Options.ReadLangFromFileName.
  rewrite bind_gets, Hfile, Hread, Hlabel. cbn. by rewrite Htags.
Qed.

(** The panic ends the loop of the discovery at that file, whatever
    files follow, and it ends [PackageListByPatternFunc]. *)
Lemma range_packages_untagged fileName rest acc (s : State) :
  untagged (files s) fileName ->
  Options.range_packages (fileName :: rest) acc s
  = mkRun (Panic IndexOutOfRange) s [].
Proof.
  intros Hun. cbn [Options.range_packages]. unfold bind.
  by rewrite (ReadLangFromFileName_untagged _ _ Hun).
Qed.

Lemma range_packages_final packages acc (s : State) :
  final (Options.range_packages packages acc s) = s.
Proof.
  revert acc. induction packages as [|f rest IH]; intros acc; [done|].
  cbn [Options.range_packages]. unfold bind at 1.
  pose proof (ReadLangFromFileName_final f s) as Hfin.
  destruct (Options.ReadLangFromFileName f s) as [[[l|]| |] s' ev];
    cbn in *; subst s'; try done.
  apply bind_final; [apply logInfo_final|intros; apply IH].
Qed.

(** Taking an unlabelled file out of the batch changes neither how
    the loop ends nor the list it returns. *)
Lemma range_packages_skips pre bad post acc (s : State) :
  sink_returns (logErrorFunc s) ->
  unlabelled (files s) bad ->
  outcome (Options.range_packages (pre ++ bad :: post) acc s)
  = outcome (Options.range_packages (pre ++ post) acc s).
Proof.
  intros Hsink Hbad. revert acc. induction pre as [|f pre IH]; intros acc.
  - cbn [app Options.range_packages].
    destruct (ReadLangFromFileName_unlabelled bad s Hsink Hbad)
      as (format & args & Hrun).
    by rewrite (bind_Ret _ _ _ _ _ _ Hrun).
  - cbn [app Options.range_packages]. unfold bind at 1 3.
    pose proof (ReadLangFromFileName_final f s) as Hfin.
    destruct (Options.ReadLangFromFileName f s) as [[[l|]| |] s' ev];
      cbn in *; subst s'; try done.
    unfold bind.
    rewrite (logInfo_final "[i18n] Found language: %s" [VString (langName l)] s).
    destruct (outcome (logInfo "[i18n] Found language: %s"
                         [VString (langName l)] s)); cbn; [apply IH|done..].
Qed.

(** Every descriptor the loop adds comes from a labelled file. *)
Lemma range_packages_sources packages acc (s : State) languages :
  outcome (Options.range_packages packages acc s) = Ret languages ->
  forall l, Some l ∈ languages ->
    Some l ∈ acc \/ ~ unlabelled (files s) (Lang_FileName l).
Proof.
  revert acc. induction packages as [|f rest IH]; intros acc.
  - cbn. intros [= <-] l Hl. by left.
  - cbn [Options.range_packages].
    intros (lang & Hread & Hrest & _)%bind_Ret_inv.
    rewrite ReadLangFromFileName_final in Hrest.
    destruct lang as [l'|].
    + apply bind_Ret_inv in Hrest as (_ & _ & Hrest & _).
      rewrite logInfo_final in Hrest.
      intros l Hl. destruct (IH _ Hrest l Hl) as [Hacc|Hlab]; [|by right].
      apply elem_of_app in Hacc as [Hacc|Hnew]; [by left|right].
      apply list_elem_of_singleton in Hnew as [= ->].
      apply ReadLangFromFileName_Some in Hread as [-> Hlab]. done.
    + by apply IH.
Qed.

End discovery.

Section discovery_batch.
Context `{Host}.

Lemma option_string_final option (s : State) :
  final (Options.option_string option s) = s.
Proof.
  unfold Options.option_string. by destruct (Option_Data option) as [[]|].
Qed.

Lemma pattern_of_options_final options p (s : State) :
  final (Options.pattern_of_options options p s) = s.
Proof.
  revert p. induction options as [|o rest IH]; intros p; [done|]. cbn.
  destruct (Option_OptionType o =? PackagePattern)%Z; [|apply IH].
  apply bind_final; [apply option_string_final|intros; apply IH].
Qed.

(** What [PackageListByPatternFunc] returns was found by its loop. *)
Lemma PackageListByPatternFunc_sources options (s : State) languages err :
  outcome (Options.PackageListByPatternFunc options s) = Ret (languages, err) ->
  forall l, Some l ∈ languages -> ~ unlabelled (files s) (Lang_FileName l).
Proof.
  unfold Options.PackageListByPatternFunc.
  intros (p & _ & Hrest & _)%bind_Ret_inv.
  rewrite pattern_of_options_final in Hrest.
  destruct (bool_decide (p = "")).
  - apply bind_Ret_inv in Hrest as (_ & _ & [= <- _] & _).
    intros l Hl. by apply elem_of_nil in Hl.
  - rewrite bind_gets in Hrest.
    destruct (Glob (files s) p) as [packages [e|]].
    + apply bind_Ret_inv in Hrest as (_ & _ & [= <- _] & _).
      intros l Hl. by apply elem_of_nil in Hl.
    + apply bind_Ret_inv in Hrest as (found & Hloop & Hrest & _).
      apply bind_Ret_inv in Hrest as (_ & _ & [= <- _] & _).
      intros l Hl.
      destruct (range_packages_sources _ _ _ _ Hloop l Hl) as [Hnil|Hlab];
        [by apply elem_of_nil in Hnil|done].
Qed.

(** C6, as the code has it.  When the error sink returns from a log
    call, a matched file whose first line does not match the label
    pattern is logged and yields no descriptor; the loop of the
    discovery ends the same way and returns the same list with the file
    in the batch as without it; no descriptor of the returned list names
    it; and the loop of the second revision goes on with the files after
    it. *)
Theorem unlabelled_file_is_skipped (s : State) (bad : string) :
  sink_returns (logErrorFunc s) ->
  unlabelled (files s) bad ->
  (exists format args,
      Options.ReadLangFromFileName bad s
      = mkRun (Ret None) s [EvLog SevError format args])
  /\ (forall pre post acc,
      outcome (Options.range_packages (pre ++ bad :: post) acc s)
      = outcome (Options.range_packages (pre ++ post) acc s))
  /\ (forall options languages err,
      outcome (Options.PackageListByPatternFunc options s) = Ret (languages, err) ->
      forall l, Some l ∈ languages -> Lang_FileName l <> bad)
  /\ (forall rest,
      outcome (I18n.range_languages (bad :: rest) s)
      = outcome (I18n.range_languages rest s)
      /\ final (I18n.range_languages (bad :: rest) s)
         = final (I18n.range_languages rest s)).
Proof.
  intros Hsink Hbad. split; [by apply ReadLangFromFileName_unlabelled|].
  split; [intros; by apply range_packages_skips|]. split.
  - intros options languages err Hout l Hl Heq.
    apply (PackageListByPatternFunc_sources _ _ _ _ Hout l Hl). by rewrite Heq.
  - intros rest. destruct Hbad as (content & Hfile & Hno).
    cbn [I18n.range_languages]. unfold I18n.readLangLabel.
    rewrite bind_assoc, bind_gets, Hfile, bind_ret.
    rewrite (ReadLangLabel_no_match _ Hno). cbn.
    by rewrite (bind_Ret _ _ _ _ _ _ (logError_returns _ _ _ Hsink)).
Qed.

End discovery_batch.

Section initialization.
Context `{Host}.




Lemma keeps_on_bundle_Language method (s : State) :
  Language (final (on_bundle method s)) = Language s.
Proof.
  unfold on_bundle. rewrite !bind_gets.
  destruct (bundle s) as [p|]; [|done].
  destruct (bundles s !! p) as [b|]; [|done].
  destruct (method b) as [b' err]. by rewrite bind_modify.
Qed.





End initialization.

Section initialization_second_revision.
Context `{Host}.
Import GoStrings.

(** The second revision reads the label the same way, and its loop
    panics on the same index expression (i18n.go:147). *)
Lemma range_languages_untagged fileName rest (s : State) :
  untagged (files s) fileName ->
  I18n.range_languages (fileName :: rest) s = mkRun (Panic IndexOutOfRange) s [].
Proof.
  intros (content & topLine & tagRaw & name & Hfile & Hread & Hlabel & Htags).
  cbn [I18n.range_languages]. unfold I18n.readLangLabel.
  rewrite bind_assoc, bind_gets, Hfile, bind_ret, Hread. cbn [fst].
  rewrite Hlabel. cbn. by rewrite Htags.
Qed.

(** When the loop of [initI18n] makes the function return, [Language]
    has just been set. *)
Lemma range_languages_returned languages (s : State) :
  outcome (I18n.range_languages languages s) = Ret true ->
  Language (final (I18n.range_languages languages s)) <> None.
Proof.
  revert s. induction languages as [|f rest IH]; intros s; [done|].
  cbn [I18n.range_languages].
  intros (labels & Hlabels & Hrest & -> & _)%bind_Ret_inv.
  set (s1 := final (I18n.readLangLabel f s)) in *. clearbody s1.
  destruct (length labels <? 2)%nat.
  { apply bind_Ret_inv in Hrest as (_ & _ & Hrest & -> & _). by apply IH. }
  apply bind_Ret_inv in Hrest as (tag & _ & Hrest & -> & _).
  set (s2 := final (index0 _ s1)) in *. clearbody s2.
  apply bind_Ret_inv in Hrest as (_ & _ & Hrest & -> & _).
  set (s3 := final (logInfo _ _ s2)) in *. clearbody s3.
  rewrite !bind_gets in Hrest |- *.
  destruct (I18n.is_default (Language s3) (DefaultLang s3) tag).
  - rewrite bind_modify, bind_gets in Hrest |- *.
    set (lang := mkLang _ _ _ _ _) in Hrest |- *.
    apply bind_Ret_inv in Hrest as (err & _ & Hrest & -> & _).
    pose proof (keeps_on_bundle_Language
                  (LoadMessageFile (files (set_Language (Some lang) s3)) f)
                  (set_Language (Some lang) s3)) as Hkeep.
    set (s4 := final (on_bundle _ _)) in *. clearbody s4.
    destruct err as [e|].
    + rewrite (bind_final _ _ s4); [by rewrite Hkeep|apply logError_final|done].
    + rewrite (bind_Ret_nil _ _ _ _ _ (NewLocalizer_run _ _)), bind_modify,
        bind_gets, bind_modify in Hrest |- *.
      apply bind_Ret_inv in Hrest as (_ & _ & Hrest & -> & _). by apply IH.
  - rewrite bind_gets, bind_modify in Hrest |- *. by apply IH.
Qed.

(** The guard of the second revision (i18n.go:168): [initI18n] does not
    return while [Language] is nil. *)
Lemma initI18n_returns_with_Language lang format unmarshal pattern (s : State) :
  outcome (I18n.initI18n lang format unmarshal pattern s) = Ret tt ->
  Language (final (I18n.initI18n lang format unmarshal pattern s)) <> None.
Proof.
  unfold I18n.initI18n.
  intros (_ & _ & Hrest & -> & _)%bind_Ret_inv.
  apply bind_Ret_inv in Hrest as (_ & _ & Hrest & -> & _).
  apply bind_Ret_inv in Hrest as (_ & _ & Hrest & -> & _).
  rewrite bind_gets in Hrest |- *.
  apply bind_Ret_inv in Hrest as (languages & _ & Hrest & -> & _).
  apply bind_Ret_inv in Hrest as (returned & Hloop & Hrest & -> & _).
  destruct returned; [by apply range_languages_returned|].
  set (s1 := final (I18n.range_languages _ _)) in *. clearbody s1.
  rewrite bind_gets in Hrest |- *.
  apply bind_Ret_inv in Hrest as (_ & _ & Hrest & -> & _).
  rewrite logInfo_final, bind_gets in Hrest |- *.
  destruct (Language s1) eqn:Hlang.
  - by rewrite logInfo_final, Hlang.
  - by apply bind_Ret_inv in Hrest as (_ & _ & [=] & _).
Qed.

End initialization_second_revision.

(** * More properties, for every host *)

Section label_lines.
Import GoStrings Regexp.

Lemma append_cons a s t : String a s +:+ t = String a (s +:+ t).
Proof. reflexivity. Qed.

Lemma append_empty_l s : "" +:+ s = s.
Proof. reflexivity. Qed.

Lemma append_assoc a b c : (a +:+ b) +:+ c = a +:+ b +:+ c.
Proof.
  induction a as [|x a IH]; [done|]. rewrite !append_cons. by rewrite IH.
Qed.

Lemma append_empty_r s : s +:+ "" = s.
Proof. induction s as [|a s IH]; [done|]. rewrite append_cons. congruence. Qed.

Lemma has_char_append c a b :
  has_char c (a +:+ b) = has_char c a || has_char c b.
Proof.
  induction a as [|x a IH]; [done|].
  rewrite append_cons. cbn. by rewrite IH, orb_assoc.
Qed.

Lemma capture_greedy_length k n s gs :
  (forall s' gs', k s' = Some gs' -> length gs' = n) ->
  capture_greedy k s = Some gs -> length gs = S n.
Proof.
  intros Hk. revert gs.
  assert (Hstop : forall s gs, cons EmptyString <$> k s = Some gs -> length gs = S n).
  { intros s' gs. destruct (k s') as [gs'|] eqn:E; cbn; [|done].
    intros [= <-]. cbn. f_equal. eauto. }
  induction s as [|c s IH]; intros gs; cbn; [apply Hstop|].
  destruct (Ascii.eqb c newline); [apply Hstop|].
  destruct (capture_greedy k s) as [[|g gs']|]; [apply Hstop| |apply Hstop].
  intros [= <-]. by apply (IH (g :: gs')).
Qed.

Lemma match_here_label_length s gs :
  match_here i18nLabelRegexp s = Some gs -> length gs = 2%nat.
Proof.
  unfold i18nLabelRegexp. cbn [match_here].
  destruct (strip_prefix "# [i18n] <" s) as [s1|]; [|done].
  apply capture_greedy_length. intros s2 gs2.
  destruct (strip_prefix "> <" s2) as [s3|]; [|done].
  apply capture_greedy_length. intros s4 gs4.
  destruct (strip_prefix ">" s4); [|done]. by intros [= <-].
Qed.

Lemma find_match_here items s gs :
  find items s = Some gs -> exists s', match_here items s' = Some gs.
Proof.
  induction s as [|c s IH]; cbn.
  - destruct (match_here items "") eqn:E; [|done]. intros [= <-]. eauto.
  - destruct (match_here items (String c s)) eqn:E; [|apply IH].
    intros [= <-]. eauto.
Qed.

Lemma ReadLangLabel_shape topLine :
  (MatchString i18nLabelRegexp topLine = true
   /\ exists tagRaw name, ReadLangLabel topLine = [tagRaw; name])
  \/ (MatchString i18nLabelRegexp topLine = false /\ ReadLangLabel topLine = []).
Proof.
  unfold ReadLangLabel, MatchString.
  destruct (find i18nLabelRegexp topLine) as [gs|] eqn:Hfind.
  - left. rewrite bool_decide_eq_true_2 by eauto. split; [done|].
    apply find_match_here in Hfind as [s' Hs'].
    apply match_here_label_length in Hs'.
    destruct gs as [|a [|b [|]]]; try done. by exists a, b.
  - right. rewrite bool_decide_eq_false_2; [done|]. by intros [? [=]].
Qed.


(** Steps of the matcher on a text that starts with known characters. *)
Ltac text := rewrite ?append_cons, ?append_empty_l.

Lemma capture_greedy_cons k c s :
  capture_greedy k (String c s)
  = if Ascii.eqb c newline then cons EmptyString <$> k (String c s)
    else match capture_greedy k s with
         | Some (g :: gs) => Some (String c g :: gs)
         | _ => cons EmptyString <$> k (String c s)
         end.
Proof. reflexivity. Qed.

Lemma match_here_Lit l rest s :
  match_here (Lit l :: rest) s
  = match strip_prefix l s with
    | Some s' => match_here rest s'
    | None => None
    end.
Proof. reflexivity. Qed.

Lemma match_here_CaptureAny rest s :
  match_here (CaptureAny :: rest) s = capture_greedy (match_here rest) s.
Proof. reflexivity. Qed.

(** Decides the comparisons of known characters. *)
Ltac known_chars :=
  repeat match goal with
         | |- context [Ascii.eqb (Ascii ?a0 ?a1 ?a2 ?a3 ?a4 ?a5 ?a6 ?a7)
                                 (Ascii ?b0 ?b1 ?b2 ?b3 ?b4 ?b5 ?b6 ?b7)] =>
             let b := eval vm_compute in
               (Ascii.eqb (Ascii a0 a1 a2 a3 a4 a5 a6 a7)
                          (Ascii b0 b1 b2 b3 b4 b5 b6 b7)) in
             change (Ascii.eqb (Ascii a0 a1 a2 a3 a4 a5 a6 a7)
                               (Ascii b0 b1 b2 b3 b4 b5 b6 b7)) with b
         end;
  cbv beta iota.

Lemma capture_greedy_prefix k a s g gs :
  has_char newline a = false ->
  capture_greedy k s = Some (g :: gs) ->
  capture_greedy k (a +:+ s) = Some ((a +:+ g) :: gs).
Proof.
  intros Ha Hs. induction a as [|c a IH]; [done|].
  cbn in Ha. apply orb_false_elim in Ha as [Hc Ha].
  rewrite !append_cons. cbn. rewrite Hc, (IH Ha). done.
Qed.

(** The end of a line: nothing, or a newline and what follows it. *)
Lemma capture_greedy_at_end k tail :
  tail = "" \/ (exists rest, tail = String newline rest) ->
  capture_greedy k tail = cons EmptyString <$> k tail.
Proof. by intros [->|[rest ->]]. Qed.

Lemma strip_prefix_at_end c l tail :
  tail = "" \/ (exists rest, tail = String newline rest) ->
  c <> newline ->
  strip_prefix (String c l) tail = None.
Proof.
  intros [->|[rest ->]] Hc; [done|]. cbn.
  by rewrite (proj2 (Ascii.eqb_neq _ _) Hc).
Qed.

Lemma label_name_group name tail :
  has_char newline name = false ->
  tail = "" \/ (exists rest, tail = String newline rest) ->
  capture_greedy (match_here [Lit ">"]) (name +:+ ">" +:+ tail) = Some [name].
Proof.
  intros Hname Htail.
  rewrite <- (append_empty_r name) at 2.
  apply capture_greedy_prefix; [done|].
  by destruct Htail as [->|[rest ->]].
Qed.

Lemma label_no_later_separator u tail :
  has_char ">" u = false ->
  tail = "" \/ (exists rest, tail = String newline rest) ->
  capture_greedy (match_here [Lit "> <"; CaptureAny; Lit ">"]) (u +:+ ">" +:+ tail)
  = None.
Proof.
  intros Hu Htail. induction u as [|c u IH].
  - by destruct Htail as [->|[rest ->]].
  - cbn in Hu. apply orb_false_elim in Hu as [Hc Hu].
    rewrite append_cons, capture_greedy_cons, (IH Hu).
    cbn [match_here strip_prefix]. rewrite (Ascii.eqb_sym ">" c), Hc.
    by destruct (Ascii.eqb c newline).
Qed.

Lemma label_tag_group tag name tail :
  has_char newline tag = false ->
  has_char newline name = false ->
  has_char ">" name = false ->
  tail = "" \/ (exists rest, tail = String newline rest) ->
  capture_greedy (match_here [Lit "> <"; CaptureAny; Lit ">"])
    (tag +:+ "> <" +:+ name +:+ ">" +:+ tail)
  = Some [tag; name].
Proof.
  intros Htag Hname Hgt Htail.
  rewrite <- (append_empty_r tag) at 2.
  apply capture_greedy_prefix; [done|].
  text. rewrite capture_greedy_cons. unfold newline at 1. known_chars.
  assert (Hlater := label_no_later_separator (" <" +:+ name) tail).
  rewrite has_char_append, Hgt in Hlater. specialize (Hlater eq_refl Htail).
  rewrite ?append_cons, ?append_empty_l in Hlater. rewrite Hlater.
  rewrite match_here_Lit. cbn [strip_prefix]. known_chars.
  rewrite match_here_CaptureAny.
  assert (Hgroup := label_name_group name tail Hname Htail).
  rewrite ?append_cons, ?append_empty_l in Hgroup. by rewrite Hgroup.
Qed.

Lemma ReadLangLabel_label tag name tail :
  has_char newline tag = false ->
  has_char newline name = false ->
  has_char ">" name = false ->
  tail = "" \/ (exists rest, tail = String newline rest) ->
  ReadLangLabel ("# [i18n] <" +:+ tag +:+ "> <" +:+ name +:+ ">" +:+ tail)
  = [tag; name].
Proof.
  intros Htag Hname Hgt Htail.
  assert (Hfind : find i18nLabelRegexp
                    ("# [i18n] <" +:+ tag +:+ "> <" +:+ name +:+ ">" +:+ tail)
                  = Some [tag; name]).
  { assert (Hhere : match_here i18nLabelRegexp
                      ("# [i18n] <" +:+ tag +:+ "> <" +:+ name +:+ ">" +:+ tail)
                    = Some [tag; name]).
    { text. unfold i18nLabelRegexp. rewrite match_here_Lit.
      cbn [strip_prefix]. known_chars. rewrite match_here_CaptureAny.
      assert (Hgroup := label_tag_group tag name tail Htag Hname Hgt Htail).
      rewrite ?append_cons, ?append_empty_l in Hgroup. exact Hgroup. }
    revert Hhere. text. cbn [find]. by intros ->. }
  unfold ReadLangLabel, MatchString. rewrite Hfind.
  by rewrite bool_decide_eq_true_2 by eauto.
Qed.


Lemma strip_prefix_has_char c l a a' :
  strip_prefix l a = Some a' -> has_char c a = false -> has_char c a' = false.
Proof.
  revert a. induction l as [|x l IH]; intros a; cbn; [by intros [= <-]|].
  destruct a as [|b a]; [done|].
  destruct (Ascii.eqb x b); [|done]. cbn.
  intros Hl [_ Ha]%orb_false_elim. eauto.
Qed.

Lemma strip_prefix_before_newline l a :
  has_char newline l = false ->
  strip_prefix l (a +:+ String newline "")
  = (fun a' => a' +:+ String newline "") <$> strip_prefix l a.
Proof.
  revert a. induction l as [|c l IH]; intros a Hl; [done|].
  cbn in Hl. apply orb_false_elim in Hl as [Hc Hl].
  destruct a as [|b a].
  { rewrite append_empty_l. cbn [strip_prefix]. by rewrite Hc. }
  rewrite append_cons. cbn [strip_prefix].
  destruct (Ascii.eqb c b); [by apply IH|done].
Qed.

Lemma capture_greedy_before_newline (k : string -> option (list string)) a :
  (forall a', has_char newline a' = false -> k (a' +:+ String newline "") = k a') ->
  has_char newline a = false ->
  capture_greedy k (a +:+ String newline "") = capture_greedy k a.
Proof.
  intros Hk. induction a as [|c a IH]; intros Ha.
  - cbn. by rewrite <- (Hk "").
  - pose proof (Hk _ Ha) as Hhere. rewrite append_cons in Hhere.
    cbn in Ha. apply orb_false_elim in Ha as [Hc Ha].
    rewrite append_cons, !capture_greedy_cons, Hc, Hhere, (IH Ha). done.
Qed.

Lemma match_here_before_newline items a :
  Forall (fun item => match item with
                      | Lit l => has_char newline l = false
                      | CaptureAny => True
                      end) items ->
  has_char newline a = false ->
  match_here items (a +:+ String newline "") = match_here items a.
Proof.
  intros Hitems. revert a.
  induction Hitems as [|[l|] items Hl _ IH]; intros a Ha; [done| |].
  - rewrite !match_here_Lit, strip_prefix_before_newline by done.
    destruct (strip_prefix l a) as [a'|] eqn:Hstrip; [|done]. cbn.
    apply IH. by eapply strip_prefix_has_char.
  - rewrite !match_here_CaptureAny. by apply capture_greedy_before_newline.
Qed.

Lemma find_before_newline items a :
  Forall (fun item => match item with
                      | Lit l => has_char newline l = false
                      | CaptureAny => True
                      end) items ->
  has_char newline a = false ->
  find items (a +:+ String newline "") = find items a.
Proof.
  intros Hitems. induction a as [|c a IH]; intros Ha.
  - pose proof (match_here_before_newline items "" Hitems eq_refl) as Hhere.
    rewrite append_empty_l in *. cbn. rewrite Hhere.
    by destruct (match_here items "").
  - pose proof (match_here_before_newline items _ Hitems Ha) as Hhere.
    cbn in Ha. apply orb_false_elim in Ha as [Hc Ha].
    rewrite append_cons in *. cbn [find]. rewrite Hhere, (IH Ha). done.
Qed.

(** The newline that [ReadString] leaves at the end of the line does not
    change what the pattern finds. *)
Lemma ReadLangLabel_before_newline a :
  has_char newline a = false ->
  ReadLangLabel (a +:+ String newline "") = ReadLangLabel a.
Proof.
  intros Ha. unfold ReadLangLabel, MatchString.
  rewrite find_before_newline; [done| |done].
  unfold i18nLabelRegexp. repeat constructor.
Qed.

Lemma ReadString_newline_line line rest :
  has_char newline line = false ->
  ReadString_newline (line +:+ String newline rest)
  = (line +:+ String newline "", false).
Proof.
  induction line as [|c line IH]; [done|]. cbn.
  intros [Hc Hline]%orb_false_elim.
  rewrite !append_cons. cbn. by rewrite Hc, (IH Hline).
Qed.

Lemma ReadString_newline_eof content :
  has_char newline content = false ->
  ReadString_newline content = (content, true).
Proof.
  induction content as [|c content IH]; [done|]. cbn.
  intros [Hc Hrest]%orb_false_elim. by rewrite Hc, (IH Hrest).
Qed.

Lemma first_line_line line rest :
  has_char newline line = false ->
  has_char carriage_return line = false ->
  first_line (line +:+ String newline rest) = line.
Proof.
  induction line as [|c line IH]; [done|]. cbn.
  intros [Hc Hline]%orb_false_elim [Hr Hline']%orb_false_elim.
  rewrite append_cons. cbn. by rewrite Hc, Hr, (IH Hline Hline').
Qed.

Lemma first_line_all content :
  has_char newline content = false ->
  has_char carriage_return content = false ->
  first_line content = content.
Proof.
  induction content as [|c content IH]; [done|]. cbn.
  intros [Hc Hline]%orb_false_elim [Hr Hline']%orb_false_elim.
  by rewrite Hc, Hr, (IH Hline Hline').
Qed.

End label_lines.

Section reading.
Context `{Host}.
Import GoStrings.

(** X1.  [ReadLangLabel] returns two strings, the tag string and the
    name, or none at all; so the test [len(labels) < 2] of its callers is
    true exactly when the line does not match the label pattern. *)
Theorem ReadLangLabel_two_or_none topLine :
  ((exists tagRaw name, ReadLangLabel topLine = [tagRaw; name])
   \/ ReadLangLabel topLine = [])
  /\ (length (ReadLangLabel topLine) <? 2)%nat
     = negb (Regexp.MatchString i18nLabelRegexp topLine).
Proof.
  destruct (ReadLangLabel_shape topLine) as [[-> (t & n & ->)]|[-> ->]];
    split; eauto.
Qed.

(** X2.  A text that starts with a label, [# [i18n] <tag> <name>], and
    ends there or goes on with a newline, is read back as [tag] and
    [name], whenever neither of them holds a newline and the name holds
    no [>]. *)
Theorem ReadLangLabel_reads_label tag name tail :
  has_char newline tag = false ->
  has_char newline name = false ->
  has_char ">" name = false ->
  tail = "" \/ (exists rest, tail = String newline rest) ->
  Regexp.MatchString i18nLabelRegexp
    ("# [i18n] <" +:+ tag +:+ "> <" +:+ name +:+ ">" +:+ tail) = true
  /\ ReadLangLabel ("# [i18n] <" +:+ tag +:+ "> <" +:+ name +:+ ">" +:+ tail)
     = [tag; name].
Proof.
  intros Htag Hname Hgt Htail.
  pose proof (ReadLangLabel_label tag name tail Htag Hname Hgt Htail) as Hlabel.
  split; [|exact Hlabel].
  apply ReadLangLabel_match. by rewrite Hlabel.
Qed.

(** X3.  A package file without a newline is rejected by the third
    revision, even when its only line is a label: [ReadString] reports
    the end of the file, and [ReadLangFromFileName] never returns a
    descriptor; when the error sink returns it logs that error and
    returns nil.  The second revision drops the error of [ReadString] and
    reads the label. *)
Theorem ReadLangFromFileName_needs_newline fileName content (s : State) :
  files s !! fileName = Some content ->
  has_char newline content = false ->
  (forall l, outcome (Options.ReadLangFromFileName fileName s) <> Ret (Some l))
  /\ (sink_returns (logErrorFunc s) ->
      Options.ReadLangFromFileName fileName s
      = mkRun (Ret None) s
          [EvLog SevError "[i18n] ReadLangFromFileName error: %v" [VError "EOF"]])
  /\ I18n.readLangLabel fileName s = mkRun (Ret (ReadLangLabel content)) s [].
Proof.
  intros Hfile Hline. split; [|split].
  - intros l. unfold Options.ReadLangFromFileName.
    rewrite bind_gets, Hfile, (ReadString_newline_eof _ Hline).
    by intros (? & _ & [=] & _)%bind_Ret_inv.
  - intros Hsink. unfold Options.ReadLangFromFileName.
    rewrite bind_gets, Hfile, (ReadString_newline_eof _ Hline).
    by rewrite (bind_Ret _ _ _ _ _ _ (logError_returns _ _ _ Hsink)).
  - unfold I18n.readLangLabel.
    by rewrite bind_gets, Hfile, (ReadString_newline_eof _ Hline).
Qed.

(** X4.  [ReadLangFromBytes] on the bytes of a file and
    [ReadLangFromFileName] on the file end the same way and return the
    same descriptor, when the first line ends in a newline and holds no
    carriage return, and the error sink returns. *)
Theorem ReadLangFromBytes_agrees_with_file fileName line rest (s : State) :
  files s !! fileName = Some (line +:+ String newline rest) ->
  has_char newline line = false ->
  has_char carriage_return line = false ->
  sink_returns (logErrorFunc s) ->
  outcome (Options.ReadLangFromBytes (Some (line +:+ String newline rest)) fileName s)
  = outcome (Options.ReadLangFromFileName fileName s).
Proof.
  intros Hfile Hline Hcr Hsink.
  unfold Options.ReadLangFromBytes, Options.ReadLangFromFileName.
  rewrite bind_gets, Hfile, (ReadString_newline_line _ _ Hline),
    (first_line_line _ _ Hline Hcr), (ReadLangLabel_before_newline _ Hline).
  destruct (length (ReadLangLabel line) <? 2)%nat; [|done].
  by rewrite !(bind_Ret _ _ _ _ _ _ (logError_returns _ _ _ Hsink)).
Qed.

(** X5.  The descriptor [ReadLangFromBytes] returns carries the file
    name it was given and no data: the bytes are not kept and no variable
    is assigned.  So [LoadLanguage] of that descriptor reads the file of
    that name, and does not succeed when that file fails to load. *)
Theorem ReadLangFromBytes_keeps_no_bytes data fileName (s : State) l :
  outcome (Options.ReadLangFromBytes data fileName s) = Ret (Some l) ->
  Lang_FileName l = fileName
  /\ Lang_Data l = None
  /\ final (Options.ReadLangFromBytes data fileName s) = s
  /\ forall (s' : State) e, file_load_fails s' l e ->
       outcome (Options.LoadLanguage (Some l) s') <> Ret None.
Proof.
  unfold Options.ReadLangFromBytes. destruct data as [bytes|]; [|done].
  destruct (length _ <? 2)%nat eqn:Hlen.
  { by intros (? & _ & [=] & _)%bind_Ret_inv. }
  intros Hout.
  assert (Hfinal : final (bind (index0 (parseTags (nth 0 (ReadLangLabel (first_line bytes)) "")))
                    (fun tag => ret (Some {| Lang_Name := nth 1 (ReadLangLabel (first_line bytes)) "";
                       Lang_Tag := tag; Lang_FileName := fileName; Lang_Data := None |})) s) = s).
  { apply bind_final; [apply index0_final|done]. }
  apply bind_Ret_inv in Hout as (tag & _ & [= <-] & _).
  split; [done|]. split; [done|]. split; [done|].
  intros s' e (p & b & b' & Hp & Hb & Hload).
  apply (LoadLanguage_failure s' _ e). by exists p, b, b'.
Qed.

(** X25.  A package file whose first line is a label,
    [# [i18n] <tag> <name>], with a tag string of which
    [ParseAcceptLanguage] makes at least one tag, is read by
    [ReadLangFromFileName] as the descriptor with that name, the first of
    the tags, the name of the file and no data; nothing is logged and no
    variable is assigned.  [readLangLabel] of the second revision reads
    the same two labels. *)
Theorem ReadLangFromFileName_reads_label fileName tagRaw name rest (s : State) t ts :
  files s !! fileName
  = Some ("# [i18n] <" +:+ tagRaw +:+ "> <" +:+ name +:+ ">"
          +:+ String newline rest) ->
  has_char newline tagRaw = false ->
  has_char newline name = false ->
  has_char ">" name = false ->
  ParseAcceptLanguage tagRaw = (t :: ts, None) ->
  Options.ReadLangFromFileName fileName s
  = mkRun (Ret (Some {| Lang_Name := name; Lang_Tag := t;
                        Lang_FileName := fileName; Lang_Data := None |})) s []
  /\ I18n.readLangLabel fileName s = mkRun (Ret [tagRaw; name]) s [].
Proof.
  intros Hfile Htag Hname Hgt Hparse.
  assert (Hline : GoStrings.ReadString_newline
                    ("# [i18n] <" +:+ tagRaw +:+ "> <" +:+ name +:+ ">"
                     +:+ String newline rest)
                  = ("# [i18n] <" +:+ tagRaw +:+ "> <" +:+ name +:+ ">"
                     +:+ String newline "", false)).
  { pose proof (ReadString_newline_line
                  ("# [i18n] <" +:+ tagRaw +:+ "> <" +:+ name +:+ ">") rest) as Hread.
    rewrite !append_assoc in Hread. apply Hread.
    rewrite !has_char_append, Htag, Hname. reflexivity. }
  assert (Hlabel : ReadLangLabel ("# [i18n] <" +:+ tagRaw +:+ "> <" +:+ name +:+ ">"
                                  +:+ String newline "") = [tagRaw; name]).
  { apply ReadLangLabel_label; [done..|right; by eexists]. }
  split.
  - unfold Options.ReadLangFromFileName.
    rewrite bind_gets, Hfile, Hline, Hlabel. cbn [length Nat.ltb Nat.leb nth].
    unfold parseTags. rewrite Hparse. reflexivity.
  - unfold I18n.readLangLabel. rewrite bind_gets, Hfile, Hline. cbn [fst].
    by rewrite Hlabel.
Qed.

End reading.

Section use_and_switch.
Context `{Host}.

Lemma Localize_final d id data n (s : State) :
  final (Localize d id data n s) = s.
Proof.
  unfold Localize. rewrite !bind_gets.
  destruct (Localizer s) as [l|]; [|done].
  destruct (localizer_bundle l ≫= _) as [b|]; [|done].
  destruct (Localizer_Localize _ _ _) as [text [e|]]; [|done].
  apply bind_final; [apply logError_final|done].
Qed.

(** X23.  [Localize] (and so [T], [TC], [TData] and [TCData], which
    are calls of it) assigns no package variable and invokes no switch
    callback, however it ends; it logs nothing, or one record of error
    severity that carries the adapter's error. *)
Theorem Localize_is_read_only d id data n (s : State) :
  let r := Localize d id data n s in
  final r = s
  /\ calls (emitted r) = []
  /\ (emitted r = []
      \/ exists err, emitted r = [EvLog SevError "[i18n] i18n error: %v" [VError err]]).
Proof.
  cbn zeta. split; [apply Localize_final|].
  unfold Localize. rewrite !bind_gets.
  destruct (Localizer s) as [l|]; [|by split; [|left]].
  destruct (localizer_bundle l ≫= _) as [b|]; [|by split; [|left]].
  destruct (Localizer_Localize _ _ _) as [text [e|]]; [|by split; [|left]].
  unfold bind, logError, call_sink, gets, emit, ret, panic, exit. cbn.
  destruct (logErrorFunc s) as [k|]; cbn; [|by split; [|left]].
  destruct (sink_outcome k _ _); cbn; (split; [done|right; by exists e]).
Qed.

Lemma LoadLanguage_success (s : State) l p b b' :
  bundle s = Some p -> bundles s !! p = Some b ->
  match Lang_Data l with
  | Some bytes => ParseMessageFileBytes bytes (Lang_FileName l) b
  | None => LoadMessageFile (files s) (Lang_FileName l) b
  end = (b', None) ->
  Options.LoadLanguage (Some l) s
  = mkRun (Ret None) (set_bundles (<[p := b']> (bundles s)) s) [].
Proof.
  intros Hp Hb Hload. unfold Options.LoadLanguage. rewrite bind_gets.
  rewrite (bind_Ret_nil (on_bundle _) _ s
             (set_bundles (<[p := b']> (bundles s)) s) None);
    [done|apply (on_bundle_run _ s p b b'); by destruct (Lang_Data l)].
Qed.

Lemma logInfo_returns format args (s : State) :
  sink_returns (logInfoFunc s) ->
  logInfo format args s = mkRun (Ret tt) s [EvLog SevInfo format args].
Proof. apply call_sink_returns. Qed.

Lemma range_callbackDataMap_empty order (s : State) :
  callbackDataMap s = ∅ -> range_callbackDataMap order s = mkRun (Ret tt) s [].
Proof.
  intros Hempty. induction order as [|k rest IH]; [done|].
  cbn [range_callbackDataMap]. unfold visit at 1.
  rewrite bind_assoc, bind_gets, Hempty, lookup_empty, bind_ret. exact IH.
Qed.

Lemma Localize_success d id data n (s : State) p b langs text :
  Localizer s = Some (mkLocalizer (Some p) langs) ->
  bundles s !! p = Some b ->
  Localizer_Localize b langs (mkLocalizeConfig _ id data n) = (text, None) ->
  Localize d id data n s = mkRun (Ret text) s [].
Proof.
  intros Hloc Hb Htext. unfold Localize. rewrite !bind_gets, Hloc. cbn.
  by rewrite Hb, Htext.
Qed.

(** X6.  [UseLanguage] assigns [Language] before it loads: when the
    load fails, [Language] already names the language that could not be
    loaded, while [Localizer] is the one from before.  The only value it
    can return is the load error, and it does return it when the error
    sink returns. *)
Theorem UseLanguage_assigns_before_load (l : Lang) (s : State) (e : error) :
  load_fails s l e ->
  let r := Options.UseLanguage (Some l) s in
  Language (final r) = Some l
  /\ Localizer (final r) = Localizer s
  /\ (forall x, outcome r = Ret x -> x = Some (load_error l e))
  /\ (sink_returns (logErrorFunc s) -> outcome r = Ret (Some (load_error l e))).
Proof.
  intros (p & b & b' & Hp & Hb & Hload) r. subst r.
  unfold Options.UseLanguage. rewrite bind_modify.
  set (s1 := set_Language (Some l) s).
  assert (Hfail : load_fails s1 l e) by (by exists p, b, b').
  destruct (LoadLanguage_failure s1 l e Hfail)
    as (_ & Hlang & Hloc & Hne & Hval & Hret).
  unfold bind.
  destruct (Options.LoadLanguage (Some l) s1) as [o f ev].
  cbn [outcome final emitted] in *.
  destruct o as [[e'|]| |]; cbn [outcome final emitted]; try done.
  rewrite (Hval e' eq_refl) in *.
  repeat split; try done. by intros x [= <-].
Qed.

(** X7.  After [UseLanguage] of a language whose catalog loads, and
    after [SwitchLanguage] to it while no callback is registered,
    [Language] is that language and [Localize] answers from the bundle
    with the new catalog loaded into it, for the tag of the new language:
    a text the adapter finds there is the text [Localize] returns. *)
Theorem UseLanguage_then_Localize (l : Lang) (s : State) p b b' :
  bundle s = Some p -> bundles s !! p = Some b ->
  match Lang_Data l with
  | Some bytes => ParseMessageFileBytes bytes (Lang_FileName l) b
  | None => LoadMessageFile (files s) (Lang_FileName l) b
  end = (b', None) ->
  sink_returns (logInfoFunc s) ->
  (outcome (Options.UseLanguage (Some l) s) = Ret None
   /\ Language (final (Options.UseLanguage (Some l) s)) = Some l
   /\ forall d id data n text,
        Localizer_Localize b' [Tag_String (Lang_Tag l)]
          (mkLocalizeConfig _ id data n) = (text, None) ->
        outcome (Localize d id data n (final (Options.UseLanguage (Some l) s)))
        = Ret text)
  /\ (forall order, callbackDataMap s = ∅ ->
      outcome (Options.SwitchLanguage order (Some l) s) = Ret None
      /\ Language (final (Options.SwitchLanguage order (Some l) s)) = Some l
      /\ forall d id data n text,
           Localizer_Localize b' [Tag_String (Lang_Tag l)]
             (mkLocalizeConfig _ id data n) = (text, None) ->
           outcome (Localize d id data n
                      (final (Options.SwitchLanguage order (Some l) s)))
           = Ret text).
Proof.
  intros Hp Hb Hload Hinfo.
  assert (Hlt : (p < length (bundles s))%nat) by (by eapply lookup_lt_Some).
  split.
  - unfold Options.UseLanguage. rewrite bind_modify.
    rewrite (bind_Ret_nil _ _ _ _ _
               (LoadLanguage_success (set_Language (Some l) s) l p b b' Hp Hb Hload)).
    rewrite (bind_Ret_nil _ _ _ _ _ (NewLocalizer_run _ _)), bind_modify.
    match goal with |- context [bind _ _ ?s2] =>
      rewrite (bind_Ret _ _ s2 _ _ _ (logInfo_returns _ _ s2 Hinfo)) end.
    cbn. split; [done|]. split; [done|]. intros d id data n text Htext.
    erewrite Localize_success; [done|cbn; by rewrite Hp| |done].
    cbn. by apply list_lookup_insert_eq.
  - intros order Hempty. unfold Options.SwitchLanguage.
    rewrite (bind_Ret_nil _ _ _ _ _ (LoadLanguage_success s l p b b' Hp Hb Hload)).
    rewrite (bind_Ret_nil _ _ _ _ _ (NewLocalizer_run _ _)), !bind_modify.
    match goal with |- context [bind _ _ ?s2] =>
      rewrite (bind_Ret _ _ s2 _ _ _ (logInfo_returns _ _ s2 Hinfo)) end.
    cbn.
    match goal with |- context [bind _ _ ?s2] =>
      rewrite (bind_Ret_nil _ _ s2 _ _ (range_callbackDataMap_empty order s2 Hempty))
    end.
    cbn. split; [done|]. split; [done|]. intros d id data n text Htext.
    erewrite Localize_success; [done|cbn; by rewrite Hp| |done].
    cbn. by apply list_lookup_insert_eq.
Qed.

End use_and_switch.

Section registry_more.
Context `{Host}.

Lemma next_id_succ n : (n + 1 < 2 ^ 32)%N -> next_id n = (n + 1)%N.
Proof. intros Hlt. unfold next_id. by apply N.mod_small. Qed.

(** Nothing is stored under a key the counter has not reached. *)
Lemma keys_allocated_next_free (s : State) :
  keys_allocated s ->
  callbackDataMap s !! (currentCallbackDataId s + 1)%N = None.
Proof.
  intros Hkeys. destruct (callbackDataMap s !! _) eqn:Hk; [|done].
  destruct (Hkeys _ (mk_is_Some _ _ Hk)). lia.
Qed.

(** An entry with the zero [CallbackId] is stored under the next key. *)
Lemma AddSwitchCallback_zero_id (s : State) (data : CallbackData) :
  keys_allocated s ->
  (currentCallbackDataId s + 1 < 2 ^ 32)%N ->
  CallbackId data = 0%N ->
  AddSwitchCallback (Some data) s
  = mkRun (Ret tt)
      (set_callbackDataMap
         (<[(currentCallbackDataId s + 1)%N := data]> (callbackDataMap s))
         (set_currentCallbackDataId (currentCallbackDataId s + 1)%N s))
      [].
Proof.
  intros Hkeys Hlt Hzero.
  assert (Hfound : callbackDataMap s !! CallbackId data = None).
  { rewrite Hzero. destruct (callbackDataMap s !! 0%N) eqn:Hk; [|done].
    destruct (Hkeys 0%N (mk_is_Some _ _ Hk)). lia. }
  by rewrite (AddSwitchCallback_stores s data Hfound), next_id_succ.
Qed.

(** X17.  While the counter has not wrapped around, [AddSwitchCallback]
    never replaces or removes an entry of the registry, and the keys stay
    between 1 and the counter; an entry whose [CallbackId] is zero is
    always stored, under the next key. *)
Theorem AddSwitchCallback_never_replaces (s : State) (data : CallbackData) :
  keys_allocated s ->
  (currentCallbackDataId s + 1 < 2 ^ 32)%N ->
  let s' := final (AddSwitchCallback (Some data) s) in
  callbackDataMap s ⊆ callbackDataMap s'
  /\ keys_allocated s'
  /\ (CallbackId data = 0%N ->
      callbackDataMap s !! (currentCallbackDataId s + 1)%N = None
      /\ callbackDataMap s'
         = <[(currentCallbackDataId s + 1)%N := data]> (callbackDataMap s)).
Proof.
  intros Hkeys Hlt.
  pose proof (keys_allocated_next_free s Hkeys) as Hfree.
  destruct (callbackDataMap s !! CallbackId data) as [found|] eqn:Hfound.
  - assert (Hfinal : final (AddSwitchCallback (Some data) s) = s).
    { unfold AddSwitchCallback. rewrite bind_gets, Hfound.
      destruct (notOrigin found); [done|apply logError_final]. }
    cbn zeta. rewrite Hfinal. split; [done|]. split; [done|].
    intros Hzero. rewrite Hzero in Hfound.
    destruct (Hkeys 0%N (mk_is_Some _ _ Hfound)). lia.
  - cbn zeta. rewrite (AddSwitchCallback_stores s data Hfound), next_id_succ by done.
    cbn. split; [by apply insert_subseteq|]. split; [|done].
    intros k [d Hk]. cbn in Hk |- *.
    apply lookup_insert_Some in Hk as [[<- _]|[Hne Hk]]; [lia|].
    destruct (Hkeys k (mk_is_Some _ _ Hk)). lia.
Qed.

(** X18.  Every [TCDataCallback] that returns adds an entry to the
    registry, when the functions of the caller leave the registry and its
    counter alone: the entry it builds has the zero [CallbackId], and
    nothing is stored under key zero.  The function of that entry is this
    very call ([invoke] runs it), so every switch that invokes the entry
    adds one more. *)
Theorem TCDataCallback_registers_again defaultLocalized id data callback (s : State) :
  callbacks_keep_registry ->
  callbacks_keep_counter ->
  keys_allocated s ->
  (currentCallbackDataId s + 1 < 2 ^ 32)%N ->
  outcome (TCDataCallback defaultLocalized id data callback s) = Ret tt ->
  callbackDataMap (final (TCDataCallback defaultLocalized id data callback s))
  = <[(currentCallbackDataId s + 1)%N :=
        {| Callback := Some (CbLocalized defaultLocalized id data callback);
           CallbackId := 0; notOrigin := true |}]> (callbackDataMap s)
  /\ size (callbackDataMap (final (TCDataCallback defaultLocalized id data callback s)))
     = S (size (callbackDataMap s)).
Proof.
  intros Hmap Hcounter Hkeys Hlt. unfold TCDataCallback.
  intros (text & _ & Hrest & -> & _)%bind_Ret_inv.
  rewrite Localize_final in Hrest |- *.
  apply bind_Ret_inv in Hrest as (v & Hcall & Hadd & -> & _).
  destruct callback as [f|]; [|done].
  rewrite call_fn_final in Hadd |- *.
  set (s1 := (call_func f [VString text] s).2) in *.
  assert (Hmap1 : callbackDataMap s1 = callbackDataMap s) by apply Hmap.
  assert (Hcounter1 : currentCallbackDataId s1 = currentCallbackDataId s)
    by apply Hcounter.
  assert (Hkeys1 : keys_allocated s1).
  { intros k. rewrite Hmap1, Hcounter1. apply Hkeys. }
  assert (Hlt1 : (currentCallbackDataId s1 + 1 < 2 ^ 32)%N) by (by rewrite Hcounter1).
  pose proof (keys_allocated_next_free s1 Hkeys1) as Hfree.
  rewrite (AddSwitchCallback_zero_id s1
             {| Callback := Some (CbLocalized defaultLocalized id data (Some f));
                CallbackId := 0; notOrigin := true |} Hkeys1 Hlt1 eq_refl).
  cbn [final callbackDataMap set_callbackDataMap].
  rewrite Hmap1, Hcounter1 in *. split; [done|].
  by rewrite map_size_insert_None.
Qed.

(** X19.  [TCDataCallback] registers last.  With a nil callback it
    does not return and leaves every variable as it was; and while
    [Localizer] is nil it panics on the nil dereference, whatever the
    callback, and so does [TCallback]. *)
Theorem TCDataCallback_registers_last defaultLocalized id data (s : State) :
  (final (TCDataCallback defaultLocalized id data None s) = s
   /\ forall u, outcome (TCDataCallback defaultLocalized id data None s) <> Ret u)
  /\ (Localizer s = None ->
      forall callback,
        TCDataCallback defaultLocalized id data callback s
        = mkRun (Panic NilDereference) s []
        /\ TCallback id callback s = mkRun (Panic NilDereference) s []).
Proof.
  split.
  - unfold TCDataCallback. split.
    + apply bind_final; [apply Localize_final|]. intros text.
      reflexivity.
    + intros u (text & _ & Hrest & _)%bind_Ret_inv.
      by apply bind_Ret_inv in Hrest as (? & [=] & _).
  - intros Hnil callback.
    assert (HL : forall d i dt n,
               Localize d i dt n s = mkRun (Panic NilDereference) s []).
    { intros. unfold Localize. rewrite !bind_gets. by rewrite Hnil. }
    unfold TCallback, TDataCallback, TCDataCallback, bind. by rewrite !HL.
Qed.






End registry_more.

Section frames.
Context `{Host}.

Lemma keeps_bind_gen {A B C} (f : State -> C) (m : M A) (k : A -> M B) :
  keeps f m -> (forall a, keeps f (k a)) -> keeps f (bind m k).
Proof.
  intros Hm Hk s. unfold bind. specialize (Hm s).
  destruct (m s) as [[a| |] s' ev]; cbn in *; [|done..].
  by rewrite Hk.
Qed.

Lemma keeps_silent {A C} (f : State -> C) (m : M A) :
  (forall s, final (m s) = s) -> keeps f m.
Proof. intros Hm s. by rewrite Hm. Qed.

Lemma keeps_modify {C} (f : State -> C) g :
  (forall s, f (g s) = f s) -> keeps f (modify g).
Proof. intros Hg s. apply Hg. Qed.

Lemma keeps_ret_gen {A C} (f : State -> C) (a : A) : keeps f (ret a).
Proof. done. Qed.

Lemma keeps_gets_gen {A C} (f : State -> C) (g : State -> A) : keeps f (gets g).
Proof. done. Qed.

Lemma keeps_panic_gen {A C} (f : State -> C) fault : keeps f (@panic _ _ A fault).
Proof. done. Qed.

Lemma keeps_log_gen {C} (f : State -> C) severity var format args :
  keeps f (call_sink severity var format args).
Proof. apply keeps_silent. intros s. apply call_sink_frame. Qed.

End frames.

(** Steps through a computation built from the parts above, for a
    projection [f] that the assignments met on the way leave alone. *)
Ltac frame :=
  repeat first
    [ apply keeps_ret_gen | apply keeps_gets_gen | apply keeps_panic_gen
    | apply keeps_log_gen
    | apply keeps_modify; intros; reflexivity
    | apply keeps_silent; intros;
      first [ apply option_string_final | apply index0_final ]
    | apply keeps_bind_gen
    | progress lazy beta
    | match goal with
      | |- forall _, _ => intro
      | |- keeps _ (match ?x with _ => _ end) => destruct x
      end ].

Section initialization_more.
Context `{Host}.

Lemma PackageListByPatternFunc_final options (s : State) :
  final (Options.PackageListByPatternFunc options s) = s.
Proof.
  unfold Options.PackageListByPatternFunc.
  apply bind_final; [apply pattern_of_options_final|]. intros p.
  destruct (bool_decide (p = "")).
  { apply bind_final; [apply logError_final|done]. }
  rewrite bind_gets. destruct (Glob (files s) p) as [packages [e|]].
  { apply bind_final; [apply logError_final|done]. }
  apply bind_final; [apply range_packages_final|]. intros languages.
  apply bind_final; [apply logInfo_final|done].
Qed.

Section projection.
Context {C : Type} (f : State -> C).
Hypothesis f_logInfoFunc : forall v s, f (set_logInfoFunc v s) = f s.
Hypothesis f_unmarshalFunc : forall v s, f (set_unmarshalFunc v s) = f s.
Hypothesis f_packageListFunc : forall v s, f (set_packageListFunc v s) = f s.
Hypothesis f_DefaultLang : forall v s, f (set_DefaultLang v s) = f s.
Hypothesis f_bundle : forall v s, f (set_bundle v s) = f s.
Hypothesis f_bundles : forall v s, f (set_bundles v s) = f s.
Hypothesis f_Languages : forall v s, f (set_Languages v s) = f s.
Hypothesis f_Language : forall v s, f (set_Language v s) = f s.
Hypothesis f_Localizer : forall v s, f (set_Localizer v s) = f s.

Lemma keeps_on_bundle_gen method : keeps f (on_bundle method).
Proof.
  unfold on_bundle. apply keeps_bind_gen; [done|]. intros p.
  apply keeps_bind_gen; [done|]. intros bs.
  destruct p as [p|]; [|done]. destruct (bs !! p) as [b|]; [|done].
  destruct (method b) as [b' err].
  apply keeps_bind_gen; [|done]. by apply keeps_modify.
Qed.

Lemma keeps_LoadLanguage_gen lang : keeps f (Options.LoadLanguage lang).
Proof.
  unfold Options.LoadLanguage. destruct lang as [l|]; [|done].
  apply keeps_bind_gen; [done|]. intros fs.
  apply keeps_bind_gen; [apply keeps_on_bundle_gen|]. intros [e|]; [|done].
  apply keeps_bind_gen; [apply keeps_log_gen|done].
Qed.

(** An option other than [LogErrorFunc] is applied without touching
    what [f] reads. *)
Lemma keeps_apply_option loc option :
  Option_OptionType option <> LogErrorFunc \/
    (forall v s, f (set_logErrorFunc v s) = f s) ->
  keeps f (Options.apply_option loc option).
Proof.
  intros Hsink. unfold Options.apply_option. cbn zeta.
  repeat match goal with
         | |- context [(?a =? ?b)%Z] => destruct (Z.eqb_spec a b)
         end;
    try (apply keeps_bind_gen; [by apply keeps_modify|done]);
    try done.
  - destruct Hsink as [Hne|Hf]; [done|].
    apply keeps_bind_gen; [by apply keeps_modify|done].
  - apply keeps_bind_gen;
      [apply keeps_silent; intros; apply option_string_final|]. intros fmt.
    destruct (Options.existPackagePath loc); [|done].
    apply keeps_bind_gen;
      [apply keeps_silent; intros; apply option_string_final|done].
  - apply keeps_bind_gen;
      [apply keeps_silent; intros; apply option_string_final|done].
  - apply keeps_bind_gen;
      [apply keeps_silent; intros; apply option_string_final|done].
Qed.

Lemma keeps_apply_options loc options :
  Forall (fun o => Option_OptionType o <> LogErrorFunc) options \/
    (forall v s, f (set_logErrorFunc v s) = f s) ->
  keeps f (Options.apply_options loc options).
Proof.
  intros Hsink. revert loc. induction options as [|o rest IH]; intros loc; [done|].
  cbn [Options.apply_options]. apply keeps_bind_gen.
  - apply keeps_apply_option. destruct Hsink as [Hall|Hf]; [left|by right].
    by apply Forall_cons in Hall as [? _].
  - intros loc'. apply IH. destruct Hsink as [Hall|Hf]; [left|by right].
    by apply Forall_cons in Hall as [_ ?].
Qed.

Lemma keeps_UseLanguage_gen lang : keeps f (Options.UseLanguage lang).
Proof.
  unfold Options.UseLanguage.
  apply keeps_bind_gen; [by apply keeps_modify|]. intros _.
  apply keeps_bind_gen; [apply keeps_LoadLanguage_gen|]. intros [e|]; [done|].
  destruct lang as [l|]; [|done].
  apply keeps_bind_gen; [done|]. intros loc.
  apply keeps_bind_gen; [by apply keeps_modify|]. intros _.
  apply keeps_bind_gen; [apply keeps_log_gen|done].
Qed.

Lemma keeps_use_first_match_gen lang languages :
  keeps f (Options.use_first_match lang languages).
Proof.
  induction languages as [|[l|] rest IH]; cbn; [done| |done].
  destruct (bool_decide (Lang_Tag lang = Lang_Tag l)); [|done].
  apply keeps_UseLanguage_gen.
Qed.

Lemma keeps_after_discovery lang found : keeps f (Options.after_discovery lang found).
Proof.
  unfold Options.after_discovery. destruct found as [packageList [err|]]; [done|].
  apply keeps_bind_gen; [by apply keeps_modify|]. intros _.
  destruct (bool_decide (packageList = [])).
  { apply keeps_bind_gen; [apply keeps_log_gen|done]. }
  apply keeps_bind_gen; [apply keeps_use_first_match_gen|]. intros [e|]; [done|].
  apply keeps_bind_gen; [apply keeps_log_gen|done].
Qed.

(** [InitI18nWithOptions] from [SetDefaultLang] to the call of the
    discovery. *)
Lemma keeps_bundle_setup (lang : Lang) fmt :
  keeps f
    (logInfo "[i18n] InitI18n started" [] ;;;
     new_bundle (Lang_Tag lang) ;;;
     u <- gets unmarshalFunc ;;
     on_bundle (fun b => (RegisterUnmarshalFunc fmt (default toml_Unmarshal u) b,
                          None)) ;;;
     logInfo "[i18n] Registered unmarshal func for %s" [VString fmt] ;;;
     ret lang).
Proof.
  unfold new_bundle.
  apply keeps_bind_gen; [apply keeps_log_gen|]. intros _.
  apply keeps_bind_gen.
  { apply keeps_bind_gen; [done|]. intros bs.
    apply keeps_bind_gen; [by apply keeps_modify|].
    intros _. by apply keeps_modify. }
  intros _. apply keeps_bind_gen; [done|]. intros u.
  apply keeps_bind_gen; [apply keeps_on_bundle_gen|]. intros _.
  apply keeps_bind_gen; [apply keeps_log_gen|done].
Qed.

(** [InitI18nWithOptions] from the end of the option loop to the call
    of the discovery. *)
Lemma keeps_before_discovery_tail (lang : option Lang) fmt :
  keeps f
    (lang <- match lang with
             | Some l => ret l
             | None =>
                 logInfo "[i18n] Not special language, default using %s (%s)"
                   [VString (Lang_Name Options.English);
                    VString (Tag_String (Lang_Tag Options.English))] ;;;
                 ret Options.English
             end ;;
     SetDefaultLang lang ;;;
     logInfo "[i18n] InitI18n started" [] ;;;
     new_bundle (Lang_Tag lang) ;;;
     u <- gets unmarshalFunc ;;
     on_bundle (fun b => (RegisterUnmarshalFunc fmt (default toml_Unmarshal u) b,
                          None)) ;;;
     logInfo "[i18n] Registered unmarshal func for %s" [VString fmt] ;;;
     ret lang).
Proof.
  apply keeps_bind_gen.
  { destruct lang; [done|]. apply keeps_bind_gen; [apply keeps_log_gen|done]. }
  intros l. unfold SetDefaultLang.
  apply keeps_bind_gen.
  { apply keeps_bind_gen; [by apply keeps_modify|done]. }
  intros _. apply keeps_bundle_setup.
Qed.

End projection.

Lemma apply_option_Locals loc option (s : State) loc' :
  outcome (Options.apply_option loc option s) = Ret loc' ->
  (Option_OptionType option <> PackageListFunc ->
     Options.pListFunc loc' = Options.pListFunc loc)
  /\ (Option_OptionType option <> PackagePath ->
      Option_OptionType option <> PackagePattern ->
      Options.existPackagePath loc = false ->
      Options.langFilesPattern loc' = Options.langFilesPattern loc
      /\ Options.existPackagePath loc' = false).
Proof.
  unfold Options.apply_option. cbn zeta.
  repeat match goal with
         | |- context [(?a =? ?b)%Z] => destruct (Z.eqb_spec a b)
         end;
    try destruct (Options.existPackagePath loc) eqn:Hexist;
    intros Hout;
    repeat (apply bind_Ret_inv in Hout as (? & _ & Hout & _));
    injection Hout as <-; cbn; split; intros; try done; try congruence.
Qed.

Lemma apply_options_Locals loc options (s : State) loc' :
  outcome (Options.apply_options loc options s) = Ret loc' ->
  (Forall (fun o => Option_OptionType o <> PackageListFunc) options ->
     Options.pListFunc loc' = Options.pListFunc loc)
  /\ (Forall (fun o => Option_OptionType o <> PackagePath
                       /\ Option_OptionType o <> PackagePattern) options ->
      Options.existPackagePath loc = false ->
      Options.langFilesPattern loc' = Options.langFilesPattern loc
      /\ Options.existPackagePath loc' = false).
Proof.
  revert loc s. induction options as [|o rest IH]; intros loc s.
  { intros [= <-]. done. }
  cbn [Options.apply_options].
  intros (loc1 & Hone & Hrest & _)%bind_Ret_inv.
  apply apply_option_Locals in Hone as [Hlister Hpattern].
  apply IH in Hrest as [Hlister' Hpattern']. split.
  - intros [Ho Hall]%Forall_cons. by rewrite Hlister', Hlister.
  - intros [[Ho1 Ho2] Hall]%Forall_cons Hexist.
    destruct (Hpattern Ho1 Ho2 Hexist) as [Hp He].
    destruct (Hpattern' Hall He) as [Hp' He']. by rewrite Hp', Hp.
Qed.

Lemma before_discovery_tail_result (lang : option Lang) fmt lister (s : State) l' :
  outcome
    ((modify (set_packageListFunc (Some lister)) ;;;
      lang <- match lang with
              | Some l => ret l
              | None =>
                  logInfo "[i18n] Not special language, default using %s (%s)"
                    [VString (Lang_Name Options.English);
                     VString (Tag_String (Lang_Tag Options.English))] ;;;
                  ret Options.English
              end ;;
      SetDefaultLang lang ;;;
      logInfo "[i18n] InitI18n started" [] ;;;
      new_bundle (Lang_Tag lang) ;;;
      u <- gets unmarshalFunc ;;
      on_bundle (fun b => (RegisterUnmarshalFunc fmt (default toml_Unmarshal u) b,
                           None)) ;;;
      logInfo "[i18n] Registered unmarshal func for %s" [VString fmt] ;;;
      ret lang) s) = Ret l' ->
  l' = requested lang.
Proof.
  rewrite bind_modify. intros (l0 & Hl0 & Hrest & _)%bind_Ret_inv.
  assert (l0 = requested lang) as ->.
  { destruct lang as [l|]; [by injection Hl0|].
    by apply bind_Ret_inv in Hl0 as (_ & _ & [= <-] & _). }
  repeat (apply bind_Ret_inv in Hrest as (? & _ & Hrest & _)).
  by injection Hrest.
Qed.

(** What [InitI18nWithOptions] has settled when it calls the discovery. *)
Lemma before_discovery_inv lang options (s : State) l' :
  outcome (Options.before_discovery lang options s) = Ret l' ->
  l' = requested lang
  /\ exists lister,
       packageListFunc (final (Options.before_discovery lang options s))
       = Some lister
       /\ (Forall (fun o => Option_OptionType o <> PackageListFunc) options ->
           exists pattern, lister = ListByPattern pattern
             /\ (Forall (fun o => Option_OptionType o <> PackagePath
                                  /\ Option_OptionType o <> PackagePattern) options ->
                 pattern = "lang/*.lang")).
Proof.
  unfold Options.before_discovery. rewrite !bind_modify.
  intros (loc & Hloc & Hrest & -> & _)%bind_Ret_inv.
  apply apply_options_Locals in Hloc as [Hlister Hpattern]. cbn in Hlister, Hpattern.
  split; [by apply before_discovery_tail_result in Hrest|].
  eexists. split.
  { rewrite bind_modify. lazy beta.
    by rewrite (keeps_before_discovery_tail packageListFunc). }
  intros Hall. rewrite (Hlister Hall).
  eexists. split; [done|]. intros Hall'.
  by destruct (Hpattern Hall' eq_refl) as [-> _].
Qed.

Lemma LoadLanguage_Ret l (s : State) err :
  outcome (Options.LoadLanguage (Some l) s) = Ret err ->
  match err with
  | None => True
  | Some e' => exists e0, e' = load_error l e0
  end.
Proof.
  unfold Options.LoadLanguage. rewrite bind_gets.
  intros ([e0|] & _ & Hrest & _)%bind_Ret_inv.
  - apply bind_Ret_inv in Hrest as (_ & _ & [= <-] & _). by exists e0.
  - by injection Hrest as <-.
Qed.

Lemma UseLanguage_Ret l (s : State) e :
  outcome (Options.UseLanguage (Some l) s) = Ret e ->
  Language (final (Options.UseLanguage (Some l) s)) = Some l
  /\ match e with
     | None =>
         Localizer (final (Options.UseLanguage (Some l) s))
         = Some (mkLocalizer (bundle (final (Options.UseLanguage (Some l) s)))
                   [Tag_String (Lang_Tag l)])
     | Some e' =>
         Localizer (final (Options.UseLanguage (Some l) s)) = Localizer s
         /\ exists e0, e' = load_error l e0
     end.
Proof.
  unfold Options.UseLanguage. rewrite bind_modify.
  intros (err & Hload & Hrest & -> & _)%bind_Ret_inv.
  pose proof (keeps_LoadLanguage_gen (fun s => (Language s, Localizer s))
                ltac:(done) (Some l) (set_Language (Some l) s)) as Hkeep.
  apply LoadLanguage_Ret in Hload.
  set (s1 := final (Options.LoadLanguage (Some l) (set_Language (Some l) s))) in *.
  cbn in Hkeep. injection Hkeep as Hlang Hloc.
  destruct err as [e'|].
  - injection Hrest as <-. cbn. by rewrite Hlang, Hloc.
  - rewrite (bind_Ret_nil _ _ _ _ _ (NewLocalizer_run _ _)), bind_modify in Hrest |- *.
    apply bind_Ret_inv in Hrest as (_ & _ & [= <-] & _).
    rewrite (bind_final _ _ _ (logInfo_final _ _ _)); [|done]. by cbn.
Qed.

Lemma use_first_match_inv lang ls (s : State) e :
  outcome (Options.use_first_match lang ls s) = Ret e ->
  (Forall (other_tag lang) ls /\ e = None
   /\ final (Options.use_first_match lang ls s) = s)
  \/ exists pre l post,
       ls = pre ++ Some l :: post
       /\ Forall (other_tag lang) pre
       /\ Lang_Tag l = Lang_Tag lang
       /\ outcome (Options.UseLanguage (Some l) s) = Ret e
       /\ final (Options.use_first_match lang ls s)
          = final (Options.UseLanguage (Some l) s).
Proof.
  induction ls as [|[l|] rest IH]; cbn [Options.use_first_match].
  - intros [= <-]. by left.
  - destruct (bool_decide (Lang_Tag lang = Lang_Tag l)) eqn:Htag.
    + apply bool_decide_eq_true in Htag. intros Hout. right.
      by exists [], l, rest.
    + apply bool_decide_eq_false in Htag. intros Hout.
      assert (Hother : other_tag lang (Some l)).
      { exists l. split; [done|]. by intros Heq. }
      destruct (IH Hout) as [(Hall & -> & Hfin)|
                             (pre & l1 & post & -> & Hall & Heq & Hout1 & Hfin)].
      * left. by repeat split; [constructor|..].
      * right. exists (Some l :: pre), l1, post.
        by repeat split; [constructor|..].
  - done.
Qed.

Lemma after_discovery_inv lang found (s : State) e :
  outcome (Options.after_discovery lang found s) = Ret e ->
  exists ls,
    found = (ls, None) /\ ls <> []
    /\ outcome (Options.use_first_match lang ls (set_Languages ls s)) = Ret e
    /\ final (Options.after_discovery lang found s)
       = final (Options.use_first_match lang ls (set_Languages ls s)).
Proof.
  unfold Options.after_discovery. destruct found as [ls [err|]]; [done|].
  rewrite bind_modify. destruct (bool_decide (ls = [])) eqn:Hempty.
  { by intros (_ & _ & [=] & _)%bind_Ret_inv. }
  apply bool_decide_eq_false in Hempty.
  intros ([e'|] & Huse & Hrest & -> & _)%bind_Ret_inv.
  - injection Hrest as <-. by exists ls.
  - apply bind_Ret_inv in Hrest as (_ & _ & [= <-] & _).
    exists ls. repeat split; [done..|].
    by rewrite (bind_final _ _ _ (logInfo_final _ _ _)).
Qed.

Lemma InitI18nWithOptions_inv lang options (s : State) e :
  outcome (Options.InitI18nWithOptions lang options s) = Ret e ->
  exists s2 ls,
    outcome (Options.before_discovery lang options s) = Ret (requested lang)
    /\ (Forall (fun o => Option_OptionType o <> PackageListFunc) options ->
        s2 = final (Options.before_discovery lang options s))
    /\ ls <> []
    /\ outcome (Options.use_first_match (requested lang) ls (set_Languages ls s2))
       = Ret e
    /\ final (Options.InitI18nWithOptions lang options s)
       = final (Options.use_first_match (requested lang) ls (set_Languages ls s2)).
Proof.
  unfold Options.InitI18nWithOptions.
  intros (l' & Hbefore & Hrest & -> & _)%bind_Ret_inv.
  destruct (before_discovery_inv _ _ _ _ Hbefore) as (-> & lister & Hpl & Hlister).
  apply bind_Ret_inv in Hrest as (found & Hfound & Hafter & -> & _).
  apply after_discovery_inv in Hafter as (ls & -> & Hne & Huse & ->).
  eexists _, ls. split; [done|]. split; [|done].
  intros Hall. destruct (Hlister Hall) as (pattern & -> & _).
  unfold Options.call_packageListFunc. rewrite bind_gets, Hpl.
  by rewrite PackageListByPatternFunc_final.
Qed.

Lemma use_first_match_Languages lang ls (s : State) :
  Languages (final (Options.use_first_match lang ls (set_Languages ls s))) = ls.
Proof. by rewrite (keeps_use_first_match_gen Languages). Qed.

(** X8.  [InitI18nWithOptions] returns nil even when no discovered
    package carries the tag asked for: it then leaves [Localizer] and
    [Language] as they were (nil on a first initialisation), for all
    options but [PackageListFunc]. *)
Theorem InitI18nWithOptions_without_match lang options (s : State) e :
  Forall (fun o => Option_OptionType o <> PackageListFunc) options ->
  outcome (Options.InitI18nWithOptions lang options s) = Ret e ->
  (forall l, Some l ∈ Languages (final (Options.InitI18nWithOptions lang options s)) ->
             Lang_Tag l <> Lang_Tag (requested lang)) ->
  e = None
  /\ Localizer (final (Options.InitI18nWithOptions lang options s)) = Localizer s
  /\ Language (final (Options.InitI18nWithOptions lang options s)) = Language s.
Proof.
  intros Hall Hout Hnone.
  destruct (InitI18nWithOptions_inv _ _ _ _ Hout)
    as (s2 & ls & Hbefore & Hs2 & Hne & Huse & Hfin).
  rewrite Hfin in *. rewrite use_first_match_Languages in Hnone.
  specialize (Hs2 Hall). subst s2.
  destruct (use_first_match_inv _ _ _ _ Huse)
    as [(_ & -> & ->)|(pre & l & post & -> & _ & Htag & _)].
  - split; [done|]. cbn.
    unfold Options.before_discovery. rewrite !bind_modify.
    match goal with
    | |- context [final (bind (Options.apply_options ?loc options) ?k ?s3)] =>
        assert (Hkeep : keeps (fun s => (Localizer s, Language s))
                          (bind (Options.apply_options loc options) k))
    end.
    { apply keeps_bind_gen; [apply keeps_apply_options; [done..|by right]|]. intros loc.
      apply keeps_bind_gen; [by apply keeps_modify|]. intros _.
      by apply keeps_before_discovery_tail. }
    match goal with
    | |- context [final (bind (Options.apply_options ?loc options) ?k ?s3)] =>
        specialize (Hkeep s3)
    end.
    cbv beta in Hkeep. injection Hkeep as Hloc Hlang.
    split; [exact Hloc|exact Hlang].
  - destruct (Hnone l); [|done]. rewrite elem_of_app, elem_of_cons. auto.
Qed.

(** X9.  The only error [InitI18nWithOptions] returns is the load
    error of the first discovered package that carries the tag asked for;
    [Language] then already names that package. *)
Theorem InitI18nWithOptions_error_is_load_error lang options (s : State) e :
  outcome (Options.InitI18nWithOptions lang options s) = Ret (Some e) ->
  exists pre l post e0,
    Languages (final (Options.InitI18nWithOptions lang options s))
    = pre ++ Some l :: post
    /\ Forall (other_tag (requested lang)) pre
    /\ Lang_Tag l = Lang_Tag (requested lang)
    /\ e = load_error l e0
    /\ Language (final (Options.InitI18nWithOptions lang options s)) = Some l.
Proof.
  intros Hout.
  destruct (InitI18nWithOptions_inv _ _ _ _ Hout)
    as (s2 & ls & Hbefore & Hs2 & Hne & Huse & Hfin).
  rewrite Hfin. rewrite use_first_match_Languages.
  destruct (use_first_match_inv _ _ _ _ Huse)
    as [(_ & [=] & _)|(pre & l & post & -> & Hpre & Htag & Huse1 & ->)].
  destruct (UseLanguage_Ret _ _ _ Huse1) as (Hlang & _ & e0 & ->).
  by exists pre, l, post, e0.
Qed.

(** X10.  When [InitI18nWithOptions] returns nil and a discovered
    package carries the tag asked for, [Language] is the first such
    package of [Languages], and [Localizer] is a localizer for its tag on
    the bundle the package holds. *)
Theorem InitI18nWithOptions_uses_first_match lang options (s : State) :
  outcome (Options.InitI18nWithOptions lang options s) = Ret None ->
  (exists l, Some l ∈ Languages (final (Options.InitI18nWithOptions lang options s))
             /\ Lang_Tag l = Lang_Tag (requested lang)) ->
  exists pre l post,
    Languages (final (Options.InitI18nWithOptions lang options s))
    = pre ++ Some l :: post
    /\ Forall (other_tag (requested lang)) pre
    /\ Lang_Tag l = Lang_Tag (requested lang)
    /\ Language (final (Options.InitI18nWithOptions lang options s)) = Some l
    /\ Localizer (final (Options.InitI18nWithOptions lang options s))
       = Some (mkLocalizer
                 (bundle (final (Options.InitI18nWithOptions lang options s)))
                 [Tag_String (Lang_Tag l)]).
Proof.
  intros Hout (l0 & Hin & Htag0).
  destruct (InitI18nWithOptions_inv _ _ _ _ Hout)
    as (s2 & ls & Hbefore & Hs2 & Hne & Huse & Hfin).
  rewrite Hfin in *. rewrite use_first_match_Languages in *.
  destruct (use_first_match_inv _ _ _ _ Huse)
    as [(Hall & _ & _)|(pre & l & post & -> & Hpre & Htag & Huse1 & ->)].
  - rewrite Forall_forall in Hall.
    destruct (Hall _ Hin) as (l1 & [= <-] & Hne1). done.
  - destruct (UseLanguage_Ret _ _ _ Huse1) as (Hlang & Hloc).
    by exists pre, l, post.
Qed.

(** X13.  A [PackageSuffix] option with no [PackagePath] option before
    it does not change where the discovery looks: with no [PackagePath],
    [PackagePattern] or [PackageListFunc] option, an initialisation that
    returns leaves a discovery function for the pattern [lang/*.lang]. *)
Theorem InitI18nWithOptions_suffix_keeps_pattern lang options (s : State) e :
  Forall (fun o => Option_OptionType o <> PackagePath
                   /\ Option_OptionType o <> PackagePattern) options ->
  Forall (fun o => Option_OptionType o <> PackageListFunc) options ->
  outcome (Options.InitI18nWithOptions lang options s) = Ret e ->
  packageListFunc (final (Options.InitI18nWithOptions lang options s))
  = Some (ListByPattern "lang/*.lang").
Proof.
  intros Hpattern Hlister Hout.
  destruct (InitI18nWithOptions_inv _ _ _ _ Hout)
    as (s2 & ls & Hbefore & Hs2 & Hne & Huse & ->).
  rewrite (keeps_use_first_match_gen packageListFunc) by done. cbn.
  rewrite (Hs2 Hlister).
  destruct (before_discovery_inv _ _ _ _ Hbefore) as (_ & lister & -> & Hl).
  destruct (Hl Hlister) as (pattern & -> & Hp). by rewrite (Hp Hpattern).
Qed.

Lemma before_discovery_DefaultLang lang options (s : State) l' :
  outcome (Options.before_discovery lang options s) = Ret l' ->
  DefaultLang (final (Options.before_discovery lang options s)) = Some l'.
Proof.
  intros Hout. destruct (before_discovery_inv _ _ _ _ Hout) as [-> _].
  revert Hout. unfold Options.before_discovery. rewrite !bind_modify.
  intros (loc & _ & Hrest & -> & _)%bind_Ret_inv.
  rewrite bind_modify in Hrest |- *.
  apply bind_Ret_inv in Hrest as (l0 & Hl0 & Hrest & -> & _).
  match type of Hl0 with outcome (?m ?s2) = _ =>
    assert (Hsame : final (m s2) = s2 /\ l0 = requested lang)
  end.
  { destruct lang as [l|]; [by injection Hl0 as <-|].
    apply bind_Ret_inv in Hl0 as (_ & _ & [= <-] & _).
    split; [|done]. apply bind_final; [apply logInfo_final|done]. }
  destruct Hsame as [-> ->]. unfold SetDefaultLang.
  rewrite bind_assoc, bind_modify, bind_ret.
  by rewrite (keeps_bundle_setup DefaultLang).
Qed.

(** X24.  When [InitI18nWithOptions] returns, [DefaultLang] is the
    language asked for; it is [English] when [lang] was nil (the
    discovery being the package's own). *)
Theorem InitI18nWithOptions_sets_DefaultLang lang options (s : State) e :
  Forall (fun o => Option_OptionType o <> PackageListFunc) options ->
  outcome (Options.InitI18nWithOptions lang options s) = Ret e ->
  DefaultLang (final (Options.InitI18nWithOptions lang options s))
  = Some (requested lang)
  /\ (lang = None ->
      DefaultLang (final (Options.InitI18nWithOptions lang options s))
      = Some Options.English).
Proof.
  intros Hlister Hout.
  assert (Hdefault : DefaultLang (final (Options.InitI18nWithOptions lang options s))
                     = Some (requested lang)).
  { destruct (InitI18nWithOptions_inv _ _ _ _ Hout)
      as (s2 & ls & Hbefore & Hs2 & Hne & Huse & ->).
    rewrite (keeps_use_first_match_gen DefaultLang) by done. cbn.
    rewrite (Hs2 Hlister). by apply before_discovery_DefaultLang. }
  split; [exact Hdefault|]. intros ->. exact Hdefault.
Qed.

Lemma bind_Panic {A B} (m : M A) (k : A -> M B) (s s' : State) fault evs :
  m s = mkRun (Panic fault) s' evs -> bind m k s = mkRun (Panic fault) s' evs.
Proof. intros Hm. unfold bind. by rewrite Hm. Qed.

Lemma bind_cong_l {A B} (m m' : M A) (k : A -> M B) (s : State) :
  m s = m' s -> bind m k s = bind m' k s.
Proof. intros Hm. unfold bind. by rewrite Hm. Qed.

(** An option whose type is none of the seven the loop knows is
    skipped. *)
Lemma apply_option_unknown loc option (s : State) :
  (Option_OptionType option < 1 \/ 7 < Option_OptionType option)%Z ->
  Options.apply_option loc option s = mkRun (Ret loc) s [].
Proof.
  intros Hunknown. unfold Options.apply_option. cbn zeta.
  repeat match goal with
         | |- context [(?a =? ?b)%Z] => destruct (Z.eqb_spec a b)
         end;
    unfold LogInfoFunc, LogErrorFunc, UnmarshalFunc, PackageSuffix, PackagePath,
      PackagePattern, PackageListFunc in *;
    first [lia|done].
Qed.

Lemma apply_options_unknown pre option post loc (s : State) :
  (Option_OptionType option < 1 \/ 7 < Option_OptionType option)%Z ->
  Options.apply_options loc (pre ++ option :: post) s
  = Options.apply_options loc (pre ++ post) s.
Proof.
  intros Hunknown. revert loc s. induction pre as [|o pre IH]; intros loc s.
  - cbn [app Options.apply_options].
    by rewrite (bind_Ret_nil _ _ _ _ _ (apply_option_unknown loc option s Hunknown)).
  - cbn [app Options.apply_options]. unfold bind.
    destruct (Options.apply_option loc o s) as [[loc1| |] s1 ev]; cbn; [|done..].
    by rewrite IH.
Qed.

(** X26.  An option whose type is none of the seven that the loop of
    [InitI18nWithOptions] knows is skipped: the initialisation runs as it
    does without that option, wherever the option stands.  The eighth
    type of enums.go, [DefaultUseSystemLanguage], is such a type: the
    option changes nothing. *)
Theorem InitI18nWithOptions_ignores_unknown_options lang pre option post (s : State) :
  (Option_OptionType option < 1 \/ 7 < Option_OptionType option)%Z ->
  Options.InitI18nWithOptions lang (pre ++ option :: post) s
  = Options.InitI18nWithOptions lang (pre ++ post) s
  /\ (Option_OptionType option = DefaultUseSystemLanguage ->
      Options.InitI18nWithOptions lang [option] s
      = Options.InitI18nWithOptions lang [] s).
Proof.
  intros Hunknown.
  assert (Hany : forall pre post,
             Options.InitI18nWithOptions lang (pre ++ option :: post) s
             = Options.InitI18nWithOptions lang (pre ++ post) s).
  { intros pre' post'. unfold Options.InitI18nWithOptions.
    apply bind_cong_l. unfold Options.before_discovery.
    rewrite !bind_modify. apply bind_cong_l.
    by apply apply_options_unknown. }
  split; [apply Hany|]. intros _. exact (Hany [] []).
Qed.

(** An option of one of the three types that carry a string, built by
    [NewOptionWithCallback], has no data to read. *)
Lemma apply_option_without_data loc t callback (s : State) :
  t = PackageSuffix \/ t = PackagePath \/ t = PackagePattern ->
  Options.apply_option loc (NewOptionWithCallback t callback) s
  = mkRun (Panic NilDereference) s [].
Proof. intros [Ht|[Ht|Ht]]; by subst t. Qed.

Lemma apply_options_without_data pre t callback post loc (s : State) loc' :
  t = PackageSuffix \/ t = PackagePath \/ t = PackagePattern ->
  outcome (Options.apply_options loc (pre ++ NewOptionWithCallback t callback :: post) s)
  <> Ret loc'.
Proof.
  intros Ht. revert loc s. induction pre as [|o pre IH]; intros loc s.
  - cbn [app Options.apply_options]. unfold bind.
    by rewrite (apply_option_without_data loc t callback s Ht).
  - cbn [app Options.apply_options].
    intros (loc1 & _ & Hrest & _)%bind_Ret_inv. by eapply IH.
Qed.

(** X27.  An option of type [PackageSuffix], [PackagePath] or
    [PackagePattern] that was built by [NewOptionWithCallback] has no
    data: wherever it stands among the options, [InitI18nWithOptions]
    does not return; given alone, it makes the initialisation panic on
    the nil dereference before anything is logged. *)
Theorem InitI18nWithOptions_option_without_data lang t callback (s : State) :
  t = PackageSuffix \/ t = PackagePath \/ t = PackagePattern ->
  (forall pre post e,
      outcome (Options.InitI18nWithOptions lang
                 (pre ++ NewOptionWithCallback t callback :: post) s) <> Ret e)
  /\ outcome (Options.InitI18nWithOptions lang [NewOptionWithCallback t callback] s)
     = Panic NilDereference
  /\ emitted (Options.InitI18nWithOptions lang [NewOptionWithCallback t callback] s)
     = [].
Proof.
  intros Ht. split.
  - intros pre post e. unfold Options.InitI18nWithOptions.
    intros (l' & Hbefore & _)%bind_Ret_inv. revert Hbefore.
    unfold Options.before_discovery. rewrite !bind_modify.
    intros (loc & Hloc & _)%bind_Ret_inv.
    by eapply apply_options_without_data.
  - assert (Hrun : forall loc s1,
               Options.apply_options loc [NewOptionWithCallback t callback] s1
               = mkRun (Panic NilDereference) s1 []).
    { intros loc s1. cbn [Options.apply_options]. unfold bind.
      by rewrite (apply_option_without_data loc t callback s1 Ht). }
    assert (Hbefore : Options.before_discovery lang
                        [NewOptionWithCallback t callback] s
                      = mkRun (Panic NilDereference)
                          (set_unmarshalFunc (Some toml_Unmarshal)
                             (set_logErrorFunc (Some log_Fatalf)
                                (set_logInfoFunc (Some log_Printf) s))) []).
    { unfold Options.before_discovery. rewrite !bind_modify.
      apply bind_Panic, Hrun. }
    unfold Options.InitI18nWithOptions.
    by rewrite (bind_Panic _ _ _ _ _ _ Hbefore).
Qed.

Lemma before_discovery_logErrorFunc lang options (s : State) :
  Forall (fun o => Option_OptionType o <> LogErrorFunc) options ->
  logErrorFunc (final (Options.before_discovery lang options s)) = Some log_Fatalf.
Proof.
  intros Hall. unfold Options.before_discovery. rewrite !bind_modify.
  match goal with
  | |- context [final (bind (Options.apply_options ?loc options) ?k ?s3)] =>
      assert (Hkeep : keeps logErrorFunc (bind (Options.apply_options loc options) k));
      [|exact (Hkeep s3)]
  end.
  apply keeps_bind_gen; [apply keeps_apply_options; [done..|by left]|]. intros loc.
  apply keeps_bind_gen; [by apply keeps_modify|]. intros _.
  by apply keeps_before_discovery_tail.
Qed.

(** X14.  Every [InitI18nWithOptions] without a [LogErrorFunc] option
    puts [log.Fatalf] back as the error sink, whatever sink was installed
    before and however the initialisation ends (the discovery being the
    package's own). *)
Theorem InitI18nWithOptions_resets_error_sink lang options (s : State) :
  Forall (fun o => Option_OptionType o <> LogErrorFunc) options ->
  Forall (fun o => Option_OptionType o <> PackageListFunc) options ->
  logErrorFunc (final (Options.InitI18nWithOptions lang options s))
  = Some log_Fatalf.
Proof.
  intros Hsink Hlister.
  pose proof (before_discovery_logErrorFunc lang options s Hsink) as Hbefore.
  unfold Options.InitI18nWithOptions. unfold bind at 1.
  destruct (outcome (Options.before_discovery lang options s)) as [l'| |] eqn:Hout;
    [|done..].
  destruct (before_discovery_inv _ _ _ _ Hout) as (_ & lister & Hpl & Hl).
  destruct (Hl Hlister) as (pattern & -> & _).
  set (s1 := final (Options.before_discovery lang options s)) in *. cbn.
  unfold bind, Options.call_packageListFunc, gets. cbn. rewrite Hpl.
  pose proof (PackageListByPatternFunc_final
                [NewOptionWithData PackagePattern (VString pattern)] s1) as Hfin.
  destruct (Options.PackageListByPatternFunc _ s1) as [[found| |] s2 ev];
    cbn in *; subst s2; [|done..].
  by rewrite (keeps_after_discovery logErrorFunc).
Qed.

End initialization_more.

Section discovery_more.
Context `{Host}.

Lemma ReadLangFromFileName_Some_Data fileName (s : State) l :
  outcome (Options.ReadLangFromFileName fileName s) = Ret (Some l) ->
  Lang_Data l = None.
Proof.
  unfold Options.ReadLangFromFileName. rewrite bind_gets.
  destruct (files s !! fileName) as [content|].
  - destruct (GoStrings.ReadString_newline content) as [topLine [|]].
    + by intros (? & _ & [=] & _)%bind_Ret_inv.
    + destruct (length (ReadLangLabel topLine) <? 2)%nat.
      * by intros (? & _ & [=] & _)%bind_Ret_inv.
      * by intros (tag & _ & [= <-] & _)%bind_Ret_inv.
  - by intros (? & _ & [=] & _)%bind_Ret_inv.
Qed.

Lemma range_packages_sublist packages acc (s : State) languages :
  outcome (Options.range_packages packages acc s) = Ret languages ->
  exists ls, languages = acc ++ (Some <$> ls)
    /\ Lang_FileName <$> ls `sublist_of` packages
    /\ Forall (fun l => Lang_Data l = None) ls.
Proof.
  revert acc. induction packages as [|f rest IH]; intros acc.
  - cbn. intros [= <-]. exists []. by rewrite app_nil_r.
  - cbn [Options.range_packages].
    intros (lang & Hread & Hrest & _)%bind_Ret_inv.
    rewrite ReadLangFromFileName_final in Hrest.
    destruct lang as [l|].
    + apply bind_Ret_inv in Hrest as (_ & _ & Hrest & _).
      rewrite logInfo_final in Hrest.
      destruct (IH _ Hrest) as (ls & -> & Hsub & Hdata).
      pose proof (ReadLangFromFileName_Some_Data _ _ _ Hread) as Hnil.
      apply ReadLangFromFileName_Some in Hread as [<- _].
      exists (l :: ls). rewrite <- app_assoc. split; [done|]. split.
      * cbn. by apply sublist_skip.
      * by constructor.
    + destruct (IH _ Hrest) as (ls & -> & Hsub & Hdata).
      exists ls. split; [done|]. split; [by apply sublist_cons|done].
Qed.

Lemma pattern_of_options_none options acc (s : State) :
  Forall (fun o => Option_OptionType o <> PackagePattern) options ->
  Options.pattern_of_options options acc s = mkRun (Ret acc) s [].
Proof.
  induction 1 as [|o rest Ho _ IH]; [done|]. cbn [Options.pattern_of_options].
  by destruct (Z.eqb_spec (Option_OptionType o) PackagePattern).
Qed.

Lemma pattern_of_options_last pre p post acc (s : State) p' :
  Forall (fun o => Option_OptionType o <> PackagePattern) post ->
  outcome (Options.pattern_of_options
             (pre ++ NewOptionWithData PackagePattern (VString p) :: post) acc s)
  = Ret p' ->
  p' = p.
Proof.
  intros Hpost. revert acc. induction pre as [|o pre IH]; intros acc.
  - cbn [app Options.pattern_of_options]. cbn.
    rewrite (bind_Ret_nil _ _ _ _ _ (option_string_run _ _ _)).
    rewrite pattern_of_options_none by done. by intros [= <-].
  - cbn [app Options.pattern_of_options].
    destruct (Option_OptionType o =? PackagePattern)%Z; [|apply IH].
    intros (q & _ & Hrest & _)%bind_Ret_inv.
    rewrite option_string_final in Hrest. by apply IH in Hrest.
Qed.

(** X11.  Without a [PackagePattern] option (with no option at all,
    for one) [PackageListByPatternFunc] has nothing to look for: it never
    returns a list without an error, and when the error sink returns it
    logs and returns the error [cannot find pattern] with a nil list,
    the state unchanged. *)
Theorem PackageListByPatternFunc_without_pattern options (s : State) :
  Forall (fun o => Option_OptionType o <> PackagePattern) options ->
  (forall languages,
      outcome (Options.PackageListByPatternFunc options s) <> Ret (languages, None))
  /\ (sink_returns (logErrorFunc s) ->
      Options.PackageListByPatternFunc options s
      = mkRun (Ret ([], Some "[i18n] PackageList cannot find pattern")) s
          [EvLog SevError "[i18n] PackageList cannot find pattern" []]).
Proof.
  intros Hnone. unfold Options.PackageListByPatternFunc.
  rewrite (bind_Ret_nil _ _ _ _ _ (pattern_of_options_none options "" s Hnone)).
  rewrite bool_decide_eq_true_2 by done. split.
  - intros languages (_ & _ & [=] & _)%bind_Ret_inv.
  - intros Hsink. by rewrite (bind_Ret _ _ _ _ _ _ (logError_returns _ _ _ Hsink)).
Qed.

(** X12.  What [PackageListByPatternFunc] returns without an error
    follows [Glob]: the pattern is that of the last [PackagePattern]
    option and is not empty, [Glob] accepted it, every descriptor is
    non-nil and carries no data, and the descriptors name files that
    [Glob] matched, in the order in which [Glob] listed them. *)
Theorem PackageListByPatternFunc_follows_Glob pre pattern post (s : State) languages :
  Forall (fun o => Option_OptionType o <> PackagePattern) post ->
  outcome (Options.PackageListByPatternFunc
             (pre ++ NewOptionWithData PackagePattern (VString pattern) :: post) s)
  = Ret (languages, None) ->
  pattern <> ""
  /\ exists packages ls,
       Glob (files s) pattern = (packages, None)
       /\ languages = Some <$> ls
       /\ Lang_FileName <$> ls `sublist_of` packages
       /\ Forall (fun l => Lang_Data l = None) ls.
Proof.
  intros Hpost. unfold Options.PackageListByPatternFunc.
  intros (p & Hp & Hrest & _)%bind_Ret_inv.
  rewrite pattern_of_options_final in Hrest.
  apply pattern_of_options_last in Hp as ->; [|done].
  destruct (bool_decide (pattern = "")) eqn:Hempty.
  { by apply bind_Ret_inv in Hrest as (_ & _ & [=] & _). }
  apply bool_decide_eq_false in Hempty. split; [done|].
  rewrite bind_gets in Hrest.
  destruct (Glob (files s) pattern) as [packages [e|]].
  { by apply bind_Ret_inv in Hrest as (_ & _ & [=] & _). }
  apply bind_Ret_inv in Hrest as (found & Hloop & Hrest & _).
  apply bind_Ret_inv in Hrest as (_ & _ & [= <-] & _).
  apply range_packages_sublist in Hloop as (ls & -> & Hsub & Hdata).
  by exists packages, ls.
Qed.

(** X21.  [InitI18nWithOptions] never returns an error of the
    discovery: once the options are applied, whenever the discovery
    function in place reports an error the initialisation panics, with
    [PackageList error:] and that error.  An empty pattern is such a case,
    when the error sink returns. *)
Theorem InitI18nWithOptions_panics_on_discovery_error lang options (s : State) l' :
  outcome (Options.before_discovery lang options s) = Ret l' ->
  (forall languages e,
      outcome (Options.call_packageListFunc
                 (final (Options.before_discovery lang options s)))
      = Ret (languages, Some e) ->
      outcome (Options.InitI18nWithOptions lang options s)
      = Panic (PanicValue ("[i18n] PackageList error: " +:+ e)))
  /\ (packageListFunc (final (Options.before_discovery lang options s))
      = Some (ListByPattern "") ->
      sink_returns (logErrorFunc (final (Options.before_discovery lang options s))) ->
      outcome (Options.InitI18nWithOptions lang options s)
      = Panic (PanicValue ("[i18n] PackageList error: "
                           +:+ "[i18n] PackageList cannot find pattern"))).
Proof.
  intros Hbefore.
  assert (Hany : forall languages e,
      outcome (Options.call_packageListFunc
                 (final (Options.before_discovery lang options s)))
      = Ret (languages, Some e) ->
      outcome (Options.InitI18nWithOptions lang options s)
      = Panic (PanicValue ("[i18n] PackageList error: " +:+ e))).
  { intros languages e Hcall. unfold Options.InitI18nWithOptions, bind.
    by rewrite Hbefore, Hcall. }
  split; [exact Hany|]. intros Hlister Hsink. apply (Hany []).
  unfold Options.call_packageListFunc. rewrite bind_gets, Hlister.
  unfold Options.PackageListByPatternFunc.
  match goal with |- context [bind (Options.pattern_of_options ?os _) _ ?s1] =>
    rewrite (bind_Ret_nil (Options.pattern_of_options os "") _ s1 s1 "" eq_refl)
  end.
  rewrite bool_decide_eq_true_2 by done.
  by rewrite (bind_Ret _ _ _ _ _ _ (logError_returns _ _ _ Hsink)).
Qed.

End discovery_more.

Section formatting_properties.
Context `{Host} `{Fmt}.

(** X20.  [GetI18nFormatted] with a [Format] that does not contain
    [%s] is [TData] with the format appended to the text: it ends as
    [TData] does, in the same state and with the same log records; [GTF]
    is the same function.  For an identifier the catalog does not have,
    when the error sink returns, the result is the format alone. *)
Theorem GetI18nFormatted_appends_plain_Format (c : I18nConfig) (s : State) :
  GoStrings.contains "%s" (I18nConfig_Format c) = false ->
  (GetI18nFormatted (Some c) s
   = mkRun match outcome (TData (I18nConfig_Id c) (I18nConfig_Data c) s) with
           | Ret text => Ret (text +:+ I18nConfig_Format c)
           | Panic fault => Panic fault
           | Exit code => Exit code
           end
       (final (TData (I18nConfig_Id c) (I18nConfig_Data c) s))
       (emitted (TData (I18nConfig_Id c) (I18nConfig_Data c) s)))
  /\ GTF (Some c) s = GetI18nFormatted (Some c) s
  /\ (sink_returns (logErrorFunc s) ->
      adapter_error s (I18nConfig_Id c) (Data_vars (I18nConfig_Data c))
        (Data_count (I18nConfig_Data c)) ->
      outcome (GetI18nFormatted (Some c) s) = Ret (I18nConfig_Format c)).
Proof.
  intros Hplain.
  assert (Hrun : GetI18nFormatted (Some c) s
   = mkRun match outcome (TData (I18nConfig_Id c) (I18nConfig_Data c) s) with
           | Ret text => Ret (text +:+ I18nConfig_Format c)
           | Panic fault => Panic fault
           | Exit code => Exit code
           end
       (final (TData (I18nConfig_Id c) (I18nConfig_Data c) s))
       (emitted (TData (I18nConfig_Id c) (I18nConfig_Data c) s))).
  { unfold GetI18nFormatted, bind. rewrite Hplain.
    destruct (TData _ _ s) as [[text| |] s1 ev]; cbn; [|done..].
    destruct (I18nConfig_Format c) as [|a fmt'] eqn:Hfmt; cbn.
    - by rewrite append_empty_r, app_nil_r.
    - by rewrite app_nil_r. }
  split; [exact Hrun|]. split; [done|].
  intros Hsink Herr. rewrite Hrun.
  destruct (Localize_adapter_error "" (I18nConfig_Id c)
              (Data_vars (I18nConfig_Data c)) (Data_count (I18nConfig_Data c))
              s Hsink Herr) as (Hout & _).
  unfold TData, TCData. unfold Data_vars, Data_count in Hout. by rewrite Hout.
Qed.

End formatting_properties.

Section second_revision_more.
Context `{Host}.

(** What holds where a computation can stop holds where it stops. *)
Lemma bind_inv {A B} (P : State -> Prop) (m : M A) (k : A -> M B) (s : State) :
  P (final (m s)) -> (forall a, P (final (k a (final (m s))))) ->
  P (final (bind m k s)).
Proof.
  intros Hm Hk. unfold bind.
  destruct (m s) as [[a| |] s1 ev]; cbn in *; auto.
Qed.

Lemma grows_refl (s : State) : grows s s.
Proof. done. Qed.

Lemma grows_trans (s1 s2 s3 : State) : grows s1 s2 -> grows s2 s3 -> grows s1 s3.
Proof.
  intros (Hl & Hc & Hp) (Hl' & Hc' & Hp'). split; [congruence|].
  split; [congruence|]. by etrans.
Qed.

Lemma grows_bind {A B} (m : M A) (k : A -> M B) (s : State) :
  grows s (final (m s)) ->
  (forall a, grows (final (m s)) (final (k a (final (m s))))) ->
  grows s (final (bind m k s)).
Proof.
  intros Hm Hk. apply (bind_inv (grows s)); [done|].
  intros a. by eapply grows_trans.
Qed.

Lemma keeps_grows {A} (m : M A) (s : State) :
  keeps (fun s => (Language s, Localizer s, Languages s)) m ->
  grows s (final (m s)).
Proof.
  intros Hkeep. specialize (Hkeep s). cbv beta in Hkeep.
  injection Hkeep as Hlang Hloc Hlangs. unfold grows.
  by rewrite Hlang, Hloc, Hlangs.
Qed.

Lemma readLangLabel_final fileName (s : State) :
  final (I18n.readLangLabel fileName s) = s.
Proof.
  unfold I18n.readLangLabel. rewrite bind_gets.
  destruct (files s !! fileName); [done|].
  apply bind_final; [apply logError_final|done].
Qed.

Lemma grows_Languages_app (s : State) more :
  grows s (set_Languages (Languages s ++ more) s).
Proof. split; [done|]. split; [done|]. by apply prefix_app_r. Qed.

Lemma range_languages_grows languages (s : State) :
  Language s <> None -> grows s (final (I18n.range_languages languages s)).
Proof.
  revert s. induction languages as [|langFile rest IH]; intros s Hset; [done|].
  cbn [I18n.range_languages].
  apply grows_bind; rewrite readLangLabel_final; [done|]. intros labels.
  destruct (length labels <? 2)%nat.
  { apply grows_bind; rewrite logError_final; [done|]. intros _. by apply IH. }
  apply grows_bind; rewrite index0_final; [done|]. intros tag.
  apply grows_bind; rewrite logInfo_final; [done|]. intros _.
  rewrite !bind_gets. destruct (Language s) as [l0|] eqn:Hl0; [|done].
  cbn [I18n.is_default]. rewrite bind_gets, bind_modify.
  eapply grows_trans; [apply grows_Languages_app|].
  apply IH. cbn. by rewrite Hl0.
Qed.

Lemma initI18n_grows lang format unmarshal pattern (s : State) :
  Language s <> None ->
  grows s (final (I18n.initI18n lang format unmarshal pattern s)).
Proof.
  intros Hset. unfold I18n.initI18n.
  apply grows_bind; rewrite logInfo_final; [done|]. intros _.
  apply grows_bind.
  { apply keeps_grows. unfold new_bundle. frame. }
  intros _. set (s1 := final (new_bundle (Lang_Tag lang) s)).
  assert (Hgrow1 : grows s s1).
  { apply keeps_grows. unfold new_bundle. frame. }
  assert (Hset1 : Language s1 <> None) by (by destruct Hgrow1 as [-> _]).
  clearbody s1.
  apply grows_bind; [by apply keeps_grows, keeps_on_bundle_gen|]. intros _.
  match goal with |- context [final (on_bundle ?m s1)] =>
    assert (Hgrow2 : grows s1 (final (on_bundle m s1)))
      by (by apply keeps_grows, keeps_on_bundle_gen);
    set (s2 := final (on_bundle m s1)) in *
  end.
  assert (Hset2 : Language s2 <> None) by (by destruct Hgrow2 as [-> _]).
  clearbody s2. rewrite bind_gets.
  apply grows_bind.
  { destruct (Glob (files s2) pattern) as [names [e|]]; [|done].
    apply grows_bind; rewrite logError_final; done. }
  intros languages.
  assert (Hglob : final (match Glob (files s2) pattern with
                         | (_, Some e) =>
                             logError "[i18n] InitI18n Glob error: %v" [VError e] ;;;
                             ret []
                         | (languages, None) => ret languages
                         end s2) = s2).
  { destruct (Glob (files s2) pattern) as [names [e|]]; [|done].
    apply bind_final; [apply logError_final|done]. }
  rewrite Hglob.
  apply grows_bind; [by apply range_languages_grows|]. intros returned.
  pose proof (range_languages_grows languages s2 Hset2) as Hgrow3.
  set (s3 := final (I18n.range_languages languages s2)) in *.
  assert (Hset3 : Language s3 <> None) by (by destruct Hgrow3 as [-> _]).
  clearbody s3. destruct returned; [done|].
  rewrite bind_gets. apply grows_bind; rewrite logInfo_final; [done|]. intros _.
  rewrite bind_gets. destruct (Language s3); [|done].
  by rewrite logInfo_final.
Qed.

(** X15.  In the second revision an initialisation while a language is
    in use does not change it: [Language] and [Localizer] stay as they
    were, however the call ends, and [Languages] is only appended to. *)
Theorem InitI18nWithConfig_again_keeps_Language (l0 : Lang) (s : State)
    lang logInfoFunc' logErrorFunc' format unmarshalFunc' langFilesPattern :
  Language s = Some l0 ->
  let r := I18n.InitI18nWithConfig lang logInfoFunc' logErrorFunc' format
             unmarshalFunc' langFilesPattern s in
  Language (final r) = Some l0
  /\ Localizer (final r) = Localizer s
  /\ Languages s `prefix_of` Languages (final r).
Proof.
  intros Hl0 r.
  assert (Hgrows : grows s (final r)).
  { subst r. unfold I18n.InitI18nWithConfig. rewrite !bind_modify.
    match goal with |- grows s (final (bind _ _ ?s2)) =>
      apply (grows_trans s s2); [done|];
      assert (Hset2 : Language s2 <> None) by (by cbn; rewrite Hl0)
    end.
    match goal with |- grows ?s2 (final (bind ?m _ ?s2)) =>
      assert (Hsame : final (m s2) = s2)
    end.
    { destruct lang as [l|]; [done|]. rewrite bind_gets.
      destruct (DefaultLang _); [|done].
      apply bind_final; [apply logInfo_final|done]. }
    apply grows_bind; rewrite Hsame; [done|]. intros l'.
    unfold SetDefaultLang.
    rewrite bind_assoc, bind_modify, bind_ret.
    match goal with |- grows ?s2 (final (I18n.initI18n _ _ _ _ ?s3)) =>
      apply (grows_trans s2 s3); [done|]
    end.
    apply initI18n_grows. cbn. by rewrite Hl0. }
  destruct Hgrows as (-> & -> & Hprefix). done.
Qed.

Lemma keeps_default_in_use {A} L (m : M A) (s : State) :
  keeps (fun s => (DefaultLang s, Language s)) m ->
  default_in_use L s -> default_in_use L (final (m s)).
Proof.
  intros Hkeep. specialize (Hkeep s). cbv beta in Hkeep.
  injection Hkeep as Hd Hl. unfold default_in_use. by rewrite Hd, Hl.
Qed.

Lemma is_default_true (s : State) L tag :
  default_in_use L s ->
  I18n.is_default (Language s) (DefaultLang s) tag = true ->
  tag = Lang_Tag L.
Proof.
  intros [Hd _]. rewrite Hd. unfold I18n.is_default.
  destruct (Language s); [done|]. by intros <-%bool_decide_eq_true.
Qed.

Lemma range_languages_default_in_use L languages (s : State) :
  default_in_use L s ->
  default_in_use L (final (I18n.range_languages languages s)).
Proof.
  revert s. induction languages as [|langFile rest IH]; intros s Hinv; [done|].
  cbn [I18n.range_languages].
  apply bind_inv; rewrite readLangLabel_final; [done|]. intros labels.
  destruct (length labels <? 2)%nat.
  { apply bind_inv; rewrite logError_final; [done|]. intros _. by apply IH. }
  apply bind_inv; rewrite index0_final; [done|]. intros tag.
  apply bind_inv; rewrite logInfo_final; [done|]. intros _.
  rewrite !bind_gets.
  destruct (I18n.is_default (Language s) (DefaultLang s) tag) eqn:Hdefault.
  - apply (is_default_true s L) in Hdefault as ->; [|done].
    rewrite bind_modify, bind_gets.
    match goal with |- context [set_Language (Some ?l) s] =>
      set (lang := l); set (s1 := set_Language (Some lang) s)
    end.
    assert (Hinv1 : default_in_use L s1).
    { destruct Hinv as [Hd _]. split; [done|]. right. by exists lang. }
    clearbody s1.
    apply bind_inv.
    { apply keeps_default_in_use; [by apply keeps_on_bundle_gen|done]. }
    intros err.
    match goal with |- context [final (on_bundle ?m s1)] =>
      assert (Hinv2 : default_in_use L (final (on_bundle m s1)))
        by (apply keeps_default_in_use; [by apply keeps_on_bundle_gen|done]);
      set (s2 := final (on_bundle m s1)) in *
    end.
    clearbody s2. destruct err as [e|].
    { apply bind_inv; rewrite logError_final; done. }
    rewrite (bind_Ret_nil _ _ _ _ _ (NewLocalizer_run _ _)), bind_modify,
      bind_gets, bind_modify.
    apply bind_inv; rewrite logInfo_final; [by destruct Hinv2|].
    intros _. apply IH. by destruct Hinv2.
  - rewrite bind_gets, bind_modify. apply IH. by destruct Hinv.
Qed.

Lemma initI18n_default_in_use L lang format unmarshal pattern (s : State) :
  default_in_use L s ->
  default_in_use L (final (I18n.initI18n lang format unmarshal pattern s)).
Proof.
  intros Hinv. unfold I18n.initI18n.
  apply bind_inv; rewrite logInfo_final; [done|]. intros _.
  assert (Hinv1 : default_in_use L (final (new_bundle (Lang_Tag lang) s))).
  { apply keeps_default_in_use; [unfold new_bundle; frame|done]. }
  apply bind_inv; [done|]. intros _.
  set (s1 := final (new_bundle (Lang_Tag lang) s)) in *. clearbody s1.
  match goal with |- context [bind (on_bundle ?m) _ s1] =>
    assert (Hinv2 : default_in_use L (final (on_bundle m s1)))
      by (apply keeps_default_in_use; [by apply keeps_on_bundle_gen|done]);
    apply bind_inv; [done|]; intros _;
    set (s2 := final (on_bundle m s1)) in *
  end.
  clearbody s2. rewrite bind_gets.
  assert (Hglob : final (match Glob (files s2) pattern with
                         | (_, Some e) =>
                             logError "[i18n] InitI18n Glob error: %v" [VError e] ;;;
                             ret []
                         | (languages, None) => ret languages
                         end s2) = s2).
  { destruct (Glob (files s2) pattern) as [names [e|]]; [|done].
    apply bind_final; [apply logError_final|done]. }
  apply bind_inv; rewrite Hglob; [done|]. intros languages.
  pose proof (range_languages_default_in_use L languages s2 Hinv2) as Hinv3.
  apply bind_inv; [done|]. intros returned.
  set (s3 := final (I18n.range_languages languages s2)) in *. clearbody s3.
  destruct returned; [done|].
  rewrite bind_gets. apply bind_inv; rewrite logInfo_final; [done|]. intros _.
  rewrite bind_gets. destruct (Language s3) eqn:Hl3.
  - by rewrite logInfo_final.
  - apply bind_inv; rewrite logError_final; done.
Qed.

(** X16.  In the second revision an initialisation that returns,
    started while no language was in use, leaves [DefaultLang] set to the
    language asked for ([SimplifiedChinese] for a nil [lang]) and a
    language in use that carries its tag. *)
Theorem InitI18nWithConfig_sets_requested_language (s : State)
    lang logInfoFunc' logErrorFunc' format unmarshalFunc' langFilesPattern :
  Language s = None ->
  let r := I18n.InitI18nWithConfig lang logInfoFunc' logErrorFunc' format
             unmarshalFunc' langFilesPattern s in
  outcome r = Ret tt ->
  DefaultLang (final r) = Some (default I18n.SimplifiedChinese lang)
  /\ exists l, Language (final r) = Some l
       /\ Lang_Tag l = Lang_Tag (default I18n.SimplifiedChinese lang).
Proof.
  intros Hnone r Hout. subst r. revert Hout.
  unfold I18n.InitI18nWithConfig. rewrite !bind_modify.
  intros (l' & Hl' & Hrest & -> & _)%bind_Ret_inv.
  match type of Hl' with outcome (?m ?s2) = _ =>
    assert (Hsame : final (m s2) = s2 /\ l' = default I18n.SimplifiedChinese lang)
  end.
  { destruct lang as [l|]; [by injection Hl' as <-|].
    rewrite bind_gets in Hl' |- *. destruct (DefaultLang _); [|done].
    apply bind_Ret_inv in Hl' as (_ & _ & [= <-] & _).
    split; [|done]. apply bind_final; [apply logInfo_final|done]. }
  destruct Hsame as [Hsame ->]. rewrite Hsame in *.
  unfold SetDefaultLang in *.
  rewrite bind_assoc, bind_modify, bind_ret in Hrest |- *.
  match type of Hrest with outcome (I18n.initI18n ?l ?f ?u ?p ?s3) = _ =>
    pose proof (initI18n_default_in_use (default I18n.SimplifiedChinese lang)
                  l f u p s3) as Hinv;
    pose proof (initI18n_returns_with_Language l f u p s3 Hrest) as Hset
  end.
  destruct Hinv as [Hd [Hl|Hl]]; [by split; [|left]|done|done].
Qed.

End second_revision_more.

Section first_initialization.
Context `{Host}.







End first_initialization.

(** * Runs on the concrete host *)

Import Demo.

(** Evaluates a closed statement, a conjunction of equations between
    values. *)
Ltac evaluate :=
  vm_compute; repeat match goal with |- _ /\ _ => split end; reflexivity.

Lemma demo_sink_returns : sink_returns (logErrorFunc booted).
Proof. exists (SinkOption (Some 1%N)). split; [evaluate|done]. Qed.

Lemma demo_callbacks_keep_registry : callbacks_keep_registry.
Proof. done. Qed.




Lemma missing_load_fails : load_fails booted missing no_such_file.
Proof. exists 0%nat, [("greeting", "Hello")], [("greeting", "Hello")]. evaluate. Qed.

(** C1, on the concrete host: switching to a language whose file does
    not exist, with an error sink that returns. *)
Lemma SwitchLanguage_failed_load_keeps_state_witness :
  load_fails booted missing no_such_file
  /\ calls (emitted (Options.SwitchLanguage [] (Some missing) booted)) = []
  /\ Language (final (Options.SwitchLanguage [] (Some missing) booted))
     = Language booted
  /\ Localizer (final (Options.SwitchLanguage [] (Some missing) booted))
     = Localizer booted
  /\ outcome (Options.SwitchLanguage [] (Some missing) booted)
     = Ret (Some (load_error missing no_such_file)).
Proof.
  split; [exact missing_load_fails|].
  destruct (SwitchLanguage_failed_load_keeps_state [] missing booted no_such_file)
    as [Hthird _].
  destruct (Hthird missing_load_fails) as (Hcalls & Hlang & Hloc & _ & Hret).
  split; [exact Hcalls|]. split; [exact Hlang|]. split; [exact Hloc|].
  apply Hret, demo_sink_returns.
Defined.

(** C1 as stated fails: after [InitI18nWithOptions] without a
    [LogErrorFunc] option the error sink is [log.Fatalf], and a switch
    whose load fails neither returns the error nor returns early: the
    process ends inside the log call. *)
Lemma SwitchLanguage_failed_load_default_sink_exits :
  load_fails booted_default missing no_such_file
  /\ logErrorFunc booted_default = Some log_Fatalf
  /\ outcome (Options.SwitchLanguage [] (Some missing) booted_default) = Exit 1
  /\ outcome (I18n.SwitchLanguage [] (Some missing) booted_default) = Exit 1.
Proof.
  split; [|evaluate].
  exists 0%nat, [("greeting", "Hello")], [("greeting", "Hello")]. evaluate.
Qed.

Lemma missing_key_adapter_error (s : State) :
  Localizer s = Some (mkLocalizer (Some 0%nat) ["en"]) ->
  bundles s = [[("greeting", "Hello")]] ->
  forall data n, adapter_error s "missing.key" data n.
Proof.
  intros Hloc Hb data n.
  exists (mkLocalizer (Some 0%nat) ["en"]), [("greeting", "Hello")], "",
    "message missing.key not found".
  rewrite Hloc, Hb. done.
Qed.

(** C2, on the concrete host: an identifier the catalog does not have,
    with an error sink that returns. *)
Lemma Localize_returns_default_witness :
  outcome (Localize "fallback" "missing.key" None 0 booted) = Ret "fallback"
  /\ final (Localize "fallback" "missing.key" None 0 booted) = booted
  /\ outcome (TC "fallback" "missing.key" booted) = Ret "fallback"
  /\ outcome (T "missing.key" booted) = Ret ""
  /\ outcome (TCData "fallback" "missing.key" None booted) = Ret "fallback"
  /\ outcome (TData "missing.key" None booted) = Ret "".
Proof.
  assert (Hloc : Localizer booted = Some (mkLocalizer (Some 0%nat) ["en"]))
    by evaluate.
  assert (Hbundles : bundles booted = [[("greeting", "Hello")]]) by evaluate.
  pose proof (missing_key_adapter_error booted Hloc Hbundles) as Herr.
  destruct (Localize_returns_default_when_sink_returns booted demo_sink_returns)
    as (HLocalize & HTC & HT & HTCData & HTData).
  destruct (HLocalize "fallback" "missing.key" None 0%Z (Herr _ _)) as [Hout Hfin].
  split; [exact Hout|]. split; [exact Hfin|].
  split; [apply HTC, Herr|]. split; [apply HT, Herr|].
  split; [apply (HTCData "fallback" "missing.key" None), Herr|].
  apply (HTData "missing.key" None), Herr.
Defined.

(** C2 as stated fails: with the default error sink, [log.Fatalf], a
    missing identifier ends the process inside [Localize]; the default
    text is not returned. *)
Lemma Localize_default_sink_exits :
  adapter_error booted_default "missing.key" None 0
  /\ logErrorFunc booted_default = Some log_Fatalf
  /\ outcome (Localize "fallback" "missing.key" None 0 booted_default) = Exit 1
  /\ outcome (TC "fallback" "missing.key" booted_default) <> Ret "fallback".
Proof.
  split; [apply missing_key_adapter_error; evaluate|].
  split; [evaluate|]. split; [evaluate|].
  vm_compute. discriminate.
Qed.

(** C9, on the concrete host: the state the package starts in. *)
Lemma Localize_before_initialization_witness :
  Localizer (initial_state two_packages) = None
  /\ Localize "fallback" "greeting" None 0 (initial_state two_packages)
     = mkRun (Panic NilDereference) (initial_state two_packages) []
  /\ T "greeting" (initial_state two_packages)
     = mkRun (Panic NilDereference) (initial_state two_packages) [].
Proof.
  split; [reflexivity|].
  destruct (Localize_before_initialization_panics (initial_state two_packages)
              eq_refl) as (HLocalize & _ & HT & _).
  split; [apply HLocalize|apply HT].
Defined.

(** C10, on the concrete host: [InitI18n(nil, nil, nil)] in the state the
    package starts in. *)
Lemma InitI18nWithConfig_nil_lang_witness :
  DefaultLang (initial_state two_packages) = None
  /\ outcome (I18n.InitI18n None None None (initial_state two_packages))
     = Panic NilDereference
  /\ DefaultLang (final (I18n.InitI18n None None None (initial_state two_packages)))
     = None.
Proof.
  split; [reflexivity|].
  destruct (InitI18nWithConfig_nil_lang_panics (initial_state two_packages) eq_refl)
    as [_ HInit].
  destruct (HInit None None) as (Hout & _ & Hdef).
  split; [exact Hout|exact Hdef].
Defined.

(** C3: the code at a failing input.  An entry built by a caller, with
    the zero [CallbackId], is registered twice in a row: no call is
    rejected, nothing is logged, and the registry ends with two entries
    for it, under the keys 1 and 2.  The dictionary is looked up under the
    entry's [CallbackId] but filled under the counter, and the counter's
    value is never written back into the entry. *)
Theorem AddSwitchCallback_same_entry_twice :
  let r := (AddSwitchCallback (Some first) ;;; AddSwitchCallback (Some first))
             booted in
  callbackDataMap booted = ∅
  /\ outcome r = Ret tt
  /\ error_logs (emitted r) = []
  /\ callbackDataMap (final r) = <[2%N := first]> (<[1%N := first]> ∅)
  /\ registered (callbackDataMap (final r)) = [(2%N, CbFunc 7%N); (1%N, CbFunc 7%N)].
Proof. evaluate. Qed.





(** The entries [TCallback] makes register a new entry every time they
    are invoked (the new entry carries the zero [CallbackId] too, and key
    0 is never taken): one subscription is one entry before the first
    switch, two after it, four after the second. *)
Example TCallback_entries_multiply :
  let s1 := final (TCallback "greeting" (Some 9%N) booted) in
  let s2 := final (Options.SwitchLanguage [1%N] (Some zh) s1) in
  let r3 := Options.SwitchLanguage [1%N; 2%N] (Some en) s2 in
  size (callbackDataMap s1) = 1
  /\ size (callbackDataMap s2) = 2
  /\ calls (emitted r3)
     = [(1%N, CbLocalized "" "greeting" None (Some 9%N));
        (2%N, CbLocalized "" "greeting" None (Some 9%N))]
  /\ size (callbackDataMap (final r3)) = 4.
Proof. evaluate. Qed.

(** C5: the code at a failing input.  The batch holds a file whose label
    line is [# [i18n] <> <Broken>]: the pattern matches, the tag string is
    empty and yields no tag.  [ReadLangFromFileName] panics on the index
    expression, the discovery ends with that panic after the first file,
    and so does the initialisation; the third file is never read. *)
Theorem untagged_label_panics_discovery :
  let s := discovering [quiet_errors] with_untagged in
  Glob (files s) "lang/*.lang" = (["lang/en.lang"; "lang/a.lang"; "lang/zh.lang"], None)
  /\ ReadLangLabel "# [i18n] <> <Broken>" = [""; "Broken"]
  /\ parseTags "" = []
  /\ Options.ReadLangFromFileName "lang/a.lang" s = mkRun (Panic IndexOutOfRange) s []
  /\ outcome (Options.PackageListByPatternFunc [lang_pattern] s)
     = Panic IndexOutOfRange
  /\ emitted (Options.PackageListByPatternFunc [lang_pattern] s)
     = [EvLog SevInfo "[i18n] Found language: %s" [VString "English (en)"]]
  /\ outcome (Options.InitI18nWithOptions None [quiet_errors]
                (initial_state with_untagged))
     = Panic IndexOutOfRange.
Proof. evaluate. Qed.

Lemma a_lang_unlabelled (s : State) :
  files s = with_unlabelled -> unlabelled (files s) "lang/a.lang".
Proof.
  intros ->. exists ("greeting=Hi" +:+ String GoStrings.newline ""). evaluate.
Qed.

(** C6, on the concrete host: a batch of three files, the second
    without a label, and an error sink that returns. *)
Lemma unlabelled_file_is_skipped_witness :
  let s := discovering [quiet_errors] with_unlabelled in
  outcome (Options.ReadLangFromFileName "lang/a.lang" s) = Ret None
  /\ outcome (Options.range_packages ["lang/en.lang"; "lang/a.lang"; "lang/zh.lang"] [] s)
     = outcome (Options.range_packages ["lang/en.lang"; "lang/zh.lang"] [] s)
  /\ outcome (Options.PackageListByPatternFunc [lang_pattern] s)
     = Ret ([Some en; Some zh], None).
Proof.
  intros s.
  assert (Hsink : sink_returns (logErrorFunc s)).
  { exists (SinkOption (Some 1%N)). split; [evaluate|done]. }
  assert (Hfiles : files s = with_unlabelled) by reflexivity.
  destruct (unlabelled_file_is_skipped s "lang/a.lang" Hsink
              (a_lang_unlabelled s Hfiles))
    as ((format & args & Hread) & Hskip & _).
  split; [by rewrite Hread|].
  split; [exact (Hskip ["lang/en.lang"] ["lang/zh.lang"] [])|].
  vm_compute. reflexivity.
Defined.

(** C6 as stated fails: with the default error sink, [log.Fatalf], the
    log call for the file without a label ends the process, and with it
    the discovery and the initialisation; the third file is never read. *)
Lemma unlabelled_file_default_sink_exits :
  let s := discovering [] with_unlabelled in
  unlabelled (files s) "lang/a.lang"
  /\ Glob (files s) "lang/*.lang" = (["lang/en.lang"; "lang/a.lang"; "lang/zh.lang"], None)
  /\ logErrorFunc s = Some log_Fatalf
  /\ outcome (Options.PackageListByPatternFunc [lang_pattern] s) = Exit 1
  /\ outcome (Options.InitI18nWithOptions None [] (initial_state with_unlabelled))
     = Exit 1.
Proof.
  intros s. split; [apply a_lang_unlabelled; reflexivity|]. evaluate.
Qed.



(** C8: the code at a failing input.  [PackagePath "/opt/lang"] followed
    by [PackageSuffix "toml"]: the pattern the discovery is called with is
    [toml/*.toml]; the path given before and the new suffix would make
    [/opt/lang/*.toml].  The rewrite joins the suffix option's own data,
    the suffix, where the path belongs. *)
Theorem PackageSuffix_after_PackagePath_drops_path :
  let options := [NewOptionWithData PackagePath (VString "/opt/lang");
                  NewOptionWithData PackageSuffix (VString "toml")] in
  packageListFunc (discovering options two_packages)
  = Some (ListByPattern "toml/*.toml")
  /\ Filepath.Join ["/opt/lang"; "*." +:+ "toml"] = "/opt/lang/*.toml"
  /\ packageListFunc (discovering [NewOptionWithData PackagePath (VString "/opt/lang")]
                        two_packages)
     = Some (ListByPattern "/opt/lang/*.lang").
Proof. evaluate. Qed.

(** * More runs on the concrete host *)

Import Samples.

Lemma booted_info_sink_returns : sink_returns (logInfoFunc booted).
Proof. exists log_Printf. split; [evaluate|done]. Qed.

Lemma listing_sink_returns fs : sink_returns (logErrorFunc (listing fs)).
Proof. exists (SinkOption (Some 1%N)). split; [reflexivity|done]. Qed.

Lemma booted_keys_allocated : keys_allocated booted.
Proof.
  assert (Hempty : callbackDataMap booted = ∅) by evaluate.
  intros k [d Hk]. by rewrite Hempty, lookup_empty in Hk.
Qed.

Lemma demo_callbacks_keep_counter : callbacks_keep_counter.
Proof. done. Qed.

(** X2, on the label of the English package. *)
Lemma ReadLangLabel_reads_label_witness :
  ReadLangLabel ("# [i18n] <" +:+ "en" +:+ "> <" +:+ "English" +:+ ">"
                 +:+ String GoStrings.newline "greeting=Hello")
  = ["en"; "English"].
Proof.
  apply (ReadLangLabel_reads_label "en" "English"
           (String GoStrings.newline "greeting=Hello") eq_refl eq_refl eq_refl).
  right. by eexists.
Defined.

(** X3, on a package that is one label line with no newline. *)
Lemma ReadLangFromFileName_needs_newline_witness :
  Options.ReadLangFromFileName "lang/en.lang" (listing one_line)
  = mkRun (Ret None) (listing one_line)
      [EvLog SevError "[i18n] ReadLangFromFileName error: %v" [VError "EOF"]]
  /\ I18n.readLangLabel "lang/en.lang" (listing one_line)
     = mkRun (Ret (ReadLangLabel "# [i18n] <en> <English>")) (listing one_line) [].
Proof.
  assert (Hfile : files (listing one_line) !! "lang/en.lang"
                  = Some "# [i18n] <en> <English>") by (vm_compute; reflexivity).
  destruct (ReadLangFromFileName_needs_newline "lang/en.lang"
              "# [i18n] <en> <English>" (listing one_line) Hfile eq_refl)
    as (_ & Hthird & Hsecond).
  split; [exact (Hthird (listing_sink_returns one_line))|exact Hsecond].
Defined.

(** X4, on the English package. *)
Lemma ReadLangFromBytes_agrees_with_file_witness :
  outcome (Options.ReadLangFromBytes
             (Some ("# [i18n] <en> <English>"
                    +:+ String GoStrings.newline ("greeting=Hello"
                    +:+ String GoStrings.newline "")))
             "lang/en.lang" (listing two_packages))
  = outcome (Options.ReadLangFromFileName "lang/en.lang" (listing two_packages)).
Proof.
  apply (ReadLangFromBytes_agrees_with_file "lang/en.lang"
           "# [i18n] <en> <English>"
           ("greeting=Hello" +:+ String GoStrings.newline "")
           (listing two_packages));
    [vm_compute; reflexivity|reflexivity|reflexivity|apply listing_sink_returns].
Defined.

Lemma en_from_bytes_load_fails :
  file_load_fails booted en_from_bytes "open memory.lang: no such file or directory".
Proof. exists 0%nat, [("greeting", "Hello")], [("greeting", "Hello")]. evaluate. Qed.

(** X5, on the bytes of the English package under a name no file has. *)
Lemma ReadLangFromBytes_keeps_no_bytes_witness :
  outcome (Options.ReadLangFromBytes (Some en_lang) "memory.lang" booted)
  = Ret (Some en_from_bytes)
  /\ Lang_Data en_from_bytes = None
  /\ outcome (Options.LoadLanguage (Some en_from_bytes) booted) <> Ret None.
Proof.
  assert (Hout : outcome (Options.ReadLangFromBytes (Some en_lang) "memory.lang" booted)
                 = Ret (Some en_from_bytes)) by (vm_compute; reflexivity).
  destruct (ReadLangFromBytes_keeps_no_bytes (Some en_lang) "memory.lang" booted
              en_from_bytes Hout) as (_ & Hdata & _ & Hload).
  split; [exact Hout|]. split; [exact Hdata|].
  exact (Hload booted _ en_from_bytes_load_fails).
Defined.

(** X6, on a language whose file does not exist. *)
Lemma UseLanguage_assigns_before_load_witness :
  Language (final (Options.UseLanguage (Some missing) booted)) = Some missing
  /\ Localizer (final (Options.UseLanguage (Some missing) booted)) = Localizer booted
  /\ outcome (Options.UseLanguage (Some missing) booted)
     = Ret (Some (load_error missing no_such_file)).
Proof.
  destruct (UseLanguage_assigns_before_load missing booted no_such_file
              missing_load_fails) as (Hlang & Hloc & _ & Hret).
  split; [exact Hlang|]. split; [exact Hloc|]. exact (Hret demo_sink_returns).
Defined.

(** X7, on the second package. *)
Lemma UseLanguage_then_Localize_witness :
  outcome (Options.UseLanguage (Some zh) booted) = Ret None
  /\ outcome (Localize "fallback" "greeting" None 0
                (final (Options.UseLanguage (Some zh) booted))) = Ret "Ni hao"
  /\ outcome (Localize "fallback" "greeting" None 0
                (final (Options.SwitchLanguage [] (Some zh) booted))) = Ret "Ni hao".
Proof.
  assert (Hstate : bundle booted = Some 0%nat
                   /\ bundles booted !! 0%nat = Some [("greeting", "Hello")]
                   /\ callbackDataMap booted = ∅) by evaluate.
  destruct Hstate as (Hp & Hb & Hempty).
  assert (Hload : LoadMessageFile (files booted) (Lang_FileName zh)
                    [("greeting", "Hello")]
                  = ([("greeting", "Ni hao"); ("greeting", "Hello")], None))
    by (vm_compute; reflexivity).
  destruct (UseLanguage_then_Localize zh booted 0%nat [("greeting", "Hello")]
              [("greeting", "Ni hao"); ("greeting", "Hello")] Hp Hb Hload
              booted_info_sink_returns) as ((Hout & _ & Htext) & Hswitch).
  destruct (Hswitch [] Hempty) as (_ & _ & Htext').
  split; [exact Hout|].
  split; [exact (Htext "fallback" "greeting" None 0%Z "Ni hao" eq_refl)|].
  exact (Htext' "fallback" "greeting" None 0%Z "Ni hao" eq_refl).
Defined.

(** X8: an initialisation for a tag no package carries. *)
Lemma InitI18nWithOptions_without_match_witness :
  outcome (Options.InitI18nWithOptions (Some missing) [quiet_errors]
             (initial_state two_packages)) = Ret None
  /\ Localizer (final (Options.InitI18nWithOptions (Some missing) [quiet_errors]
                         (initial_state two_packages))) = None
  /\ Language (final (Options.InitI18nWithOptions (Some missing) [quiet_errors]
                        (initial_state two_packages))) = None.
Proof.
  assert (Hout : outcome (Options.InitI18nWithOptions (Some missing) [quiet_errors]
                            (initial_state two_packages)) = Ret None)
    by (vm_compute; reflexivity).
  assert (Hlangs : Languages (final (Options.InitI18nWithOptions (Some missing)
                                       [quiet_errors] (initial_state two_packages)))
                   = [Some en; Some zh]) by (vm_compute; reflexivity).
  assert (Hoptions : Forall (fun o => Option_OptionType o <> PackageListFunc)
                       [quiet_errors]) by (by repeat constructor).
  assert (Hnone : forall l,
             Some l ∈ Languages (final (Options.InitI18nWithOptions (Some missing)
                                          [quiet_errors] (initial_state two_packages))) ->
             Lang_Tag l <> Lang_Tag (requested (Some missing))).
  { intros l. rewrite Hlangs.
    intros [[= ->]|[[= ->]|[]%elem_of_nil]%elem_of_cons]%elem_of_cons; done. }
  destruct (InitI18nWithOptions_without_match (Some missing) [quiet_errors]
              (initial_state two_packages) None Hoptions Hout Hnone)
    as (_ & Hloc & Hlang).
  split; [exact Hout|]. split; [exact Hloc|exact Hlang].
Defined.

(** X9: an initialisation for a package whose body the decoder rejects. *)
Lemma InitI18nWithOptions_error_is_load_error_witness :
  outcome (Options.InitI18nWithOptions (Some fr) [quiet_errors]
             (initial_state with_undecodable))
  = Ret (Some (load_error fr "cannot decode lang/fr.lang"))
  /\ exists pre l post e0,
       Languages (final (Options.InitI18nWithOptions (Some fr) [quiet_errors]
                           (initial_state with_undecodable)))
       = pre ++ Some l :: post
       /\ Forall (other_tag (requested (Some fr))) pre
       /\ Lang_Tag l = Lang_Tag (requested (Some fr))
       /\ load_error fr "cannot decode lang/fr.lang" = load_error l e0
       /\ Language (final (Options.InitI18nWithOptions (Some fr) [quiet_errors]
                             (initial_state with_undecodable))) = Some l.
Proof.
  assert (Hout : outcome (Options.InitI18nWithOptions (Some fr) [quiet_errors]
                            (initial_state with_undecodable))
                 = Ret (Some (load_error fr "cannot decode lang/fr.lang")))
    by (vm_compute; reflexivity).
  split; [exact Hout|].
  exact (InitI18nWithOptions_error_is_load_error (Some fr) [quiet_errors]
           (initial_state with_undecodable) _ Hout).
Defined.

(** X10: an initialisation for the English package. *)
Lemma InitI18nWithOptions_uses_first_match_witness :
  outcome (Options.InitI18nWithOptions (Some en) [quiet_errors]
             (initial_state two_packages)) = Ret None
  /\ exists pre l post,
       Languages (final (Options.InitI18nWithOptions (Some en) [quiet_errors]
                           (initial_state two_packages)))
       = pre ++ Some l :: post
       /\ Forall (other_tag (requested (Some en))) pre
       /\ Lang_Tag l = Lang_Tag (requested (Some en))
       /\ Language (final (Options.InitI18nWithOptions (Some en) [quiet_errors]
                             (initial_state two_packages))) = Some l
       /\ Localizer (final (Options.InitI18nWithOptions (Some en) [quiet_errors]
                              (initial_state two_packages)))
          = Some (mkLocalizer
                    (bundle (final (Options.InitI18nWithOptions (Some en)
                                      [quiet_errors] (initial_state two_packages))))
                    [Tag_String (Lang_Tag l)]).
Proof.
  assert (Hout : outcome (Options.InitI18nWithOptions (Some en) [quiet_errors]
                            (initial_state two_packages)) = Ret None)
    by (vm_compute; reflexivity).
  assert (Hlangs : Languages (final (Options.InitI18nWithOptions (Some en)
                                       [quiet_errors] (initial_state two_packages)))
                   = [Some en; Some zh]) by (vm_compute; reflexivity).
  split; [exact Hout|].
  apply (InitI18nWithOptions_uses_first_match (Some en) [quiet_errors]
           (initial_state two_packages) Hout).
  exists en. rewrite Hlangs. split; [constructor|reflexivity].
Defined.

(** X11, with no option at all. *)
Lemma PackageListByPatternFunc_without_pattern_witness :
  Options.PackageListByPatternFunc [] booted
  = mkRun (Ret ([], Some "[i18n] PackageList cannot find pattern")) booted
      [EvLog SevError "[i18n] PackageList cannot find pattern" []].
Proof.
  exact (proj2 (PackageListByPatternFunc_without_pattern [] booted (Forall_nil_2 _))
           demo_sink_returns).
Defined.

(** X12, on three files of which one has no label. *)
Lemma PackageListByPatternFunc_follows_Glob_witness :
  outcome (Options.PackageListByPatternFunc [lang_pattern] (listing with_unlabelled))
  = Ret ([Some en; Some zh], None)
  /\ exists packages ls,
       Glob (files (listing with_unlabelled)) "lang/*.lang" = (packages, None)
       /\ [Some en; Some zh] = Some <$> ls
       /\ Lang_FileName <$> ls `sublist_of` packages
       /\ Forall (fun l => Lang_Data l = None) ls.
Proof.
  assert (Hout : outcome (Options.PackageListByPatternFunc
                            ([] ++ NewOptionWithData PackagePattern (VString "lang/*.lang")
                                :: []) (listing with_unlabelled))
                 = Ret ([Some en; Some zh], None)) by (vm_compute; reflexivity).
  split; [exact Hout|].
  exact (proj2 (PackageListByPatternFunc_follows_Glob [] "lang/*.lang" []
                  (listing with_unlabelled) [Some en; Some zh] (Forall_nil_2 _) Hout)).
Defined.

(** X13: the suffix [toml] and no path. *)
Lemma InitI18nWithOptions_suffix_keeps_pattern_witness :
  outcome (Options.InitI18nWithOptions (Some en) suffix_only
             (initial_state two_packages)) = Ret None
  /\ packageListFunc (final (Options.InitI18nWithOptions (Some en) suffix_only
                               (initial_state two_packages)))
     = Some (ListByPattern "lang/*.lang").
Proof.
  assert (Hout : outcome (Options.InitI18nWithOptions (Some en) suffix_only
                            (initial_state two_packages)) = Ret None)
    by (vm_compute; reflexivity).
  split; [exact Hout|].
  apply (InitI18nWithOptions_suffix_keeps_pattern (Some en) suffix_only
           (initial_state two_packages) None); [| |exact Hout];
    repeat constructor; done.
Defined.

(** X14: a second initialisation, without options, after one with a quiet error sink. *)
Lemma InitI18nWithOptions_resets_error_sink_witness :
  logErrorFunc booted = Some (SinkOption (Some 1%N))
  /\ logErrorFunc (final (Options.InitI18nWithOptions (Some en) [] booted))
     = Some log_Fatalf.
Proof.
  split; [vm_compute; reflexivity|].
  exact (InitI18nWithOptions_resets_error_sink (Some en) [] booted
           (Forall_nil_2 _) (Forall_nil_2 _)).
Defined.

(** X15: an initialisation for the second package while the first is in use. *)
Lemma InitI18nWithConfig_again_keeps_Language_witness :
  Language booted = Some en
  /\ Language (final (I18n.InitI18nWithConfig (Some zh) None (Some 1%N) "" None ""
                        booted)) = Some en
  /\ Localizer (final (I18n.InitI18nWithConfig (Some zh) None (Some 1%N) "" None ""
                         booted)) = Localizer booted.
Proof.
  assert (Hlang : Language booted = Some en) by (vm_compute; reflexivity).
  destruct (InitI18nWithConfig_again_keeps_Language en booted (Some zh) None
              (Some 1%N) "" None "" Hlang) as (Hsame & Hloc & _).
  split; [exact Hlang|]. split; [exact Hsame|exact Hloc].
Defined.

(** X16: a first initialisation for the second package. *)
Lemma InitI18nWithConfig_sets_requested_language_witness :
  outcome (I18n.InitI18nWithConfig (Some zh) None (Some 1%N) "" None ""
             (initial_state two_packages)) = Ret tt
  /\ exists l,
       Language (final (I18n.InitI18nWithConfig (Some zh) None (Some 1%N) "" None ""
                          (initial_state two_packages))) = Some l
       /\ Lang_Tag l = Lang_Tag (default I18n.SimplifiedChinese (Some zh)).
Proof.
  assert (Hout : outcome (I18n.InitI18nWithConfig (Some zh) None (Some 1%N) "" None ""
                            (initial_state two_packages)) = Ret tt)
    by (vm_compute; reflexivity).
  split; [exact Hout|].
  exact (proj2 (InitI18nWithConfig_sets_requested_language
                  (initial_state two_packages) (Some zh) None (Some 1%N) "" None ""
                  eq_refl Hout)).
Defined.

(** X17: the first registration after the initialisation. *)
Lemma AddSwitchCallback_never_replaces_witness :
  callbackDataMap booted ⊆ callbackDataMap (final (AddSwitchCallback (Some first) booted))
  /\ callbackDataMap (final (AddSwitchCallback (Some first) booted))
     = <[(currentCallbackDataId booted + 1)%N := first]> (callbackDataMap booted).
Proof.
  assert (Hlt : (currentCallbackDataId booted + 1 < 2 ^ 32)%N)
    by (vm_compute; reflexivity).
  destruct (AddSwitchCallback_never_replaces booted first booted_keys_allocated Hlt)
    as (Hsub & _ & Hzero).
  split; [exact Hsub|]. exact (proj2 (Hzero eq_refl)).
Defined.

(** X18: one subscription after the initialisation. *)
Lemma TCDataCallback_registers_again_witness :
  outcome (TCDataCallback "" "greeting" None (Some 9%N) booted) = Ret tt
  /\ size (callbackDataMap (final (TCDataCallback "" "greeting" None (Some 9%N) booted)))
     = S (size (callbackDataMap booted)).
Proof.
  assert (Hout : outcome (TCDataCallback "" "greeting" None (Some 9%N) booted) = Ret tt)
    by (vm_compute; reflexivity).
  assert (Hlt : (currentCallbackDataId booted + 1 < 2 ^ 32)%N)
    by (vm_compute; reflexivity).
  split; [exact Hout|].
  exact (proj2 (TCDataCallback_registers_again "" "greeting" None (Some 9%N) booted
                  demo_callbacks_keep_registry demo_callbacks_keep_counter
                  booted_keys_allocated Hlt Hout)).
Defined.

(** X19: a subscription before the initialisation, and one with a nil callback after it. *)
Lemma TCDataCallback_registers_last_witness :
  Localizer (initial_state two_packages) = None
  /\ TCallback "greeting" (Some 9%N) (initial_state two_packages)
     = mkRun (Panic NilDereference) (initial_state two_packages) []
  /\ final (TCDataCallback "" "greeting" None None booted) = booted.
Proof.
  split; [reflexivity|]. split.
  - exact (proj2 (proj2 (TCDataCallback_registers_last "" "greeting" None
                           (initial_state two_packages)) eq_refl (Some 9%N))).
  - exact (proj1 (proj1 (TCDataCallback_registers_last "" "greeting" None booted))).
Defined.

(** X20: an exclamation mark after the greeting, and after a text the catalog does not have. *)
Lemma GetI18nFormatted_appends_plain_Format_witness :
  outcome (GetI18nFormatted (Some shout) booted) = Ret "Hello!"
  /\ outcome (GetI18nFormatted (Some shout_missing) booted) = Ret "!".
Proof.
  destruct (GetI18nFormatted_appends_plain_Format shout booted eq_refl)
    as (Hrun & _ & _).
  destruct (GetI18nFormatted_appends_plain_Format shout_missing booted eq_refl)
    as (_ & _ & Hmissing).
  split.
  - rewrite Hrun. vm_compute. reflexivity.
  - apply (Hmissing demo_sink_returns).
    apply missing_key_adapter_error; vm_compute; reflexivity.
Defined.

(** X21: an initialisation with an empty pattern. *)
Lemma InitI18nWithOptions_panics_on_discovery_error_witness :
  outcome (Options.InitI18nWithOptions (Some en) empty_pattern
             (initial_state two_packages))
  = Panic (PanicValue ("[i18n] PackageList error: "
                       +:+ "[i18n] PackageList cannot find pattern")).
Proof.
  assert (Hbefore : outcome (Options.before_discovery (Some en) empty_pattern
                               (initial_state two_packages)) = Ret en)
    by (vm_compute; reflexivity).
  assert (Hlister : packageListFunc (final (Options.before_discovery (Some en)
                                              empty_pattern (initial_state two_packages)))
                    = Some (ListByPattern "")) by (vm_compute; reflexivity).
  assert (Hsink : sink_returns (logErrorFunc (final (Options.before_discovery (Some en)
                                   empty_pattern (initial_state two_packages))))).
  { exists (SinkOption (Some 1%N)). split; [vm_compute; reflexivity|done]. }
  exact (proj2 (InitI18nWithOptions_panics_on_discovery_error (Some en) empty_pattern
                  (initial_state two_packages) en Hbefore) Hlister Hsink).
Defined.






(** X24: an initialisation with a nil language. *)
Lemma InitI18nWithOptions_sets_DefaultLang_witness :
  outcome (Options.InitI18nWithOptions None [quiet_errors]
             (initial_state two_packages)) = Ret None
  /\ DefaultLang (final (Options.InitI18nWithOptions None [quiet_errors]
                           (initial_state two_packages)))
     = Some Options.English.
Proof.
  assert (Hout : outcome (Options.InitI18nWithOptions None [quiet_errors]
                            (initial_state two_packages)) = Ret None)
    by (vm_compute; reflexivity).
  assert (Hoptions : Forall (fun o => Option_OptionType o <> PackageListFunc)
                       [quiet_errors]) by (by repeat constructor).
  split; [exact Hout|].
  exact (proj2 (InitI18nWithOptions_sets_DefaultLang None [quiet_errors]
                  (initial_state two_packages) None Hoptions Hout) eq_refl).
Defined.

(** X25, on the English package. *)
Lemma ReadLangFromFileName_reads_label_witness :
  Options.ReadLangFromFileName "lang/en.lang" (listing two_packages)
  = mkRun (Ret (Some {| Lang_Name := "English"; Lang_Tag := "en";
                        Lang_FileName := "lang/en.lang"; Lang_Data := None |}))
      (listing two_packages) [].
Proof.
  assert (Hfile : files (listing two_packages) !! "lang/en.lang"
                  = Some ("# [i18n] <" +:+ "en" +:+ "> <" +:+ "English" +:+ ">"
                          +:+ String GoStrings.newline
                                ("greeting=Hello" +:+ String GoStrings.newline "")))
    by (vm_compute; reflexivity).
  exact (proj1 (ReadLangFromFileName_reads_label "lang/en.lang" "en" "English"
                  ("greeting=Hello" +:+ String GoStrings.newline "")
                  (listing two_packages) "en" [] Hfile eq_refl eq_refl eq_refl
                  eq_refl)).
Defined.

(** X26: the one call of the package's test, with and without its option. *)
Lemma InitI18nWithOptions_ignores_unknown_options_witness :
  Options.InitI18nWithOptions None
    [NewOptionWithData DefaultUseSystemLanguage (VBool true)]
    (initial_state two_packages)
  = Options.InitI18nWithOptions None [] (initial_state two_packages).
Proof.
  assert (Hunknown : (Option_OptionType
                        (NewOptionWithData DefaultUseSystemLanguage (VBool true)) < 1
                      \/ 7 < Option_OptionType
                               (NewOptionWithData DefaultUseSystemLanguage (VBool true)))%Z)
    by (right; reflexivity).
  exact (proj2 (InitI18nWithOptions_ignores_unknown_options None [] _ []
                  (initial_state two_packages) Hunknown) eq_refl).
Defined.

(** X27: a path option that carries a callback. *)
Lemma InitI18nWithOptions_option_without_data_witness :
  outcome (Options.InitI18nWithOptions (Some en)
             [NewOptionWithCallback PackagePath (Some 3%N)]
             (initial_state two_packages))
  = Panic NilDereference.
Proof.
  exact (proj1 (proj2 (InitI18nWithOptions_option_without_data (Some en) PackagePath
                         (Some 3%N) (initial_state two_packages)
                         (or_intror (or_introl eq_refl))))).
Defined.
